(** * Stationary wavelet transform (pywt/_swt.py): model and properties

    The development embeds [swt], [iswt], [swt2], [iswt2], [swtn] and [iswtn]
    of [pywt/_swt.py].  Arrays are a small fragment of NumPy's [ndarray]
    (shape, row-major data, basic slicing, integer-array indexing on the first
    axis, broadcasting, [roll]).  Python exceptions are values of [exn];
    dictionaries are [gmap string _]; the dictionaries of a coefficient list
    live in a store that [iswtn] mutates in place. *)

From Stdlib Require Import ZArith List String Ascii Lia.
From stdpp Require Import gmap strings list fin_maps.

Local Open Scope string_scope.
Local Open Scope list_scope.
Local Open Scope nat_scope.

(** ** Python exceptions and outcomes *)

Inductive exn : Type :=
| ValueError (msg : string)
| TypeError (msg : string)
| RuntimeError (msg : string)
| IndexError (msg : string)
| KeyError (key : string).

Inductive outcome (A : Type) : Type :=
| Ok (a : A)
| Raise (e : exn).
Arguments Ok {A} a.
Arguments Raise {A} e.

Definition obind {A B} (m : outcome A) (f : A → outcome B) : outcome B :=
  match m with
  | Ok a => f a
  | Raise e => Raise e
  end.

Fixpoint omapM {A B} (f : A → outcome B) (l : list A) : outcome (list B) :=
  match l with
  | [] => Ok []
  | x :: l' => obind (f x) (λ y, obind (omapM f l') (λ ys, Ok (y :: ys)))
  end.

Fixpoint ofoldM {A S} (f : S → A → outcome S) (s : S) (l : list A) : outcome S :=
  match l with
  | [] => Ok s
  | x :: l' => obind (f s x) (λ s', ofoldM f s' l')
  end.

(** ** Scalars

    Array elements are kept abstract: the transforms only add elements,
    divide them by a count, and split or join real and imaginary parts. *)

Class Scalar (R : Type) : Type := {
  r0 : R;
  radd : R → R → R;
  rdiv : R → nat → R;
  rreal : R → R;
  rimag : R → R;
  rmulj : R → R;
}.

Inductive dtype : Type := float64 | complex128 | int64 | object_.

#[global] Instance dtype_eq_dec : EqDecision dtype.
Proof. solve_decision. Defined.

Definition promote (a b : dtype) : dtype :=
  match a, b with
  | object_, _ | _, object_ => object_
  | complex128, _ | _, complex128 => complex128
  | float64, _ | _, float64 => float64
  | int64, int64 => int64
  end.

(** ** A fragment of NumPy *)

Record ndarray (R : Type) : Type := mk_array {
  dtype_of : dtype;
  shape : list nat;
  data : list R;
}.
Arguments mk_array {R} _ _ _.
Arguments dtype_of {R} _.
Arguments shape {R} _.
Arguments data {R} _.

Inductive slice : Type :=
| SAll
| SRange (start stop step : nat).

Definition size_of (sh : list nat) : nat := fold_right Nat.mul 1 sh.

Fixpoint ravel (sh idx : list nat) : nat :=
  match sh, idx with
  | _ :: sh', i :: idx' => i * size_of sh' + ravel sh' idx'
  | _, _ => 0
  end.

Fixpoint all_indices (sh : list nat) : list (list nat) :=
  match sh with
  | [] => [[]]
  | n :: sh' => flat_map (λ i, map (cons i) (all_indices sh')) (seq 0 n)
  end.

(** [range(start, min(stop, n), step)]: the positions a slice selects on
    an axis of length [n]. *)
Definition slice_indices (s : slice) (n : nat) : list nat :=
  match s with
  | SAll => seq 0 n
  | SRange a b st =>
      map (λ k, a + k * st) (seq 0 ((Nat.min b n - a + (st - 1)) / st))
  end.

Fixpoint find_pos (sel : list nat) (i : nat) : option nat :=
  match sel with
  | [] => None
  | j :: sel' => if Nat.eqb i j then Some 0 else S <$> find_pos sel' i
  end.

(** Position of a multi-index inside the region selected per axis. *)
Fixpoint region_pos (sels : list (list nat)) (idx : list nat) : option (list nat) :=
  match sels, idx with
  | [], [] => Some []
  | sel :: sels', i :: idx' =>
      match find_pos sel i, region_pos sels' idx' with
      | Some p, Some ps => Some (p :: ps)
      | _, _ => None
      end
  | _, _ => None
  end.

(** Broadcasting: index into an array of shape [sh] for position [idx] of a
    target that has at least as many axes (right-aligned, size-1 axes repeat). *)
Definition broadcast_ok (sh target : list nat) : bool :=
  (length sh <=? length target) &&
  forallb (λ p, (fst p =? 1) || (fst p =? snd p))
          (combine (rev sh) (rev target)).

Definition broadcast_idx (sh target idx : list nat) : list nat :=
  zip_with (λ d i, if d =? 1 then 0 else i) sh (drop (length target - length sh) idx).

Definition roll1 (n i : nat) : nat := if i =? 0 then n - 1 else i - 1.

Section NumPy.
Context {R : Type} {SR : Scalar R}.

Definition ndim (a : ndarray R) : nat := length (shape a).

Definition get (a : ndarray R) (idx : list nat) : R :=
  nth (ravel (shape a) idx) (data a) r0.

Definition tabulate (dt : dtype) (sh : list nat) (f : list nat → R) : ndarray R :=
  mk_array dt sh (map f (all_indices sh)).

Definition iscomplexobj (a : ndarray R) : bool :=
  bool_decide (dtype_of a = complex128).

Definition real (a : ndarray R) : ndarray R :=
  if iscomplexobj a then mk_array float64 (shape a) (map rreal (data a)) else a.

Definition imag (a : ndarray R) : ndarray R :=
  mk_array (if iscomplexobj a then float64 else dtype_of a) (shape a)
           (map rimag (data a)).

Definition astype (dt : dtype) (a : ndarray R) : ndarray R :=
  mk_array dt (shape a) (data a).

(** [len(a)] *)
Definition len (a : ndarray R) : outcome nat :=
  match shape a with
  | [] => Raise (TypeError "len() of unsized object")
  | n :: _ => Ok n
  end.

(** The per-axis positions selected by [a[tuple(sl)]]; missing trailing
    slices select whole axes, too many raise. *)
Definition selection (sh : list nat) (sl : list slice) : outcome (list (list nat)) :=
  if length sh <? length sl then Raise (IndexError "too many indices for array")
  else Ok (zip_with slice_indices (sl ++ replicate (length sh - length sl) SAll) sh).

(** [a[tuple(sl)]] *)
Definition getitem (a : ndarray R) (sl : list slice) : outcome (ndarray R) :=
  obind (selection (shape a) sl) (λ sels,
    Ok (tabulate (dtype_of a) (map length sels)
          (λ idx, get a (zip_with (λ sel i, nth i sel 0) sels idx)))).

(** In-place update of the region [a[tuple(sl)]]: every selected element
    becomes [f old pos], [pos] being its position inside the region. *)
Definition update_region (a : ndarray R) (sels : list (list nat))
    (f : R → list nat → R) : ndarray R :=
  tabulate (dtype_of a) (shape a)
    (λ idx, match region_pos sels idx with
            | Some pos => f (get a idx) pos
            | None => get a idx
            end).

(** [a[tuple(sl)] = 0] *)
Definition setitem_zero (a : ndarray R) (sl : list slice) : outcome (ndarray R) :=
  obind (selection (shape a) sl) (λ sels, Ok (update_region a sels (λ _ _, r0))).

Definition bget (x : ndarray R) (target pos : list nat) : R :=
  get x (broadcast_idx (shape x) target pos).

(** [a[tuple(sl)] += x] *)
Definition iadd_item (a : ndarray R) (sl : list slice) (x : ndarray R)
    : outcome (ndarray R) :=
  obind (selection (shape a) sl) (λ sels,
    let target := map length sels in
    if broadcast_ok (shape x) target
    then Ok (update_region a sels (λ old pos, radd old (bget x target pos)))
    else Raise (ValueError "operands could not be broadcast together")).

(** [a[tuple(sl)] = x] *)
Definition setitem (a : ndarray R) (sl : list slice) (x : ndarray R)
    : outcome (ndarray R) :=
  obind (selection (shape a) sl) (λ sels,
    let target := map length sels in
    if broadcast_ok (shape x) target
    then Ok (update_region a sels (λ _ pos, bget x target pos))
    else Raise (ValueError "could not broadcast input array")).

(** [a[tuple(sl)] /= n] *)
Definition idiv_item (a : ndarray R) (sl : list slice) (n : nat)
    : outcome (ndarray R) :=
  obind (selection (shape a) sl) (λ sels,
    Ok (update_region a sels (λ old _, rdiv old n))).

(** [x + y] *)
Definition np_add (x y : ndarray R) : outcome (ndarray R) :=
  let n := Nat.max (ndim x) (ndim y) in
  let pad sh := replicate (n - length sh) 1 ++ sh in
  let target := zip_with Nat.max (pad (shape x)) (pad (shape y)) in
  if broadcast_ok (shape x) target && broadcast_ok (shape y) target
  then Ok (tabulate (promote (dtype_of x) (dtype_of y)) target
             (λ idx, radd (bget x target idx) (bget y target idx)))
  else Raise (ValueError "operands could not be broadcast together").

(** [1j * x] *)
Definition mulj (x : ndarray R) : ndarray R :=
  mk_array complex128 (shape x) (map rmulj (data x)).

(** [x / n] *)
Definition np_div (x : ndarray R) (n : nat) : ndarray R :=
  mk_array (promote (dtype_of x) float64) (shape x) (map (λ v, rdiv v n) (data x)).

(** [np.arange(first, stop, step)] as a list of positions. *)
Definition arange (first stop step : nat) : list nat :=
  slice_indices (SRange first stop step) stop.

(** [l[0::2]] and [l[1::2]] *)
Fixpoint evens {A} (l : list A) : list A :=
  match l with
  | [] => []
  | x :: l' => x :: match l' with [] => [] | _ :: l'' => evens l'' end
  end.
Definition odds {A} (l : list A) : list A :=
  match l with [] => [] | _ :: l' => evens l' end.

(** [a[ix]] for an integer array [ix]: selection along the first axis. *)
Definition take (a : ndarray R) (ix : list nat) : outcome (ndarray R) :=
  match shape a with
  | [] => Raise (IndexError "too many indices for array")
  | n :: rest =>
      if forallb (λ i, i <? n) ix
      then Ok (tabulate (dtype_of a) (length ix :: rest)
                 (λ idx, match idx with
                         | [] => r0
                         | p :: idx' => get a (nth p ix 0 :: idx')
                         end))
      else Raise (IndexError "index out of bounds")
  end.

(** [a[ix] = x] for an integer array [ix]. *)
Definition put (a : ndarray R) (ix : list nat) (x : ndarray R) : outcome (ndarray R) :=
  match shape a with
  | [] => Raise (IndexError "too many indices for array")
  | n :: rest =>
      let target := length ix :: rest in
      if negb (forallb (λ i, i <? n) ix)
      then Raise (IndexError "index out of bounds")
      else if negb (broadcast_ok (shape x) target)
      then Raise (ValueError "shape mismatch: value array could not be broadcast")
      else Ok (fold_left
                 (λ acc p,
                    tabulate (dtype_of acc) (shape acc)
                      (λ idx, match idx with
                              | i :: idx' =>
                                  if i =? nth p ix 0
                                  then bget x target (p :: idx')
                                  else get acc idx
                              | [] => get acc idx
                              end))
                 (seq 0 (length ix)) a)
  end.

(** [np.roll(x, 1)]: circular shift of the flattened array. *)
Definition roll_flat (x : ndarray R) : ndarray R :=
  let n := length (data x) in
  mk_array (dtype_of x) (shape x)
           (map (λ i, nth (roll1 n i) (data x) r0) (seq 0 n)).

(** Python's [l[i]] and [l[i] = v] on a list, with negative indices. *)
Definition py_index {A} (l : list A) (i : Z) : outcome nat :=
  let n := Z.of_nat (length l) in
  if (0 <=? i)%Z && (i <? n)%Z then Ok (Z.to_nat i)
  else if (i <? 0)%Z && (0 <=? i + n)%Z then Ok (Z.to_nat (i + n))
  else Raise (IndexError "list index out of range").

Definition py_list_get {A} (l : list A) (i : Z) (dflt : A) : outcome A :=
  obind (py_index l i) (λ p, Ok (nth p l dflt)).

Definition py_list_set {A} (l : list A) (i : Z) (v : A) : outcome (list A) :=
  obind (py_index l i) (λ p, Ok (<[p := v]> l)).

(** [np.roll(x, 1, axis=ax)] *)
Definition roll_axis (x : ndarray R) (ax : Z) : outcome (ndarray R) :=
  match py_index (shape x) ax with
  | Ok p =>
      let n := nth p (shape x) 0 in
      Ok (tabulate (dtype_of x) (shape x)
            (λ idx, get x (<[p := roll1 n (nth p idx 0)]> idx)))
  | Raise _ => Raise (ValueError "axis is out of bounds for array")
  end.

End NumPy.

(** ** Effects: the store of coefficient dictionaries and a call counter

    [iswtn] receives a Python list of dictionaries and mutates the
    dictionaries in place, so a coefficient list is a list of locations into
    [dicts].  [work] counts the invocations of the external transform
    primitives.  An exception leaves the world as it was when raised. *)

Record world (R : Type) : Type := mk_world {
  dicts : nat → gmap string (ndarray R);
  work : nat;
}.
Arguments mk_world {R} _ _.
Arguments dicts {R} _.
Arguments work {R} _.

Definition M (R A : Type) : Type := world R → outcome A * world R.

#[global] Instance M_ret {R} : MRet (M R) := λ A a w, (Ok a, w).
#[global] Instance M_bind {R} : MBind (M R) := λ A B f m w,
  match m w with
  | (Ok a, w') => f a w'
  | (Raise e, w') => (Raise e, w')
  end.

Definition raise {R A} (e : exn) : M R A := λ w, (Raise e, w).

Definition lift {R A} (o : outcome A) : M R A := λ w, (o, w).

(** Invocation of an external primitive: counted, then its outcome. *)
Definition call {R A} (o : outcome A) : M R A :=
  λ w, (o, mk_world (dicts w) (S (work w))).

Definition dict_read {R} (l : nat) : M R (gmap string (ndarray R)) :=
  λ w, (Ok (dicts w l), w).

Definition dict_write {R} (l : nat) (d : gmap string (ndarray R)) : M R unit :=
  λ w, (Ok tt, mk_world (λ l', if Nat.eqb l' l then d else dicts w l') (work w)).

(** [d[key]] on a dictionary value *)
Definition dict_get {R} (d : gmap string (ndarray R)) (key : string)
    : outcome (ndarray R) :=
  match d !! key with
  | Some v => Ok v
  | None => Raise (KeyError key)
  end.

(** [coeffs[l].pop(key)] *)
Definition dict_pop {R} (l : nat) (key : string) : M R (ndarray R) :=
  d ← dict_read l;
  v ← lift (dict_get d key);
  _ ← dict_write l (delete key d);
  mret v.

(** [coeffs[l][key] = v] *)
Definition dict_setitem {R} (l : nat) (key : string) (v : ndarray R) : M R unit :=
  d ← dict_read l;
  dict_write l (<[key := v]> d).

Fixpoint foldM {R A S} (f : S → A → M R S) (s : S) (l : list A) : M R S :=
  match l with
  | [] => mret s
  | x :: l' => s' ← f s x; foldM f s' l'
  end.

Fixpoint mapM {R A B} (f : A → M R B) (l : list A) : M R (list B) :=
  match l with
  | [] => mret []
  | x :: l' => y ← f x; ys ← mapM f l'; mret (y :: ys)
  end.

(** ** Python helpers *)

(** ['a' * n] *)
Fixpoint str_mul (s : string) (n : nat) : string :=
  match n with
  | 0 => ""
  | S n' => String.append s (str_mul s n')
  end.

(** [range(a, b)] over Python integers *)
Definition py_range (a b : Z) : list Z :=
  map (λ k, (a + Z.of_nat k)%Z) (seq 0 (Z.to_nat (b - a))).

(** [len(set(l))] *)
Definition len_set (l : list Z) : nat := size (list_to_set l : gset Z).

(** [dict(pairs)]: later pairs overwrite earlier ones *)
Definition dict_of {V} (l : list (string * V)) : gmap string V :=
  fold_left (λ m kv, <[kv.1 := kv.2]> m) l ∅.

(** [itertools.product] of [k] copies of [l], in lexicographic order *)
Fixpoint product {A} (l : list A) (k : nat) : list (list A) :=
  match k with
  | 0 => [[]]
  | S k' => flat_map (λ x, map (cons x) (product l k')) l
  end.

(** One axis more: every key is extended by [a] and by [d]. *)
Definition expand (l : list string) : list string :=
  flat_map (λ s, [String.append s "a"; String.append s "d"]) l.

(** The keys [swtn] builds over [k] axes, in the order it builds them. *)
Fixpoint subband_keys (k : nat) : list string :=
  match k with
  | 0 => [""]
  | S k' => expand (subband_keys k')
  end.

(** [a + ndim if a < 0 else a] *)
Definition normalize_axis (nd : nat) (a : Z) : Z :=
  if (a <? 0)%Z then (a + Z.of_nat nd)%Z else a.

(** ** The external collaborators

    The compiled extensions ([_swt], [_swt_axis], [idwt_single]), the
    multidimensional inverse steps ([idwt2], [idwtn]) and the wavelet
    helpers are not part of this module: they are parameters of the model.
    [W] is what a caller passes as [wavelet]; [Wv] is a resolved wavelet. *)

Inductive mode : Type := periodization.

Class Primitives (R W Wv : Type) : Type := {
  _have_c99_complex : bool;
  _check_dtype : ndarray R → dtype;
  _as_wavelet : W → outcome Wv;
  _wavelets_per_axis : W → list Z → outcome (list Wv);
  swt_max_level : nat → Z;
  _swt : ndarray R → Wv → Z → Z → outcome (list (ndarray R * ndarray R));
  _swt_axis : ndarray R → Wv → Z → Z → Z → outcome (list (ndarray R * ndarray R));
  idwt_single : ndarray R → ndarray R → Wv → mode → outcome (ndarray R);
  idwt2 : ndarray R * (ndarray R * ndarray R * ndarray R) → list Wv → mode
          → outcome (ndarray R);
  idwtn : gmap string (ndarray R) → list Wv → mode → list Z → outcome (ndarray R);
}.

#[global] Instance outcome_ret : MRet outcome := λ A a, Ok a.
#[global] Instance outcome_bind : MBind outcome := λ A B f m, obind m f.

(** [l[i]] on a Python list, for [i >= 0] *)
Definition index {A} (l : list A) (i : nat) : outcome A :=
  match l !! i with
  | Some x => Ok x
  | None => Raise (IndexError "list index out of range")
  end.

(** [max(len(key) for key in d.keys())] *)
Definition max_key_len {V} (d : gmap string V) : outcome nat :=
  match map_to_list d with
  | [] => Raise (ValueError "max() arg is an empty sequence")
  | kvs => Ok (max_list (map (λ kv, String.length kv.1) kvs))
  end.

(** A dictionary with the same keys, each value mapped by [f] *)
Definition dict_traverse {V} (f : V → outcome V) (d : gmap string V)
    : outcome (gmap string V) :=
  ofoldM (λ acc kv, v ← f kv.2; Ok (<[kv.1 := v]> acc)) ∅ (map_to_list d).

(** ** The transforms of [_swt.py] *)

Section Transforms.
Context {R W Wv : Type} {SR : Scalar R} {PR : Primitives R W Wv}.

Abbreviation array := (ndarray R).
Abbreviation dict := (gmap string (ndarray R)).

(** *** [swt] *)

(** The body of [swt] after the complex guard (lines 68-86). *)
Definition swt_direct (data : array) (wavelet : W) (level : option Z)
    (start_level axis : Z) : M R (list (array * array)) :=
  let dt := _check_dtype data in
  let data := astype dt data in
  wavelet ← lift (_as_wavelet wavelet);
  let axis := normalize_axis (ndim data) axis in
  if negb ((0 <=? axis)%Z && (axis <? Z.of_nat (ndim data))%Z)
  then raise (ValueError "Axis greater than data dimensions")
  else
    let level := match level with
                 | Some l => l
                 | None => swt_max_level (nth (Z.to_nat axis) (shape data) 0)
                 end in
    if ndim data =? 1
    then call (_swt data wavelet level start_level)
    else call (_swt_axis data wavelet level start_level axis).

(** [cA_r + 1j*cA_i] *)
Definition join_complex (re im : array) : outcome array := np_add re (mulj im).

(** [swt(data, wavelet, level=None, start_level=0, axis=-1)].  The two
    recursive calls of the complex branch receive real arrays
    ([iscomplexobj_real], [iscomplexobj_imag]), so they run [swt_direct];
    as in the source they are made without [axis], that is with its
    default [-1]. *)
Definition swt (data : array) (wavelet : W) (level : option Z)
    (start_level axis : Z) : M R (list (array * array)) :=
  if negb _have_c99_complex && iscomplexobj data
  then
    coeffs_real ← swt_direct (real data) wavelet level start_level (-1);
    coeffs_imag ← swt_direct (imag data) wavelet level start_level (-1);
    lift (omapM (λ '((cA_r, cD_r), (cA_i, cD_i)),
                   cA ← join_complex cA_r cA_i;
                   cD ← join_complex cD_r cD_i;
                   Ok (cA, cD))
                (combine coeffs_real coeffs_imag))
  else swt_direct data wavelet level start_level axis.

(** *** [iswt] *)

(** One pass of the loop [for first in range(last_index)] (lines 133-158). *)
Definition iswt_first (wavelet : Wv) (cD : array) (step_size : nat)
    (output : array) (first : nat) : M R array :=
  n ← lift (len cD);
  let indices := arange first n step_size in
  let even_indices := evens indices in
  let odd_indices := odds indices in
  out_even ← lift (take output even_indices);
  cD_even ← lift (take cD even_indices);
  x1 ← call (idwt_single out_even cD_even wavelet periodization);
  out_odd ← lift (take output odd_indices);
  cD_odd ← lift (take cD odd_indices);
  x2 ← call (idwt_single out_odd cD_odd wavelet periodization);
  let x2 := roll_flat x2 in
  s ← lift (np_add x1 x2);
  lift (put output indices (np_div s 2)).

(** One pass of the loop [for j in range(num_levels, 0, -1)] (lines 127-158). *)
Definition iswt_level (wavelet : Wv) (coeffs : list (array * array))
    (num_levels : nat) (output : array) (j : nat) : M R array :=
  let step_size := 2 ^ (j - 1) in
  let last_index := step_size in
  c ← lift (index coeffs (num_levels - j));
  let cD := astype (_check_dtype c.2) c.2 in
  foldM (iswt_first wavelet cD step_size) output (seq 0 last_index).

(** The body of [iswt] after the complex guard (lines 123-160). *)
Definition iswt_direct (coeffs : list (array * array)) (wavelet : W) : M R array :=
  c0 ← lift (index coeffs 0);
  let output := c0.1 in
  let num_levels := length coeffs in
  wavelet ← lift (_as_wavelet wavelet);
  foldM (iswt_level wavelet coeffs num_levels) output (rev (seq 1 num_levels)).

Definition iswt (coeffs : list (array * array)) (wavelet : W) : M R array :=
  c0 ← lift (index coeffs 0);
  let output := c0.1 in
  if negb _have_c99_complex && iscomplexobj output
  then
    let coeffs_real := map (λ c, (real c.1, real c.2)) coeffs in
    let coeffs_imag := map (λ c, (imag c.1, imag c.2)) coeffs in
    re ← iswt_direct coeffs_real wavelet;
    im ← iswt_direct coeffs_imag wavelet;
    lift (join_complex re im)
  else iswt_direct coeffs wavelet.

(** *** [swtn] *)

(** The loop over [coeffs] for one axis (lines 408-414). *)
Definition swtn_axis (i : Z) (coeffs : list (string * array)) (aw : Z * Wv)
    : M R (list (string * array)) :=
  foldM (λ new_coeffs sx,
           r ← call (_swt_axis sx.2 aw.2 1 i aw.1);
           c ← lift (index r 0);
           mret (new_coeffs ++ [(String.append sx.1 "a", c.1);
                                (String.append sx.1 "d", c.2)]))
        [] coeffs.

(** One level: lines 406-416. *)
Definition swtn_level (axes : list Z) (wavelets : list Wv) (data : array) (i : Z)
    : M R dict :=
  coeffs ← foldM (swtn_axis i) [("", data)] (combine axes wavelets);
  mret (dict_of coeffs).

(** The loop [for i in range(start_level, start_level + level)]. *)
Fixpoint swtn_levels (axes : list Z) (wavelets : list Wv) (num_axes : nat)
    (levels : list Z) (data : array) (ret : list dict) : M R (list dict) :=
  match levels with
  | [] => mret ret
  | i :: levels' =>
      coeffs ← swtn_level axes wavelets data i;
      let ret := ret ++ [coeffs] in
      data ← lift (dict_get coeffs (str_mul "a" num_axes));
      swtn_levels axes wavelets num_axes levels' data ret
  end.

(** The body of [swtn] after the complex guard (lines 390-423). *)
Definition swtn_direct (data : array) (wavelet : W) (level start_level : Z)
    (axes : option (list Z)) : M R (list dict) :=
  if bool_decide (dtype_of data = object_)
  then raise (TypeError "Input must be a numeric array-like")
  else if ndim data <? 1
  then raise (ValueError "Input data must be at least 1D")
  else
    let axes := match axes with
                | None => py_range 0 (Z.of_nat (ndim data))
                | Some l => l
                end in
    let axes := map (normalize_axis (ndim data)) axes in
    if negb (length axes =? len_set axes)
    then raise (ValueError "The axes passed to swtn must be unique.")
    else
      let num_axes := length axes in
      wavelets ← lift (_wavelets_per_axis wavelet axes);
      ret ← swtn_levels axes wavelets num_axes
              (py_range start_level (start_level + level)) data [];
      mret (rev ret).

(** [dict((k, rdict[k] + 1j * idict[k]) for k in rdict.keys())] *)
Definition join_dicts (rdict idict : dict) : outcome dict :=
  pairs ← omapM (λ kv, iv ← dict_get idict kv.1;
                       v ← join_complex kv.2 iv;
                       Ok (kv.1, v))
                (map_to_list rdict);
  Ok (dict_of pairs).

Definition swtn (data : array) (wavelet : W) (level start_level : Z)
    (axes : option (list Z)) : M R (list dict) :=
  if negb _have_c99_complex && iscomplexobj data
  then
    re ← swtn_direct (real data) wavelet level start_level axes;
    im ← swtn_direct (imag data) wavelet level start_level axes;
    lift (omapM (λ ri, join_dicts ri.1 ri.2) (combine re im))
  else swtn_direct data wavelet level start_level axes.

(** *** [swt2] *)

Definition swt2 (data : array) (wavelet : W) (level start_level : Z)
    (axes : list Z) : M R (list (array * (array * array * array))) :=
  if negb (length axes =? 2)
  then raise (ValueError "Expected 2 axes")
  else if negb (length axes =? len_set axes)
  then raise (ValueError "The axes passed to swt2 must be unique.")
  else if ndim data <? len_set axes
  then raise (ValueError "Input array has fewer dimensions than the specified axes")
  else
    coefs ← swtn data wavelet level start_level (Some axes);
    lift (omapM (λ c : dict,
                   aa ← dict_get c "aa";
                   da ← dict_get c "da";
                   ad ← dict_get c "ad";
                   dd ← dict_get c "dd";
                   Ok (aa, (da, ad, dd)))
                coefs).
(** *** [iswtn] *)

(** The four lists of slice objects initialised at lines 481-484; they are
    mutated by the loops and survive from one pass to the next. *)
Record slices : Type := mk_slices {
  indices : list slice;
  even_indices : list slice;
  odd_indices : list slice;
  odd_even_slices : list slice;
}.

(** Body of [for first, sh, ax in zip(firsts, dshape, axes)] (lines 501-503). *)
Definition set_slices (step_size : nat) (st : slices) (fsa : nat * nat * Z)
    : outcome slices :=
  let '(first, sh, ax) := fsa in
  ind ← py_list_set (indices st) ax (SRange first sh step_size);
  ev ← py_list_set (even_indices st) ax (SRange first sh (2 * step_size));
  od ← py_list_set (odd_indices st) ax
         (SRange (first + step_size) sh (2 * step_size));
  Ok (mk_slices ind ev od (odd_even_slices st)).

(** Body of [for o, ax in zip(odds, axes)] (lines 510-514). *)
Definition choose_slices (st : slices) (oa : bool * Z) : outcome slices :=
  let '(o, ax) := oa in
  s ← (if o then py_list_get (odd_indices st) ax SAll
       else py_list_get (even_indices st) ax SAll);
  oes ← py_list_set (odd_even_slices st) ax s;
  Ok (mk_slices (indices st) (even_indices st) (odd_indices st) oes).

(** Body of [for odds in product(...)] (lines 510-530). *)
Definition iswtn_phase (axes : list Z) (wavelets : list Wv) (key_a : string)
    (details : dict) (approx : array) (acc : slices * array * nat)
    (odds : list bool) : M R (slices * array * nat) :=
  let '(st, output, ntransforms) := acc in
  st ← lift (ofoldM choose_slices st (combine odds axes));
  details_slice ← lift (dict_traverse
                          (λ value, getitem value (odd_even_slices st)) details);
  approx_slice ← lift (getitem approx (odd_even_slices st));
  let details_slice := <[key_a := approx_slice]> details_slice in
  x ← call (idwtn details_slice wavelets periodization axes);
  x ← lift (ofoldM (λ x (oa : bool * Z), if oa.1 then roll_axis x oa.2 else Ok x)
                   x (combine odds axes));
  output ← lift (iadd_item output (indices st) x);
  mret (st, output, S ntransforms).

(** Body of [for firsts in product(...)] (lines 500-531). *)
Definition iswtn_offsets (axes : list Z) (wavelets : list Wv) (key_a : string)
    (ndim_transform : nat) (details : dict) (dshape : list nat) (step_size : nat)
    (acc : slices * array) (firsts : list nat) : M R (slices * array) :=
  let '(st, output) := acc in
  st ← lift (ofoldM (set_slices step_size) st
               (combine (combine firsts dshape) axes));
  let approx := output in
  output ← lift (setitem_zero output (indices st));
  r ← foldM (iswtn_phase axes wavelets key_a details approx) (st, output, 0)
        (product [false; true] ndim_transform);
  let '(st, output, ntransforms) := r in
  output ← lift (idiv_item output (indices st) ntransforms);
  mret (st, output).

(** Body of [for j in range(num_levels)] (lines 487-532). *)
Definition iswtn_level (coeffs : list nat) (axes : list Z) (wavelets : list Wv)
    (ndim_transform num_levels : nat) (acc : slices * array) (j : nat)
    : M R (slices * array) :=
  let step_size := 2 ^ (num_levels - j - 1) in
  let last_index := step_size in
  let key_a := str_mul "a" ndim_transform in
  loc ← lift (index coeffs j);
  a ← dict_pop loc key_a;
  details ← dict_read loc;
  let shapes := map (λ kv : string * array, shape kv.2) (map_to_list details) in
  dshape ← lift (index shapes 0);
  if negb (length (remove_dups shapes) =? 1)
  then raise (RuntimeError "Mismatch in shape of intermediate coefficient arrays")
  else
    acc ← foldM (iswtn_offsets axes wavelets key_a ndim_transform details dshape
                   step_size)
            acc (product (seq 0 last_index) ndim_transform);
    _ ← dict_setitem loc key_a a;
    mret acc.

(** [iswtn(coeffs, wavelet, axes=None)]; [coeffs] lists the locations of the
    caller's dictionaries. *)
Definition iswtn (coeffs : list nat) (wavelet : W) (axes : option (list Z))
    : M R array :=
  loc0 ← lift (index coeffs 0);
  d0 ← dict_read loc0;
  ndim_transform ← lift (max_key_len d0);
  output ← lift (dict_get d0 (str_mul "a" ndim_transform));
  let nd := ndim output in
  let axes := match axes with
              | None => py_range 0 (Z.of_nat nd)
              | Some l => l
              end in
  let axes := map (normalize_axis nd) axes in
  if negb (length axes =? len_set axes)
  then raise (ValueError "The axes passed to swtn must be unique.")
  else if negb (ndim_transform =? length axes)
  then raise (ValueError "The number of axes used in iswtn must match the number of dimensions transformed in swtn.")
  else
    let num_levels := length coeffs in
    wavelets ← lift (_wavelets_per_axis wavelet axes);
    let all := replicate nd SAll in
    r ← foldM (iswtn_level coeffs axes wavelets ndim_transform num_levels)
          (mk_slices all all all all, output) (seq 0 num_levels);
    mret r.2.

(** *** [iswt2] *)

(** [a.shape[i]] *)
Definition shape_at (a : array) (i : nat) : outcome nat :=
  match shape a !! i with
  | Some n => Ok n
  | None => Raise (IndexError "tuple index out of range")
  end.

(** One [idwt2] call of lines 304-323 at the slices [sh], [sw]. *)
Definition iswt2_idwt2 (wavelets : list Wv) (output cH cV cD : array)
    (sh sw : slice) : M R array :=
  o ← lift (getitem output [sh; sw]);
  h ← lift (getitem cH [sh; sw]);
  v ← lift (getitem cV [sh; sw]);
  d ← lift (getitem cD [sh; sw]);
  call (idwt2 (o, (h, v, d)) wavelets periodization).

(** Body of the two loops over [first_h], [first_w] (lines 293-330). *)
Definition iswt2_offsets (wavelets : list Wv) (cH cV cD : array) (step_size : nat)
    (output : array) (first : nat * nat) : M R array :=
  let '(first_h, first_w) := first in
  h0 ← lift (shape_at cH 0);
  let indices_h := SRange first_h h0 step_size in
  h1 ← lift (shape_at cH 1);
  let indices_w := SRange first_w h1 step_size in
  let even_idx_h := SRange first_h h0 (2 * step_size) in
  let even_idx_w := SRange first_w h1 (2 * step_size) in
  let odd_idx_h := SRange (first_h + step_size) h0 (2 * step_size) in
  let odd_idx_w := SRange (first_w + step_size) h1 (2 * step_size) in
  x1 ← iswt2_idwt2 wavelets output cH cV cD even_idx_h even_idx_w;
  x2 ← iswt2_idwt2 wavelets output cH cV cD even_idx_h odd_idx_w;
  x3 ← iswt2_idwt2 wavelets output cH cV cD odd_idx_h even_idx_w;
  x4 ← iswt2_idwt2 wavelets output cH cV cD odd_idx_h odd_idx_w;
  x2 ← lift (roll_axis x2 1);
  x3 ← lift (roll_axis x3 0);
  x4 ← lift (roll_axis x4 0);
  x4 ← lift (roll_axis x4 1);
  s ← lift (np_add x1 x2);
  s ← lift (np_add s x3);
  s ← lift (np_add s x4);
  lift (setitem output [indices_h; indices_w] (np_div s 4)).

(** Body of [for j in range(num_levels)] (lines 284-330). *)
Definition iswt2_level (wavelets : list Wv)
    (coeffs : list (array * (array * array * array))) (num_levels : nat)
    (output : array) (j : nat) : M R array :=
  let step_size := 2 ^ (num_levels - j - 1) in
  let last_index := step_size in
  c ← lift (index coeffs j);
  let '(cH, cV, cD) := c.2 in
  if negb (bool_decide (shape cH = shape cV)) || negb (bool_decide (shape cH = shape cD))
  then raise (RuntimeError "Mismatch in shape of intermediate coefficient arrays")
  else
    foldM (iswt2_offsets wavelets cH cV cD step_size) output
      (flat_map (λ first_h, map (pair first_h) (seq 0 last_index))
                (seq 0 last_index)).

Definition iswt2 (coeffs : list (array * (array * array * array))) (wavelet : W)
    : M R array :=
  c0 ← lift (index coeffs 0);
  let output := c0.1 in
  if negb (ndim output =? 2)
  then raise (ValueError "iswt2 only supports 2D arrays.  see iswtn for a general n-dimensionsal ISWT")
  else
    let num_levels := length coeffs in
    wavelets ← lift (_wavelets_per_axis wavelet [0%Z; 1%Z]);
    foldM (iswt2_level wavelets coeffs num_levels) output (seq 0 num_levels).

End Transforms.

(** ** A reference instance of the collaborators

    Modelled from the spec: the one-axis forward wavelet step
    ([(data, wavelet, level, start_level, axis) -> (approx, detail)], both
    shaped like the input, periodic and dilated by [2^start_level]), its
    inverse under periodization, and the per-axis wavelet normalisation
    (a single identifier broadcast to all axes).  These live in compiled
    extensions and in [_multidim.py] / [_utils.py], outside this module.
    The filter pair is Haar's without the [1/sqrt 2] normalisation
    (sum and difference forward, half-sum and half-difference backward), so
    that all values stay Gaussian integers and can be computed exactly. *)

Module Haar.

Definition C : Type := Z * Z.

#[global] Instance C_scalar : Scalar C := {|
  r0 := (0, 0)%Z;
  radd x y := (x.1 + y.1, x.2 + y.2)%Z;
  rdiv x n := (x.1 / Z.of_nat n, x.2 / Z.of_nat n)%Z;
  rreal x := (x.1, 0%Z);
  rimag x := (x.2, 0%Z);
  rmulj x := (- x.2, x.1)%Z;
|}.

Definition rsub (x y : C) : C := (x.1 - y.1, x.2 - y.2)%Z.
Definition rneg (x : C) : C := (- x.1, - x.2)%Z.

(** Modelled from the spec: wavelet-identifier resolution ([_as_wavelet] of
    [_utils.py]); two names of the one filter pair are known. *)
Definition as_wavelet (name : string) : outcome string :=
  if bool_decide (name = "haar") || bool_decide (name = "db1")
  then Ok "haar"
  else Raise (ValueError "Unknown wavelet name").

(** Modelled from the spec: the wavelet-per-axis normalisation
    ([_wavelets_per_axis] of [_utils.py]): a single identifier is broadcast
    to all axes. *)
Definition wavelets_per_axis (name : string) (axes : list Z) : outcome (list string) :=
  w ← as_wavelet name;
  Ok (replicate (length axes) w).

(** Modelled from the spec: [_check_dtype] of the compiled extension: complex
    stays complex, everything else is computed in double precision. *)
Definition check_dtype (a : ndarray C) : dtype :=
  match dtype_of a with
  | complex128 => complex128
  | _ => float64
  end.

(** Largest [k <= fuel] with [2^k] dividing [n]. *)
Fixpoint max_level (fuel n : nat) : nat :=
  match fuel with
  | 0 => 0
  | S f => if (0 <? n) && (n mod 2 =? 0) then S (max_level f (n / 2)) else 0
  end.

(** One dilated analysis step along axis position [p] with spacing [step]. *)
Definition analysis (x : ndarray C) (p step : nat) : ndarray C * ndarray C :=
  let n := nth p (shape x) 0 in
  let partner idx := <[p := (nth p idx 0 + step) mod n]> idx in
  (tabulate (dtype_of x) (shape x) (λ idx, radd (get x idx) (get x (partner idx))),
   tabulate (dtype_of x) (shape x) (λ idx, rsub (get x idx) (get x (partner idx)))).

(** Levels [i, i+1, ...] in increasing order. *)
Fixpoint analysis_levels (x : ndarray C) (p : nat) (i count : nat)
    : list (ndarray C * ndarray C) :=
  match count with
  | 0 => []
  | S c => let ad := analysis x p (2 ^ i) in
           ad :: analysis_levels ad.1 p (S i) c
  end.

(** Modelled from the spec: the one-axis forward step [_swt_axis] of the
    compiled extension, coarsest level first. *)
Definition swt_axis (x : ndarray C) (w : string) (level start_level axis : Z)
    : outcome (list (ndarray C * ndarray C)) :=
  match py_index (shape x) axis with
  | Raise _ => Raise (ValueError "Axis greater than data dimensions")
  | Ok p =>
      if (level <? 1)%Z || (start_level <? 0)%Z
      then Raise (ValueError "Level value must be greater than zero.")
      else if negb (nth p (shape x) 0 mod 2 ^ Z.to_nat (start_level + level) =? 0)
      then Raise (ValueError "Level value too high")
      else Ok (rev (analysis_levels x p (Z.to_nat start_level) (Z.to_nat level)))
  end.

(** Modelled from the spec: the one-dimensional forward step [_swt]. *)
Definition swt1 (x : ndarray C) (w : string) (level start_level : Z)
    : outcome (list (ndarray C * ndarray C)) :=
  if ndim x =? 1 then swt_axis x w level start_level 0
  else Raise (ValueError "Expected 1D input data.").

(** The sign a sub-band contributes at a position whose parities along the
    transformed axes are [odd]. *)
Fixpoint negative (key : string) (odd : list bool) : bool :=
  match key, odd with
  | String c key', o :: odd' =>
      xorb (bool_decide (c = "d"%char) && o) (negative key' odd')
  | _, _ => false
  end.

Definition halve_at (ps : list nat) (idx : list nat) : list nat :=
  imap (λ q i, if bool_decide (q ∈ ps) then i / 2 else i) idx.

Definition synthesis (coeffs : gmap string (ndarray C)) (ps : list nat)
    (a : ndarray C) : ndarray C :=
  let k := length ps in
  let sh := imap (λ q n, if bool_decide (q ∈ ps) then 2 * n else n) (shape a) in
  tabulate (dtype_of a) sh
    (λ idx,
       let odd := map (λ p, nth p idx 0 mod 2 =? 1) ps in
       let total :=
         fold_left
           (λ acc key,
              let v := match coeffs !! key with
                       | Some c => get c (halve_at ps idx)
                       | None => r0
                       end in
              radd acc (if negative key odd then rneg v else v))
           (subband_keys k) r0 in
       rdiv total (2 ^ k)).

(** Modelled from the spec: the inverse step over several axes ([idwtn] of
    [_multidim.py]) under periodization. *)
Definition idwtn_haar (coeffs : gmap string (ndarray C)) (ws : list string) (m : mode)
    (axes : list Z) : outcome (ndarray C) :=
  let k := length axes in
  a ← dict_get coeffs (str_mul "a" k);
  ps ← omapM (py_index (shape a)) axes;
  if negb (forallb (λ key, match coeffs !! key with
                           | Some c => bool_decide (shape c = shape a)
                           | None => false
                           end) (subband_keys k))
  then Raise (ValueError "coefficient shape mismatch")
  else if negb (forallb (λ p, 0 <? nth p (shape a) 0) ps)
  then Raise (ValueError "Invalid input length")
  else Ok (synthesis coeffs ps a).

(** Modelled from the spec: the one-dimensional inverse step [idwt_single]. *)
Definition idwt1 (cA cD : ndarray C) (w : string) (m : mode) : outcome (ndarray C) :=
  if negb (ndim cA =? 1) then Raise (ValueError "Expected 1D input data.")
  else idwtn_haar (<["a" := cA]> (<["d" := cD]> ∅)) [w] m [0%Z].

(** Modelled from the spec: the two-dimensional inverse step [idwt2]. *)
Definition idwt2d (c : ndarray C * (ndarray C * ndarray C * ndarray C))
    (ws : list string) (m : mode) : outcome (ndarray C) :=
  let '(cA, (cH, cV, cD)) := c in
  idwtn_haar (<["aa" := cA]> (<["da" := cH]> (<["ad" := cV]> (<["dd" := cD]> ∅))))
        ws m [(-2)%Z; (-1)%Z].

Definition prims (c99 : bool) : Primitives C string string := {|
  _have_c99_complex := c99;
  _check_dtype := check_dtype;
  _as_wavelet := as_wavelet;
  _wavelets_per_axis := wavelets_per_axis;
  swt_max_level n := Z.of_nat (max_level n n);
  _swt := swt1;
  _swt_axis := swt_axis;
  idwt_single := idwt1;
  idwt2 := idwt2d;
  idwtn := idwtn_haar;
|}.

(** Arrays of real numbers from integer literals. *)
Definition vec (l : list Z) : ndarray C :=
  mk_array float64 [length l] (map (λ z, (z, 0%Z)) l).

Definition mat (rows cols : nat) (l : list Z) : ndarray C :=
  mk_array float64 [rows; cols] (map (λ z, (z, 0%Z)) l).

Definition cvec (l : list (Z * Z)) : ndarray C :=
  mk_array complex128 [length l] l.

Definition cmat (rows cols : nat) (l : list (Z * Z)) : ndarray C :=
  mk_array complex128 [rows; cols] l.

(** A world whose dictionaries are [ds], at locations [0, 1, ...]. *)
Definition world_of (ds : list (gmap string (ndarray C))) : world C :=
  mk_world (λ l, nth l ds ∅) 0.

(** [iswtn(swtn(x, wavelet, level, axes=axes), wavelet, axes=axes)] *)
Definition roundtrip (c99 : bool) (x : ndarray C) (level : Z)
    (axes : option (list Z)) : outcome (ndarray C) :=
  match swtn (PR := prims c99) x "haar" level 0 axes (world_of []) with
  | (Ok ds, _) =>
      (iswtn (PR := prims c99) (seq 0 (length ds)) "haar" axes (world_of ds)).1
  | (Raise e, _) => Raise e
  end.

(** *** Concrete inputs *)

(** The docstring fixtures: the vector of [iswt] and the matrix of
    [iswt2] / [iswtn]. *)
Definition x8 : ndarray C := vec [1; 2; 3; 4; 5; 6; 7; 8]%Z.

Definition m44 : ndarray C :=
  mat 4 4 [1; 2; 3; 4; 5; 6; 7; 8; 9; 10; 11; 12; 13; 14; 15; 16]%Z.

(** [swt(x8, 'db1', level=2)] in this instance, and the same list with the
    approximation of the finer level replaced. *)
Definition x8_coeffs : list (ndarray C * ndarray C) :=
  [(vec [10; 14; 18; 22; 26; 22; 18; 14]%Z, vec [-4; -4; -4; -4; -4; 4; 12; 4]%Z);
   (vec [3; 5; 7; 9; 11; 13; 15; 9]%Z, vec [-1; -1; -1; -1; -1; -1; -1; 7]%Z)].

Definition x8_coeffs' : list (ndarray C * ndarray C) :=
  [(vec [10; 14; 18; 22; 26; 22; 18; 14]%Z, vec [-4; -4; -4; -4; -4; 4; 12; 4]%Z);
   (vec [0; 0; 99]%Z, vec [-1; -1; -1; -1; -1; -1; -1; 7]%Z)].

(** [swtn(m44, 'haar', level=2)] in this instance: the coarser level first. *)
Definition m44_level2 : gmap string (ndarray C) :=
  {[ "aa" := mat 4 4 [136; 136; 136; 136; 136; 136; 136; 136;
                      136; 136; 136; 136; 136; 136; 136; 136]%Z;
     "ad" := mat 4 4 [-16; 0; 16; 0; -16; 0; 16; 0; -16; 0; 16; 0; -16; 0; 16; 0]%Z;
     "da" := mat 4 4 [-64; -64; -64; -64; 0; 0; 0; 0; 64; 64; 64; 64; 0; 0; 0; 0]%Z;
     "dd" := mat 4 4 [0; 0; 0; 0; 0; 0; 0; 0; 0; 0; 0; 0; 0; 0; 0; 0]%Z ]}.

Definition m44_level1 : gmap string (ndarray C) :=
  {[ "aa" := mat 4 4 [14; 18; 22; 18; 30; 34; 38; 34; 46; 50; 54; 50; 30; 34; 38; 34]%Z;
     "ad" := mat 4 4 [-2; -2; -2; 6; -2; -2; -2; 6; -2; -2; -2; 6; -2; -2; -2; 6]%Z;
     "da" := mat 4 4 [-8; -8; -8; -8; -8; -8; -8; -8; -8; -8; -8; -8; 24; 24; 24; 24]%Z;
     "dd" := mat 4 4 [0; 0; 0; 0; 0; 0; 0; 0; 0; 0; 0; 0; 0; 0; 0; 0]%Z ]}.

Definition m44_coeffs : list (gmap string (ndarray C)) := [m44_level2; m44_level1].

(** Coefficient lists a caller can build that [swtn] does not produce: one
    sub-band replaced by a 2x2 array. *)
Definition small : ndarray C := mat 2 2 [0; 0; 0; 0]%Z.

Definition bad_detail_level1 : list (gmap string (ndarray C)) :=
  [m44_level2; <["dd" := small]> m44_level1].

Definition bad_approx_level1 : list (gmap string (ndarray C)) :=
  [m44_level2; <["aa" := small]> m44_level1].

Definition bad_detail_level0 : list (gmap string (ndarray C)) :=
  [<["da" := small]> m44_level2].

(** A 2x4 array, transformed along its second axis only. *)
Definition m24 : ndarray C := mat 2 4 [0; 0; 0; 1; 0; 0; 0; 0]%Z.

(** A complex 2x2 array and a complex vector. *)
Definition cx22 : ndarray C := cmat 2 2 [(1, 1); (2, 0); (3, 0); (5, 0)]%Z.

Definition cx2 : ndarray C := cvec [(1, 1); (2, 0)]%Z.

End Haar.

(** ** Notions used in the statements *)

(** A Sub-band Key over [k] axes: [k] letters, each [a] or [d]. *)
Definition is_subband_key (k : nat) (s : string) : Prop :=
  String.length s = k ∧
  Forall (λ c, c = "a"%char ∨ c = "d"%char) (list_ascii_of_string s).

(** All arrays of a dictionary have one shape. *)
Definition same_shapes {R} (d : gmap string (ndarray R)) : Prop :=
  ∀ k1 k2 v1 v2, d !! k1 = Some v1 → d !! k2 = Some v2 → shape v1 = shape v2.

(** Two arrays of a dictionary differ in shape. *)
Definition shape_mismatch {R} (d : gmap string (ndarray R)) : Prop :=
  ∃ k1 k2 v1 v2, d !! k1 = Some v1 ∧ d !! k2 = Some v2 ∧ shape v1 ≠ shape v2.

(** What a Level Coefficient Set over [k] axes is for an input of shape [sh]. *)
Definition level_set_ok {R} (k : nat) (sh : list nat)
    (d : gmap string (ndarray R)) : Prop :=
  (∀ key, is_Some (d !! key) ↔ is_subband_key k key) ∧
  size d = 2 ^ k ∧
  (∀ key v, d !! key = Some v → shape v = sh).

(** The world after [coeffs[loc].pop(key)]. *)
Definition popped {R} (loc : nat) (key : string) (w : world R) : world R :=
  mk_world (λ l, if Nat.eqb l loc then delete key (dicts w loc) else dicts w l)
           (work w).

(** A computation that leaves the dictionaries alone, whatever its outcome. *)
Definition keeps_dicts {R A} (m : M R A) : Prop :=
  ∀ w, dicts (m w).2 = dicts w.

(** The cells of a 2x4 array outside its region [[:, 0:2]]. *)
Definition right_half (idx : list nat) : Prop :=
  idx = [0; 2] ∨ idx = [0; 3] ∨ idx = [1; 2] ∨ idx = [1; 3].

(** [a] is a 2x4 array that agrees with [a0] on the right half. *)
Definition frame {R} {SR : Scalar R} (a0 a : ndarray R) : Prop :=
  shape a = [2; 4] ∧ ∀ idx, right_half idx → get a idx = get a0 idx.

(** The slice lists [[:, :]] and [[:, 0:2]]. *)
Definition all2 : list slice := [SAll; SAll].

Definition left_half : list slice := [SAll; SRange 0 2 1].

(** A computation whose outcome does not depend on the world it runs in. *)
Definition world_blind {R A} (m : M R A) : Prop :=
  ∀ w1 w2, (m w1).1 = (m w2).1.

(** The errors [swtn] raises from its own checks (lines 390-399). *)
Definition swtn_validation_error (e : exn) : Prop :=
  e = TypeError "Input must be a numeric array-like" ∨
  e = ValueError "Input data must be at least 1D" ∨
  e = ValueError "The axes passed to swtn must be unique.".

Section Notions.
Context {R W Wv : Type} {SR : Scalar R} {PR : Primitives R W Wv}.

(** The combination the Complex Splitter contract describes for [swt]:
    transform the real and the imaginary part with the same parameters,
    [axis] included, and join the results pair by pair. *)
Definition swt_by_parts (data : ndarray R) (wavelet : W) (level : option Z)
    (start_level axis : Z) : M R (list (ndarray R * ndarray R)) :=
  coeffs_real ← swt (real data) wavelet level start_level axis;
  coeffs_imag ← swt (imag data) wavelet level start_level axis;
  lift (omapM (λ '((cA_r, cD_r), (cA_i, cD_i)),
                 cA ← join_complex cA_r cA_i;
                 cD ← join_complex cD_r cD_i;
                 Ok (cA, cD))
              (combine coeffs_real coeffs_imag)).

(** [level_at axes ws data i m c]: [c] is the Level Coefficient Set of level
    index [i + m], computed by the level body on the approximation obtained
    from [data] after [m] levels starting at level index [i]. *)
Inductive level_at (axes : list Z) (ws : list Wv)
    : ndarray R → Z → nat → gmap string (ndarray R) → Prop :=
| level_here data i c w w' :
    swtn_level axes ws data i w = (Ok c, w') →
    level_at axes ws data i 0 c
| level_next data i c0 a m c w w' :
    swtn_level axes ws data i w = (Ok c0, w') →
    c0 !! str_mul "a" (length axes) = Some a →
    level_at axes ws a (i + 1)%Z m c →
    level_at axes ws data i (S m) c.

(** The contract of the one-axis forward step (spec, section 6): approximation
    and detail are shaped like the input. *)
Definition swt_axis_keeps_shape : Prop :=
  ∀ (x : ndarray R) (wv : Wv) (i ax : Z) l,
    _swt_axis x wv 1 i ax = Ok l →
    Forall (λ c, shape c.1 = shape x ∧ shape c.2 = shape x) l.

(** The contract of the per-axis wavelet normalisation: one wavelet per axis. *)
Definition wavelets_per_axis_length : Prop :=
  ∀ (wavelet : W) (axes : list Z) ws,
    _wavelets_per_axis wavelet axes = Ok ws → length ws = length axes.

End Notions.

(** ** Notions used for the inverse transforms and for counting *)

(** [b] has the shape and the element type of [a]. *)
Definition like {R} (a b : ndarray R) : Prop :=
  shape b = shape a ∧ dtype_of b = dtype_of a.

(** At the location [loc], two worlds hold dictionaries that agree on
    every entry but the one under [key], which both or neither have. *)
Definition same_but {R} (key : string) (loc : nat) (w1 w2 : world R) : Prop :=
  (is_Some (dicts w1 loc !! key) ↔ is_Some (dicts w2 loc !! key)) ∧
  delete key (dicts w1 loc) = delete key (dicts w2 loc).

(** [swt2(m44, 'haar', level=2)] in the reference instance, and the same
    list with the approximation of the finer level replaced. *)
Definition m44_tuples
    : list (ndarray Haar.C * (ndarray Haar.C * ndarray Haar.C * ndarray Haar.C)) :=
  [(Haar.mat 4 4 [136; 136; 136; 136; 136; 136; 136; 136;
                  136; 136; 136; 136; 136; 136; 136; 136]%Z,
    (Haar.mat 4 4 [-64; -64; -64; -64; 0; 0; 0; 0; 64; 64; 64; 64; 0; 0; 0; 0]%Z,
     Haar.mat 4 4 [-16; 0; 16; 0; -16; 0; 16; 0; -16; 0; 16; 0; -16; 0; 16; 0]%Z,
     Haar.mat 4 4 [0; 0; 0; 0; 0; 0; 0; 0; 0; 0; 0; 0; 0; 0; 0; 0]%Z));
   (Haar.mat 4 4 [14; 18; 22; 18; 30; 34; 38; 34; 46; 50; 54; 50; 30; 34; 38; 34]%Z,
    (Haar.mat 4 4 [-8; -8; -8; -8; -8; -8; -8; -8; -8; -8; -8; -8; 24; 24; 24; 24]%Z,
     Haar.mat 4 4 [-2; -2; -2; 6; -2; -2; -2; 6; -2; -2; -2; 6; -2; -2; -2; 6]%Z,
     Haar.mat 4 4 [0; 0; 0; 0; 0; 0; 0; 0; 0; 0; 0; 0; 0; 0; 0; 0]%Z))].

Definition m44_tuples'
    : list (ndarray Haar.C * (ndarray Haar.C * ndarray Haar.C * ndarray Haar.C)) :=
  [(Haar.mat 4 4 [136; 136; 136; 136; 136; 136; 136; 136;
                  136; 136; 136; 136; 136; 136; 136; 136]%Z,
    (Haar.mat 4 4 [-64; -64; -64; -64; 0; 0; 0; 0; 64; 64; 64; 64; 0; 0; 0; 0]%Z,
     Haar.mat 4 4 [-16; 0; 16; 0; -16; 0; 16; 0; -16; 0; 16; 0; -16; 0; 16; 0]%Z,
     Haar.mat 4 4 [0; 0; 0; 0; 0; 0; 0; 0; 0; 0; 0; 0; 0; 0; 0; 0]%Z));
   (Haar.small,
    (Haar.mat 4 4 [-8; -8; -8; -8; -8; -8; -8; -8; -8; -8; -8; -8; 24; 24; 24; 24]%Z,
     Haar.mat 4 4 [-2; -2; -2; 6; -2; -2; -2; 6; -2; -2; -2; 6; -2; -2; -2; 6]%Z,
     Haar.mat 4 4 [0; 0; 0; 0; 0; 0; 0; 0; 0; 0; 0; 0; 0; 0; 0; 0]%Z))].

(** * Properties *)

(** ** Reasoning about outcomes and the effect monad *)

Lemma obind_ok {A B} (m : outcome A) (k : A → outcome B) b :
  obind m k = Ok b → ∃ a, m = Ok a ∧ k a = Ok b.
Proof. destruct m as [a|e]; simpl; [eauto | discriminate]. Qed.

Lemma bind_ok {R A B} (m : M R A) (k : A → M R B) w b w' :
  (x ← m; k x) w = (Ok b, w') → ∃ a w1, m w = (Ok a, w1) ∧ k a w1 = (Ok b, w').
Proof.
  unfold mbind, M_bind. destruct (m w) as [[a|e] w1]; [eauto | discriminate].
Qed.

Lemma lift_ok {R A} (o : outcome A) (w : world R) a w' :
  lift o w = (Ok a, w') → o = Ok a ∧ w' = w.
Proof. unfold lift. intros [= -> ->]. done. Qed.

Lemma call_ok {R A} (o : outcome A) (w : world R) a w' :
  call o w = (Ok a, w') → o = Ok a ∧ w' = mk_world (dicts w) (S (work w)).
Proof. unfold call. intros [= -> <-]. done. Qed.

Lemma mret_ok {R A} (a b : A) (w w' : world R) :
  (mret a : M R A) w = (Ok b, w') → a = b ∧ w' = w.
Proof. unfold mret, M_ret. intros [= -> ->]. done. Qed.

Lemma foldM_ext {R A S} (f g : S → A → M R S) l :
  (∀ s x w, f s x w = g s x w) → ∀ s w, foldM f s l w = foldM g s l w.
Proof.
  intros Hfg. induction l as [|x l IH]; intros s w; simpl; [done|].
  unfold mbind, M_bind. rewrite Hfg. destruct (g s x w) as [[s'|e] w1]; [apply IH | done].
Qed.

(** An invariant of the accumulator and the world carried through a
    successful loop. *)
Lemma foldM_invariant {R A S} (I : S → world R → Prop) (f : S → A → M R S) l :
  (∀ s x w s' w', x ∈ l → I s w → f s x w = (Ok s', w') → I s' w') →
  ∀ s w s' w', I s w → foldM f s l w = (Ok s', w') → I s' w'.
Proof.
  induction l as [|x l IH]; intros Hstep s w s' w' HI Hrun; simpl in Hrun.
  - apply mret_ok in Hrun as [<- ->]. done.
  - apply bind_ok in Hrun as (s1 & w1 & Hf & Hrest).
    eapply IH; [| |exact Hrest].
    + intros ? ? ? ? ? Hin. apply Hstep. by right.
    + eapply Hstep; [by left | exact HI | exact Hf].
Qed.

Lemma py_range_length a b : length (py_range a b) = Z.to_nat (b - a).
Proof. unfold py_range. by rewrite length_map, length_seq. Qed.

Section Inverse1D.
Context {R W Wv : Type} {SR : Scalar R} {PR : Primitives R W Wv}.

(** *** [iswt] reads the coarsest approximation and the details only *)

Lemma iswt_level_details (wavelet : Wv) (c1 c2 : list (ndarray R * ndarray R))
    n output j (w : world R) :
  map snd c1 = map snd c2 →
  iswt_level wavelet c1 n output j w = iswt_level wavelet c2 n output j w.
Proof.
  intros Hd. unfold iswt_level, index, mbind, M_bind, lift.
  assert (Hl : snd <$> c1 !! (n - j) = snd <$> c2 !! (n - j)).
  { rewrite <- !list_lookup_fmap. change (snd <$> c1) with (map snd c1).
    change (snd <$> c2) with (map snd c2). by rewrite Hd. }
  destruct (c1 !! (n - j)) as [[a1 d1]|], (c2 !! (n - j)) as [[a2 d2]|];
    simpl in Hl; try discriminate; [|done].
  injection Hl as ->. done.
Qed.

Lemma iswt_direct_details (c1 c2 : list (ndarray R * ndarray R)) wavelet (w : world R) :
  fst <$> c1 !! 0 = fst <$> c2 !! 0 →
  map snd c1 = map snd c2 →
  iswt_direct c1 wavelet w = iswt_direct c2 wavelet w.
Proof.
  intros Ha Hd. unfold iswt_direct, index, mbind, M_bind, lift.
  assert (Hlen : length c1 = length c2).
  { rewrite <- (length_map snd c1), Hd. apply length_map. }
  destruct (c1 !! 0) as [[a1 d1]|], (c2 !! 0) as [[a2 d2]|];
    simpl in Ha; try discriminate; [|done].
  injection Ha as ->. simpl.
  destruct (_as_wavelet wavelet) as [wv|e]; [|done].
  rewrite Hlen. apply foldM_ext. intros. by apply iswt_level_details.
Qed.

(** C10: [iswt] depends on its coefficient list only through the coarsest
    approximation [coeffs[0][0]] and the detail arrays: two lists of equal
    length that agree on those give the same result, whatever the other
    approximation arrays are. *)
Theorem iswt_ignores_finer_approximations
    (c1 c2 : list (ndarray R * ndarray R)) (wavelet : W) (w : world R) :
  length c1 = length c2 →
  fst <$> c1 !! 0 = fst <$> c2 !! 0 →
  map snd c1 = map snd c2 →
  iswt c1 wavelet w = iswt c2 wavelet w.
Proof.
  intros _ Ha Hd. unfold iswt, index, mbind, M_bind, lift.
  pose proof Ha as Ha'.
  destruct (c1 !! 0) as [[a1 d1]|] eqn:E1, (c2 !! 0) as [[a2 d2]|] eqn:E2;
    simpl in Ha'; try discriminate; [|done].
  injection Ha' as ->. simpl.
  destruct (negb _have_c99_complex && iscomplexobj a2).
  - rewrite (iswt_direct_details
               (map (λ c, (real c.1, real c.2)) c1)
               (map (λ c, (real c.1, real c.2)) c2)).
    2:{ rewrite !list_lookup_fmap, E1, E2. done. }
    2:{ rewrite !map_map. simpl. rewrite <- !(map_map snd real). by rewrite Hd. }
    destruct (iswt_direct (map (λ c, (real c.1, real c.2)) c2) wavelet w)
      as [[re|e] w1]; [|done].
    rewrite (iswt_direct_details
               (map (λ c, (imag c.1, imag c.2)) c1)
               (map (λ c, (imag c.1, imag c.2)) c2)).
    2:{ rewrite !list_lookup_fmap, E1, E2. done. }
    2:{ rewrite !map_map. simpl. rewrite <- !(map_map snd imag). by rewrite Hd. }
    done.
  - apply iswt_direct_details; [by rewrite E1, E2 | done].
Qed.

(** In the complex branch the result of [swt] does not depend on [axis]. *)
Lemma swt_complex_ignores_axis (data : ndarray R) wavelet level start_level axis
    (w : world R) :
  negb _have_c99_complex && iscomplexobj data = true →
  swt data wavelet level start_level axis w
  = swt data wavelet level start_level (-1) w.
Proof. intros Hc. unfold swt. by rewrite Hc. Qed.

End Inverse1D.

(** ** Axis validation *)

Lemma len_set_le (l : list Z) : len_set l ≤ length l.
Proof.
  unfold len_set. induction l as [|x l IH]; simpl.
  - change (size (∅ : gset Z) ≤ 0). rewrite size_empty. lia.
  - change (size ({[x]} ∪ list_to_set l : gset Z) ≤ S (length l)).
    destruct (decide (x ∈ (list_to_set l : gset Z))) as [Hin|Hin].
    + rewrite (subseteq_union_1_L {[x]} (list_to_set l))
        by (by apply singleton_subseteq_l).
      lia.
    + rewrite size_union by set_solver. rewrite size_singleton. lia.
Qed.

Lemma len_set_NoDup (l : list Z) : length l = len_set l ↔ NoDup l.
Proof.
  split.
  - induction l as [|x l IH]; intros Hl.
    + constructor.
    + unfold len_set in *. simpl in Hl.
      destruct (decide (x ∈ (list_to_set l : gset Z))) as [Hin|Hin].
      * rewrite (subseteq_union_1_L {[x]} (list_to_set l)) in Hl
          by (by apply singleton_subseteq_l).
        pose proof (len_set_le l). unfold len_set in *. lia.
      * rewrite size_union in Hl by set_solver. rewrite size_singleton in Hl.
        constructor; [set_solver | apply IH; lia].
  - intros Hnd. unfold len_set. symmetry. by apply size_list_to_set.
Qed.

Lemma unique_check_dup (l : list Z) : ¬ NoDup l → negb (length l =? len_set l) = true.
Proof.
  intros Hd. destruct (length l =? len_set l) eqn:E; [|done].
  apply Nat.eqb_eq, len_set_NoDup in E. done.
Qed.

Section Validation.
Context {R W Wv : Type} {SR : Scalar R} {PR : Primitives R W Wv}.

Lemma iscomplexobj_real (a : ndarray R) : iscomplexobj (real a) = false.
Proof.
  unfold real. destruct (iscomplexobj a) eqn:E; [done | exact E].
Qed.

Lemma iscomplexobj_imag (a : ndarray R) : iscomplexobj (imag a) = false.
Proof.
  unfold imag, iscomplexobj. simpl. destruct (dtype_of a); done.
Qed.

Lemma swtn_direct_dup data wavelet level start_level axes (w : world R) :
  ¬ NoDup (map (normalize_axis (ndim data)) axes) →
  ∃ e, swtn_direct data wavelet level start_level (Some axes) w = (Raise e, w) ∧
       swtn_validation_error e.
Proof.
  intros Hd. unfold swtn_direct, swtn_validation_error.
  case_bool_decide; [eexists; split; [reflexivity | auto]|].
  destruct (ndim data <? 1); [eexists; split; [reflexivity | auto]|].
  rewrite (unique_check_dup _ Hd). eexists; split; [reflexivity | auto].
Qed.

Lemma swtn_dup data wavelet level start_level axes (w : world R) :
  ¬ NoDup (map (normalize_axis (ndim data)) axes) →
  ∃ e, swtn data wavelet level start_level (Some axes) w = (Raise e, w) ∧
       swtn_validation_error e.
Proof.
  intros Hd. unfold swtn.
  destruct (negb _have_c99_complex && iscomplexobj data) eqn:E.
  - assert (Hnd : ndim (real data) = ndim data).
    { unfold real, ndim. by destruct (iscomplexobj data). }
    destruct (swtn_direct_dup (real data) wavelet level start_level axes w)
      as (e & He & Hv); [by rewrite Hnd|].
    exists e. split; [|done]. unfold mbind, M_bind. by rewrite He.
  - by apply swtn_direct_dup.
Qed.

Lemma iswtn_dup coeffs wavelet axes (w : world R) loc0 n out :
  coeffs !! 0 = Some loc0 →
  max_key_len (dicts w loc0) = Ok n →
  dicts w loc0 !! str_mul "a" n = Some out →
  ¬ NoDup (map (normalize_axis (ndim out)) axes) →
  iswtn coeffs wavelet (Some axes) w
  = (Raise (ValueError "The axes passed to swtn must be unique."), w).
Proof.
  intros Hc Hn Ha Hd. unfold iswtn, index, dict_get, mbind, M_bind, lift, dict_read.
  rewrite Hc, Hn, Ha. by rewrite (unique_check_dup _ Hd).
Qed.

Lemma swt2_dup data wavelet level start_level axes (w : world R) :
  ¬ NoDup (map (normalize_axis (ndim data)) axes) →
  ∃ e, swt2 data wavelet level start_level axes w = (Raise e, w) ∧
       ∃ msg, e = ValueError msg ∨ e = TypeError msg.
Proof.
  intros Hd. unfold swt2.
  destruct (negb (length axes =? 2)); [by eexists; split; [|eexists; left]|].
  destruct (negb (length axes =? len_set axes)); [by eexists; split; [|eexists; left]|].
  destruct (ndim data <? len_set axes); [by eexists; split; [|eexists; left]|].
  destruct (swtn_dup data wavelet level start_level axes w Hd) as (e & He & Hv).
  exists e. split; [unfold mbind, M_bind; by rewrite He|].
  destruct Hv as [->|[->| ->]]; eexists; eauto.
Qed.

(** C9: a duplicated axis, counted after negative indices are normalised, is
    rejected by [swtn] (and by [swt2], which calls it) and by [iswtn] with a
    validation error raised before anything else happens; no call returns a
    result computed on a deduplicated axis set. *)
Theorem duplicate_axes_rejected (data : ndarray R) (coeffs : list nat)
    (wavelet : W) (level start_level : Z) (axes : list Z) (w : world R)
    (loc0 n : nat) (out : ndarray R) :
  (¬ NoDup (map (normalize_axis (ndim data)) axes) →
     (∃ e, swtn data wavelet level start_level (Some axes) w = (Raise e, w) ∧
           swtn_validation_error e) ∧
     (∃ e, swt2 data wavelet level start_level axes w = (Raise e, w) ∧
           ∃ msg, e = ValueError msg ∨ e = TypeError msg)) ∧
  (coeffs !! 0 = Some loc0 →
   max_key_len (dicts w loc0) = Ok n →
   dicts w loc0 !! str_mul "a" n = Some out →
   ¬ NoDup (map (normalize_axis (ndim out)) axes) →
   iswtn coeffs wavelet (Some axes) w
   = (Raise (ValueError "The axes passed to swtn must be unique."), w)).
Proof.
  split.
  - intros Hd. split; [by apply swtn_dup | by apply swt2_dup].
  - apply iswtn_dup.
Qed.

End Validation.

(** ** Input of no dimension, and no axes *)

Section EmptyAxes.
Context {R W Wv : Type} {SR : Scalar R} {PR : Primitives R W Wv}.

Lemma swtn_levels_no_axes (ws : list Wv) levels (data : ndarray R) ret (w : world R) :
  swtn_levels [] ws 0 levels data ret w
  = (Ok (ret ++ replicate (length levels) {[ "" := data ]}), w).
Proof.
  revert ret. induction levels as [|i levels IH]; intros ret; simpl.
  - by rewrite app_nil_r.
  - unfold mbind, M_bind. simpl.
    unfold dict_get, dict_of. simpl. rewrite lookup_insert_eq. simpl.
    rewrite IH. by rewrite <- app_assoc.
Qed.

Lemma rev_replicate {A} n (x : A) : rev (replicate n x) = replicate n x.
Proof.
  induction n as [|n IH]; [done|]. simpl. rewrite IH.
  clear IH. induction n as [|n IH]; [done|]. simpl. by rewrite IH.
Qed.

Lemma swtn_direct_ndim0 data wavelet level start_level axes (w : world R) :
  ndim data = 0 →
  ∃ e, swtn_direct data wavelet level start_level axes w = (Raise e, w) ∧
       (e = TypeError "Input must be a numeric array-like" ∨
        e = ValueError "Input data must be at least 1D").
Proof.
  intros Hn. unfold swtn_direct. case_bool_decide; [by eexists; split; [|left]|].
  rewrite Hn. simpl. by eexists; split; [|right].
Qed.

Lemma swtn_ndim0 data wavelet level start_level axes (w : world R) :
  ndim data = 0 →
  ∃ e, swtn data wavelet level start_level axes w = (Raise e, w) ∧
       (e = TypeError "Input must be a numeric array-like" ∨
        e = ValueError "Input data must be at least 1D").
Proof.
  intros Hn. unfold swtn.
  destruct (negb _have_c99_complex && iscomplexobj data).
  - assert (Hr : ndim (real data) = 0).
    { unfold real, ndim in *. by destruct (iscomplexobj data). }
    destruct (swtn_direct_ndim0 (real data) wavelet level start_level axes w Hr)
      as (e & He & Hv).
    exists e. split; [|done]. unfold mbind, M_bind. by rewrite He.
  - by apply swtn_direct_ndim0.
Qed.

(** C6 (amended): input of fewer than one dimension is rejected with a
    validation error; an empty axis set is not rejected: for a numeric array
    of at least one dimension, outside the complex-splitting branch, [swtn]
    over no axes returns [level] dictionaries that each map the empty key to
    the input array, and invokes no transform primitive. *)
Theorem swtn_ndim0_rejected_empty_axes_accepted (data : ndarray R) (wavelet : W)
    (level start_level : Z) (axes : option (list Z)) (w : world R) :
  (ndim data = 0 →
     ∃ e, swtn data wavelet level start_level axes w = (Raise e, w) ∧
          (e = TypeError "Input must be a numeric array-like" ∨
           e = ValueError "Input data must be at least 1D")) ∧
  (1 ≤ ndim data → dtype_of data ≠ object_ →
   negb _have_c99_complex && iscomplexobj data = false →
     swtn data wavelet level start_level (Some []) w
     = match _wavelets_per_axis wavelet [] with
       | Ok _ => (Ok (replicate (Z.to_nat level) {[ "" := data ]}), w)
       | Raise e => (Raise e, w)
       end).
Proof.
  split.
  - apply swtn_ndim0.
  - intros Hn Hd Hc. unfold swtn. rewrite Hc. unfold swtn_direct.
    rewrite bool_decide_eq_false_2 by done.
    destruct (ndim data <? 1) eqn:E; [apply Nat.ltb_lt in E; lia|].
    simpl. unfold mbind, M_bind, lift.
    destruct (_wavelets_per_axis wavelet []) as [ws|e]; [|done].
    change (len_set []) with (size (∅ : gset Z)). rewrite size_empty.
    cbv beta iota delta [negb]. rewrite swtn_levels_no_axes. simpl.
    rewrite py_range_length, rev_replicate.
    by replace (start_level + level - start_level)%Z with level by lia.
Qed.
End EmptyAxes.

(** ** Sub-band keys and dictionaries built from pairs *)

Lemma snoc_length s c : String.length (String.append s (String c "")) = S (String.length s).
Proof. induction s as [|x s IH]; simpl; [done | by rewrite IH]. Qed.

Lemma snoc_chars s c :
  list_ascii_of_string (String.append s (String c ""))
  = list_ascii_of_string s ++ [c].
Proof. induction s as [|x s IH]; simpl; [done | by rewrite IH]. Qed.

Lemma snoc_inj s1 s2 c1 c2 :
  String.append s1 (String c1 "") = String.append s2 (String c2 "") →
  s1 = s2 ∧ c1 = c2.
Proof.
  revert s2. induction s1 as [|x s1 IH]; intros [|y s2]; simpl; intros Heq.
  - by injection Heq as ->.
  - injection Heq as -> Heq. by destruct s2.
  - injection Heq as -> Heq. by destruct s1.
  - injection Heq as -> Heq. by destruct (IH _ Heq) as [-> ->].
Qed.

Lemma snoc_inv s k :
  String.length s = S k →
  ∃ s' c, s = String.append s' (String c "") ∧ String.length s' = k.
Proof.
  revert k. induction s as [|x s IH]; intros k Hl; simpl in Hl; [discriminate|].
  injection Hl as Hl. destruct s as [|y s].
  - exists "", x. by subst k.
  - destruct k as [|k]; [discriminate|].
    destruct (IH k Hl) as (s' & c & -> & Hs').
    exists (String x s'), c. simpl. by rewrite Hs'.
Qed.

Lemma elem_of_expand l s :
  s ∈ expand l ↔ ∃ s', s' ∈ l ∧ (s = String.append s' "a" ∨ s = String.append s' "d").
Proof.
  unfold expand. rewrite list_elem_of_In, in_flat_map. split.
  - intros (s' & Hin & Hs). exists s'. rewrite list_elem_of_In. split; [done|].
    simpl in Hs. destruct Hs as [<-|[<-|[]]]; auto.
  - intros (s' & Hin & Hs). exists s'. rewrite <- list_elem_of_In. split; [done|].
    simpl. destruct Hs as [->| ->]; auto.
Qed.

Lemma subband_keys_succ k : subband_keys (S k) = expand (subband_keys k).
Proof. done. Qed.

Lemma elem_of_subband_keys k s : s ∈ subband_keys k ↔ is_subband_key k s.
Proof.
  revert s. induction k as [|k IH]; intros s.
  - simpl. rewrite list_elem_of_singleton. unfold is_subband_key. split.
    + intros ->. split; [done | constructor].
    + intros [Hl _]. by destruct s.
  - rewrite subband_keys_succ, elem_of_expand. unfold is_subband_key. split.
    + intros (s' & Hin & Hs). apply IH in Hin as [Hl Hc].
      destruct Hs as [->| ->]; rewrite snoc_length, snoc_chars, Hl;
        (split; [done|]); apply Forall_app; split; try done;
        constructor; auto.
    + intros [Hl Hc]. destruct (snoc_inv _ _ Hl) as (s' & c & -> & Hl').
      rewrite snoc_chars in Hc. apply Forall_app in Hc as [Hc Hlast].
      exists s'. split; [apply IH; by split|].
      apply Forall_singleton in Hlast as [->| ->]; auto.
Qed.

Lemma NoDup_expand l : NoDup l → NoDup (expand l).
Proof.
  induction 1 as [|s l Hnin Hnd IH]; [constructor|].
  change (expand (s :: l))
    with (String.append s "a" :: String.append s "d" :: expand l).
  constructor; [|constructor; [|done]].
  - rewrite elem_of_cons, elem_of_expand.
    intros [Heq|(s' & Hin & [Heq|Heq])]; apply snoc_inj in Heq as [Hs Hc];
      [discriminate | by subst s' | discriminate].
  - rewrite elem_of_expand.
    intros (s' & Hin & [Heq|Heq]); apply snoc_inj in Heq as [Hs Hc];
      [discriminate | by subst s'].
Qed.

Lemma NoDup_subband_keys k : NoDup (subband_keys k).
Proof.
  induction k as [|k IH]; [apply NoDup_singleton|].
  rewrite subband_keys_succ. by apply NoDup_expand.
Qed.

Lemma length_expand l : length (expand l) = 2 * length l.
Proof. induction l as [|s l IH]; simpl in *; lia. Qed.

Lemma length_subband_keys k : length (subband_keys k) = 2 ^ k.
Proof.
  induction k as [|k IH]; [done|].
  rewrite subband_keys_succ, length_expand, IH. simpl. lia.
Qed.

Lemma iter_expand n l : Nat.iter n expand (expand l) = expand (Nat.iter n expand l).
Proof. induction n as [|n IH]; simpl; [done | by rewrite IH]. Qed.

Lemma subband_keys_iter k : subband_keys k = Nat.iter k expand [""].
Proof. induction k as [|k IH]; [done|]. rewrite subband_keys_succ, IH. done. Qed.

(** ** Dictionaries built from pairs *)

Lemma fold_insert_union {V} (l : list (string * V)) (m : gmap string V) :
  NoDup l.*1 →
  fold_left (λ m kv, <[kv.1 := kv.2]> m) l m = list_to_map l ∪ m.
Proof.
  revert m. induction l as [|[k v] l IH]; intros m Hnd; simpl.
  - by rewrite (left_id_L ∅ (∪)).
  - apply NoDup_cons in Hnd as [Hnin Hnd]. rewrite IH by done.
    simpl. rewrite <- insert_union_l. rewrite insert_union_r; [done|].
    by apply not_elem_of_list_to_map_1.
Qed.

Lemma dict_of_list_to_map {V} (l : list (string * V)) :
  NoDup l.*1 → dict_of l = list_to_map l.
Proof.
  intros Hnd. unfold dict_of. rewrite fold_insert_union by done.
  by rewrite (right_id_L ∅ (∪)).
Qed.

(** ** The Level Coefficient Sets of [swtn] *)

Section LevelSets.
Context {R W Wv : Type} {SR : Scalar R} {PR : Primitives R W Wv}.

Lemma swtn_axis_acc (Hshape : swt_axis_keeps_shape) sh i (aw : Z * Wv) coeffs :
  ∀ acc (w : world R) out w',
    foldM (λ new_coeffs sx,
             r ← call (_swt_axis sx.2 aw.2 1 i aw.1);
             c ← lift (index r 0);
             mret (new_coeffs ++ [(String.append sx.1 "a", c.1);
                                  (String.append sx.1 "d", c.2)]))
          acc coeffs w = (Ok out, w') →
    out.*1 = acc.*1 ++ expand coeffs.*1 ∧
    (Forall (λ kv, shape kv.2 = sh) acc → Forall (λ kv, shape kv.2 = sh) coeffs →
     Forall (λ kv, shape kv.2 = sh) out).
Proof.
  induction coeffs as [|[s x] coeffs IH]; intros acc w out w' Hrun; simpl in Hrun.
  - apply mret_ok in Hrun as [<- _]. split; [by rewrite app_nil_r | done].
  - apply bind_ok in Hrun as (acc1 & w1 & Hstep & Hrest).
    apply bind_ok in Hstep as (r & w2 & Hcall & Hstep).
    apply call_ok in Hcall as [Hprim _].
    apply bind_ok in Hstep as (c & w3 & Hidx & Hstep).
    apply lift_ok in Hidx as [Hidx _]. apply mret_ok in Hstep as [<- _].
    apply IH in Hrest as [Hkeys Hshapes]. split.
    + rewrite Hkeys, fmap_app. simpl. by rewrite <- app_assoc.
    + intros Hacc Hco. apply Forall_cons in Hco as [Hx Hco]. simpl in *.
      apply Hshapes; [|done]. apply Forall_app. split; [done|].
      apply Hshape in Hprim. unfold index in Hidx.
      destruct (r !! 0) as [c'|] eqn:E; [|discriminate]. injection Hidx as ->.
      eapply Forall_lookup_1 in Hprim as [Hc1 Hc2]; [|exact E].
      repeat constructor; simpl; congruence.
Qed.

Lemma swtn_axes_keys (Hshape : swt_axis_keeps_shape) sh i aws :
  ∀ coeffs (w : world R) out w',
    foldM (swtn_axis i) coeffs aws w = (Ok out, w') →
    out.*1 = Nat.iter (length aws) expand coeffs.*1 ∧
    (Forall (λ kv, shape kv.2 = sh) coeffs → Forall (λ kv, shape kv.2 = sh) out).
Proof.
  induction aws as [|aw aws IH]; intros coeffs w out w' Hrun; simpl in Hrun.
  - apply mret_ok in Hrun as [<- _]. done.
  - apply bind_ok in Hrun as (c1 & w1 & Hstep & Hrest).
    apply (swtn_axis_acc Hshape sh) in Hstep as [Hk1 Hs1].
    apply IH in Hrest as [Hk Hs]. split.
    + rewrite Hk, Hk1. simpl. by rewrite iter_expand.
    + intros Hc. apply Hs, Hs1; [constructor | done].
Qed.

Lemma swtn_level_ok (Hshape : swt_axis_keeps_shape) axes ws data i (w : world R) d w' :
  length ws = length axes →
  swtn_level axes ws data i w = (Ok d, w') →
  level_set_ok (length axes) (shape data) d.
Proof.
  intros Hlen Hrun. unfold swtn_level in Hrun.
  apply bind_ok in Hrun as (coeffs & w1 & Hfold & Hret).
  apply mret_ok in Hret as [<- _].
  apply (swtn_axes_keys Hshape (shape data)) in Hfold as [Hkeys Hshapes].
  assert (Hk : coeffs.*1 = subband_keys (length axes)).
  { rewrite Hkeys, subband_keys_iter. f_equal.
    rewrite length_combine. lia. }
  assert (Hnd : NoDup coeffs.*1) by (rewrite Hk; apply NoDup_subband_keys).
  rewrite dict_of_list_to_map by done. split; [intros key; split | split].
  - intros [v Hv]. apply elem_of_list_to_map in Hv; [|done].
    apply elem_of_subband_keys. rewrite <- Hk.
    apply list_elem_of_fmap. by exists (key, v).
  - intros Hkey. apply elem_of_subband_keys in Hkey. rewrite <- Hk in Hkey.
    apply list_elem_of_fmap in Hkey as ([k v] & -> & Hin).
    exists v. by apply elem_of_list_to_map.
  - rewrite map_size_list_to_map by done.
    rewrite <- (length_fmap fst), Hk. apply length_subband_keys.
  - intros key v Hv. apply elem_of_list_to_map in Hv; [|done].
    assert (Hall : Forall (λ kv : string * ndarray R, shape kv.2 = shape data) coeffs).
    { apply Hshapes. by constructor. }
    rewrite Forall_forall in Hall. by apply (Hall (key, v)).
Qed.

Lemma swtn_levels_ok (Hshape : swt_axis_keeps_shape) axes ws sh levels :
  length ws = length axes →
  ∀ data ret (w : world R) out w',
    shape data = sh →
    Forall (level_set_ok (length axes) sh) ret →
    swtn_levels axes ws (length axes) levels data ret w = (Ok out, w') →
    Forall (level_set_ok (length axes) sh) out.
Proof.
  intros Hlen. induction levels as [|i levels IH]; intros data ret w out w' Hsh Hret Hrun;
    simpl in Hrun.
  - apply mret_ok in Hrun as [<- _]. done.
  - apply bind_ok in Hrun as (d & w1 & Hlevel & Hrun).
    apply bind_ok in Hrun as (a & w2 & Hget & Hrun).
    apply lift_ok in Hget as [Hget _].
    apply (swtn_level_ok Hshape) in Hlevel; [|done]. rewrite Hsh in Hlevel.
    eapply IH; [| |exact Hrun].
    + unfold dict_get in Hget.
      destruct (d !! str_mul "a" (length axes)) as [a'|] eqn:E; [|discriminate].
      injection Hget as ->. destruct Hlevel as (_ & _ & Hs). by eapply Hs.
    + apply Forall_app. split; [done | by constructor].
Qed.

Lemma swtn_direct_ok (Hshape : swt_axis_keeps_shape) (Hwav : wavelets_per_axis_length)
    data wavelet level start_level axes (w : world R) ret w' :
  swtn_direct data wavelet level start_level axes w = (Ok ret, w') →
  let k := match axes with Some l => length l | None => ndim data end in
  Forall (level_set_ok k (shape data)) ret.
Proof.
  intros Hrun k. unfold swtn_direct in Hrun.
  case_bool_decide; [discriminate|].
  destruct (ndim data <? 1); [discriminate|].
  set (axes' := map (normalize_axis (ndim data)) _) in Hrun.
  destruct (negb (length axes' =? len_set axes')); [discriminate|].
  apply bind_ok in Hrun as (ws & w1 & Hws & Hrun).
  apply lift_ok in Hws as [Hws _]. apply Hwav in Hws.
  apply bind_ok in Hrun as (out & w2 & Hlevels & Hrun).
  apply mret_ok in Hrun as [<- _].
  assert (Hk : length axes' = k).
  { unfold axes', k. rewrite length_map. destruct axes; [done|].
    rewrite py_range_length. unfold ndim. lia. }
  rewrite <- Hk. apply Forall_rev.
  eapply (swtn_levels_ok Hshape); [exact Hws | reflexivity | constructor | exact Hlevels].
Qed.

Lemma omapM_ok {A B} (f : A → outcome B) l out :
  omapM f l = Ok out → Forall2 (λ x y, f x = Ok y) l out.
Proof.
  revert out. induction l as [|x l IH]; intros out Hrun; simpl in Hrun.
  - injection Hrun as <-. constructor.
  - apply obind_ok in Hrun as (y & Hy & Hrun).
    apply obind_ok in Hrun as (ys & Hys & Hrun). injection Hrun as <-.
    constructor; [done | by apply IH].
Qed.

Lemma zip_with_max_diag sh : zip_with Nat.max sh sh = sh.
Proof. induction sh as [|n sh IH]; simpl; [done|]. rewrite IH. f_equal. lia. Qed.

Lemma join_complex_shape (re im out : ndarray R) :
  shape re = shape im → join_complex re im = Ok out → shape out = shape re.
Proof.
  intros Hs. unfold join_complex, np_add, ndim. simpl. rewrite <- Hs.
  rewrite Nat.max_id, Nat.sub_diag. simpl.
  destruct (_ && _); [|discriminate]. intros [= <-]. simpl.
  apply zip_with_max_diag.
Qed.

Lemma join_dicts_ok k sh (rdict idict d : gmap string (ndarray R)) :
  level_set_ok k sh rdict → level_set_ok k sh idict →
  join_dicts rdict idict = Ok d → level_set_ok k sh d.
Proof.
  intros (Hrk & Hrn & Hrs) (Hik & Hin & His) Hrun. unfold join_dicts in Hrun.
  apply obind_ok in Hrun as (pairs & Hpairs & Hrun). injection Hrun as <-.
  apply omapM_ok in Hpairs.
  assert (Hkeys : pairs.*1 = (map_to_list rdict).*1).
  { induction Hpairs as [|[key v] p l ps Hp _ IH]; [done|]. rewrite !fmap_cons, IH. f_equal.
    apply obind_ok in Hp as (iv & _ & Hp). apply obind_ok in Hp as (v' & _ & Hp).
    by injection Hp as <-. }
  assert (Hshapes : Forall (λ kv : string * ndarray R, shape kv.2 = sh) pairs).
  { assert (Hin' : Forall (λ kv : string * ndarray R, shape kv.2 = sh) (map_to_list rdict)).
    { apply Forall_forall. intros [key v] Hkv. apply elem_of_map_to_list in Hkv.
      by eapply Hrs. }
    clear Hkeys. revert Hpairs Hin'. generalize (map_to_list rdict). intros l Hpairs' Hin'.
    induction Hpairs' as [|[key v] p l ps Hp _ IH]; [apply Forall_nil_2|].
    apply Forall_cons in Hin' as [Hv Hin']. constructor; [|by apply IH].
    apply obind_ok in Hp as (iv & Hiv & Hp). apply obind_ok in Hp as (v' & Hj & Hp).
    injection Hp as <-. simpl in *. unfold dict_get in Hiv.
    destruct (idict !! key) as [iv'|] eqn:E; [|discriminate]. injection Hiv as ->.
    apply join_complex_shape in Hj; [congruence|]. rewrite Hv. symmetry. by eapply His. }
  assert (Hnd : NoDup pairs.*1) by (rewrite Hkeys; apply NoDup_fst_map_to_list).
  rewrite dict_of_list_to_map by done. split; [intros key; split | split].
  - intros [v Hv]. apply elem_of_list_to_map in Hv; [|done]. apply Hrk.
    assert (Hkey : key ∈ pairs.*1) by (apply list_elem_of_fmap; by exists (key, v)).
    rewrite Hkeys in Hkey. apply list_elem_of_fmap in Hkey as ([k' v'] & -> & Hkv).
    apply elem_of_map_to_list in Hkv. by exists v'.
  - intros Hkey. apply Hrk in Hkey as [v Hv].
    assert (Hkey : key ∈ pairs.*1).
    { rewrite Hkeys. apply list_elem_of_fmap. exists (key, v). split; [done|].
      by apply elem_of_map_to_list. }
    apply list_elem_of_fmap in Hkey as ([k' v'] & -> & Hkv).
    exists v'. by apply elem_of_list_to_map.
  - rewrite map_size_list_to_map by done.
    rewrite <- (length_fmap fst), Hkeys, length_fmap, length_map_to_list. done.
  - intros key v Hv. apply elem_of_list_to_map in Hv; [|done].
    rewrite Forall_forall in Hshapes. by apply (Hshapes (key, v)).
Qed.

Lemma join_all_ok k sh (re im ret : list (gmap string (ndarray R))) :
  Forall (level_set_ok k sh) re → Forall (level_set_ok k sh) im →
  omapM (λ ri, join_dicts ri.1 ri.2) (combine re im) = Ok ret →
  Forall (level_set_ok k sh) ret.
Proof.
  intros Hre. revert im ret.
  induction Hre as [|r re Hr _ IH]; intros im ret Him Hrun; simpl in Hrun.
  - injection Hrun as <-. constructor.
  - destruct Him as [|i im Hi Him]; simpl in Hrun; [injection Hrun as <-; constructor|].
    apply obind_ok in Hrun as (d & Hd & Hrun).
    apply obind_ok in Hrun as (ds & Hds & Hrun). injection Hrun as <-.
    constructor; [exact (join_dicts_ok _ _ _ _ _ Hr Hi Hd) | exact (IH _ _ Him Hds)].
Qed.

Lemma shape_real (a : ndarray R) : shape (real a) = shape a.
Proof. unfold real. by destruct (iscomplexobj a). Qed.

Lemma shape_imag (a : ndarray R) : shape (imag a) = shape a.
Proof. done. Qed.

(** C7: every Level Coefficient Set a successful [swtn] call returns over [k]
    axes has as keys exactly the strings of [k] letters [a]/[d], hence [2^k]
    entries, and every coefficient array has the shape of the input; the
    one-axis step and the per-axis wavelet normalisation are assumed to meet
    their contracts. *)
Theorem swtn_level_sets_complete (Hshape : swt_axis_keeps_shape)
    (Hwav : wavelets_per_axis_length)
    (data : ndarray R) (wavelet : W) (level start_level : Z)
    (axes : option (list Z)) (w w' : world R) (ret : list (gmap string (ndarray R))) :
  swtn data wavelet level start_level axes w = (Ok ret, w') →
  let k := match axes with Some l => length l | None => ndim data end in
  ∀ d, d ∈ ret →
    (∀ key, is_Some (d !! key) ↔ is_subband_key k key) ∧
    size d = 2 ^ k ∧
    (∀ key v, d !! key = Some v → shape v = shape data).
Proof.
  intros Hrun k. change (∀ d, d ∈ ret → level_set_ok k (shape data) d).
  apply Forall_forall. unfold swtn in Hrun.
  destruct (negb _have_c99_complex && iscomplexobj data).
  - apply bind_ok in Hrun as (re & w1 & Hre & Hrun).
    apply bind_ok in Hrun as (im & w2 & Him & Hrun).
    apply lift_ok in Hrun as [Hjoin _].
    apply (swtn_direct_ok Hshape Hwav) in Hre, Him.
    rewrite shape_real in Hre. rewrite shape_imag in Him.
    replace (match axes with Some l => length l | None => ndim (real data) end)
      with k in Hre by (unfold k, ndim; by rewrite shape_real).
    change (match axes with Some l => length l | None => ndim (imag data) end)
      with k in Him.
    exact (join_all_ok _ _ _ _ _ Hre Him Hjoin).
  - by apply (swtn_direct_ok Hshape Hwav) in Hrun.
Qed.
End LevelSets.

(** ** The order of the levels [swtn] returns *)

Lemma py_range_succ a n :
  py_range a (a + Z.of_nat (S n))
  = a :: py_range (a + 1) (a + 1 + Z.of_nat n).
Proof.
  unfold py_range.
  replace (a + Z.of_nat (S n) - a)%Z with (Z.of_nat (S n)) by lia.
  replace (a + 1 + Z.of_nat n - (a + 1))%Z with (Z.of_nat n) by lia.
  rewrite !Nat2Z.id. simpl. f_equal; [f_equal; lia|].
  rewrite <- seq_shift, map_map. apply map_ext. intros k. lia.
Qed.

Lemma rev_lookup {A} (l : list A) m :
  m < length l → rev l !! (length l - 1 - m) = l !! m.
Proof.
  intros Hm. rewrite rev_alt. change (rev_append l []) with (reverse l).
  rewrite reverse_lookup by lia. f_equal. lia.
Qed.

Section LevelOrder.
Context {R W Wv : Type} {SR : Scalar R} {PR : Primitives R W Wv}.

Lemma swtn_levels_chain axes ws n :
  ∀ i (data : ndarray R) ret (w : world R) out w',
    swtn_levels axes ws (length axes) (py_range i (i + Z.of_nat n)) data ret w
    = (Ok out, w') →
    ∃ cs, out = ret ++ cs ∧ length cs = n ∧
          ∀ m c, cs !! m = Some c → level_at axes ws data i m c.
Proof.
  induction n as [|n IH]; intros i data ret w out w' Hrun.
  - replace (i + Z.of_nat 0)%Z with i in Hrun by lia.
    unfold py_range in Hrun. rewrite Z.sub_diag in Hrun. simpl in Hrun.
    apply mret_ok in Hrun as [<- _]. exists []. rewrite app_nil_r.
    repeat split. intros m c Hm. by rewrite lookup_nil in Hm.
  - rewrite py_range_succ in Hrun. simpl in Hrun.
    apply bind_ok in Hrun as (c0 & w1 & Hlevel & Hrun).
    apply bind_ok in Hrun as (a & w2 & Hget & Hrun).
    apply lift_ok in Hget as [Hget _]. unfold dict_get in Hget.
    destruct (c0 !! str_mul "a" (length axes)) as [a'|] eqn:Ea; [|discriminate].
    injection Hget as ->.
    apply IH in Hrun as (cs & -> & Hlen & Hcs).
    exists (c0 :: cs). rewrite <- app_assoc. repeat split; [simpl; lia|].
    intros [|m] c Hm; simpl in Hm.
    + injection Hm as <-. by eapply level_here.
    + eapply level_next; [exact Hlevel | exact Ea | by apply Hcs].
Qed.

Lemma swtn_direct_chain data wavelet level start_level axes (w w' : world R) ret :
  swtn_direct data wavelet level start_level axes w = (Ok ret, w') →
  let axes' := map (normalize_axis (ndim data))
                   (match axes with
                    | None => py_range 0 (Z.of_nat (ndim data))
                    | Some l => l
                    end) in
  ∃ ws, _wavelets_per_axis wavelet axes' = Ok ws ∧
        length ret = Z.to_nat level ∧
        ∀ m, m < Z.to_nat level →
          ∃ c, ret !! (Z.to_nat level - 1 - m) = Some c ∧
               level_at axes' ws data start_level m c.
Proof.
  intros Hrun axes'. unfold swtn_direct in Hrun.
  case_bool_decide; [discriminate|].
  destruct (ndim data <? 1); [discriminate|].
  fold axes' in Hrun.
  destruct (negb (length axes' =? len_set axes')); [discriminate|].
  apply bind_ok in Hrun as (ws & w1 & Hws & Hrun).
  apply lift_ok in Hws as [Hws _].
  apply bind_ok in Hrun as (out & w2 & Hlevels & Hrun).
  apply mret_ok in Hrun as [<- _].
  replace (py_range start_level (start_level + level))
    with (py_range start_level (start_level + Z.of_nat (Z.to_nat level))) in Hlevels
    by (unfold py_range; f_equal; f_equal; lia).
  apply swtn_levels_chain in Hlevels as (cs & -> & Hlen & Hcs). simpl.
  exists ws. split; [done|]. rewrite length_rev. split; [done|].
  intros m Hm. rewrite <- Hlen in *.
  destruct (cs !! m) as [c|] eqn:Ec.
  2:{ apply lookup_ge_None in Ec. lia. }
  exists c. split; [by rewrite rev_lookup | by apply Hcs].
Qed.

Lemma join_all_lookup (re im ret : list (gmap string (ndarray R))) :
  omapM (λ ri, join_dicts ri.1 ri.2) (combine re im) = Ok ret →
  length ret = Nat.min (length re) (length im) ∧
  ∀ j c, ret !! j = Some c →
    ∃ cr ci, re !! j = Some cr ∧ im !! j = Some ci ∧ join_dicts cr ci = Ok c.
Proof.
  revert im ret. induction re as [|r re IH]; intros im ret Hrun; simpl in Hrun.
  - injection Hrun as <-. split; [done|]. intros j c Hj. by rewrite lookup_nil in Hj.
  - destruct im as [|i im]; simpl in Hrun.
    + injection Hrun as <-. split; [done|]. intros j c Hj. by rewrite lookup_nil in Hj.
    + apply obind_ok in Hrun as (d & Hd & Hrun).
      apply obind_ok in Hrun as (ds & Hds & Hrun). injection Hrun as <-.
      apply IH in Hds as [Hlen Hds]. split; [simpl; lia|].
      intros [|j] c Hj; simpl in Hj.
      * injection Hj as <-. by exists r, i.
      * by apply Hds.
Qed.

(** C8: for a decomposition of depth [level >= 0] from [start_level], the
    list [swtn] returns has exactly [level] elements; the element at
    position [level - 1 - m] is the Level Coefficient Set computed at level
    index [start_level + m], so position 0 holds the deepest level
    [start_level + level - 1] and the last position holds [start_level]:
    levels are computed in increasing order and the list is reversed.  In
    the complex-splitting branch the element joins the sets computed at
    that level for the real and the imaginary part. *)
Theorem swtn_coarsest_level_first (data : ndarray R) (wavelet : W)
    (level start_level : Z) (axes : option (list Z)) (w w' : world R)
    (ret : list (gmap string (ndarray R))) :
  (0 ≤ level)%Z →
  swtn data wavelet level start_level axes w = (Ok ret, w') →
  let axes' := map (normalize_axis (ndim data))
                   (match axes with
                    | None => py_range 0 (Z.of_nat (ndim data))
                    | Some l => l
                    end) in
  Z.of_nat (length ret) = level ∧
  ∃ ws, _wavelets_per_axis wavelet axes' = Ok ws ∧
    ∀ m, m < Z.to_nat level →
      ∃ c, ret !! (Z.to_nat level - 1 - m) = Some c ∧
        if negb _have_c99_complex && iscomplexobj data
        then ∃ cr ci, level_at axes' ws (real data) start_level m cr ∧
                      level_at axes' ws (imag data) start_level m ci ∧
                      join_dicts cr ci = Ok c
        else level_at axes' ws data start_level m c.
Proof.
  intros Hlevel Hrun axes'. unfold swtn in Hrun.
  destruct (negb _have_c99_complex && iscomplexobj data).
  - apply bind_ok in Hrun as (re & w1 & Hre & Hrun).
    apply bind_ok in Hrun as (im & w2 & Him & Hrun).
    apply lift_ok in Hrun as [Hjoin _].
    apply swtn_direct_chain in Hre as (ws & Hws & Hlre & Hre).
    apply swtn_direct_chain in Him as (ws' & Hws' & Hlim & Him).
    assert (Hnd : ndim (real data) = ndim data) by (unfold ndim; by rewrite shape_real).
    rewrite Hnd in Hws, Hre.
    change (ndim (imag data)) with (ndim data) in Hws', Him.
    fold axes' in Hws, Hre, Hws', Him.
    assert (ws' = ws) as -> by congruence.
    apply join_all_lookup in Hjoin as [Hlen Hjoin].
    split; [lia|]. exists ws. split; [done|]. intros m Hm.
    destruct (Hre m Hm) as (cr & Hcr & Hlr). destruct (Him m Hm) as (ci & Hci & Hli).
    destruct (ret !! (Z.to_nat level - 1 - m)) as [c|] eqn:Ec.
    2:{ apply lookup_ge_None in Ec. lia. }
    exists c. split; [done|].
    destruct (Hjoin _ _ Ec) as (cr' & ci' & Hcr' & Hci' & Hj).
    exists cr, ci. repeat split; [done | done | congruence].
  - apply swtn_direct_chain in Hrun as (ws & Hws & Hlen & Hchain).
    split; [lia|]. by exists ws.
Qed.
End LevelOrder.

(** ** The level pass of [iswtn] *)

Lemma remove_dups_one {A} `{EqDecision A} (l : list A) :
  length (remove_dups l) = 1 → ∀ x y, x ∈ l → y ∈ l → x = y.
Proof.
  intros Hl x y Hx Hy.
  destruct (remove_dups l) as [|z [|z' l']] eqn:E; simpl in Hl; try lia.
  apply elem_of_remove_dups in Hx, Hy. rewrite E in Hx, Hy.
  apply list_elem_of_singleton in Hx, Hy. congruence.
Qed.

Lemma dict_pop_run {R} loc key (w : world R) :
  dict_pop loc key w
  = match dicts w loc !! key with
    | Some v => (Ok v, popped loc key w)
    | None => (Raise (KeyError key), w)
    end.
Proof.
  unfold dict_pop, dict_read, dict_get, dict_write, lift, mbind, M_bind, popped.
  by destruct (dicts w loc !! key).
Qed.

Lemma keeps_lift {R A} (o : outcome A) : keeps_dicts (lift o : M R A).
Proof. done. Qed.

Lemma keeps_call {R A} (o : outcome A) : keeps_dicts (call o : M R A).
Proof. done. Qed.

Lemma keeps_mret {R A} (a : A) : keeps_dicts (mret a : M R A).
Proof. done. Qed.

Lemma keeps_raise {R A} e : keeps_dicts (raise e : M R A).
Proof. done. Qed.

Lemma keeps_bind {R A B} (m : M R A) (k : A → M R B) :
  keeps_dicts m → (∀ a, keeps_dicts (k a)) → keeps_dicts (x ← m; k x).
Proof.
  intros Hm Hk w. unfold mbind, M_bind. specialize (Hm w).
  destruct (m w) as [[a|e] w1]; simpl in *; [|done].
  by rewrite Hk.
Qed.

Lemma keeps_foldM {R A S} (f : S → A → M R S) l s :
  (∀ s x, keeps_dicts (f s x)) → keeps_dicts (foldM f s l).
Proof.
  intros Hf. revert s. induction l as [|x l IH]; intros s; simpl.
  - apply keeps_mret.
  - apply keeps_bind; [apply Hf | apply IH].
Qed.

Lemma foldM_each {R A S} (I : world R → Prop) (Q : A → Prop) (f : S → A → M R S) l :
  (∀ s x w s' w', x ∈ l → I w → f s x w = (Ok s', w') → I w' ∧ Q x) →
  ∀ s w s' w', I w → foldM f s l w = (Ok s', w') → I w' ∧ Forall Q l.
Proof.
  induction l as [|x l IH]; intros Hstep s w s' w' HI Hrun; simpl in Hrun.
  - apply mret_ok in Hrun as [_ ->]. by split.
  - apply bind_ok in Hrun as (s1 & w1 & Hf & Hrest).
    destruct (Hstep _ _ _ _ _ ltac:(by left) HI Hf) as [HI1 HQ].
    destruct (IH (λ s x w s' w' Hin, Hstep s x w s' w' ltac:(by right)) _ _ _ _ HI1 Hrest)
      as [HI' HQs].
    split; [done | by constructor].
Qed.

Section InverseLevels.
Context {R W Wv : Type} {SR : Scalar R} {PR : Primitives R W Wv}.

Lemma keeps_iswtn_phase axes (ws : list Wv) key_a details approx acc odds :
  keeps_dicts (iswtn_phase axes ws key_a details approx acc odds : M R _).
Proof.
  destruct acc as [[st output] nt]. unfold iswtn_phase.
  repeat (first [apply keeps_bind; [|intros ?] | apply keeps_lift | apply keeps_call
                | apply keeps_mret]).
Qed.

Lemma keeps_iswtn_offsets axes (ws : list Wv) key_a k details dshape step acc firsts :
  keeps_dicts (iswtn_offsets axes ws key_a k details dshape step acc firsts : M R _).
Proof.
  destruct acc as [st output]. unfold iswtn_offsets.
  apply keeps_bind; [apply keeps_lift | intros st1].
  apply keeps_bind; [apply keeps_lift | intros out1].
  apply keeps_bind; [apply keeps_foldM; intros; apply keeps_iswtn_phase | intros [[st2 out2] nt]].
  apply keeps_bind; [apply keeps_lift | intros out3]. apply keeps_mret.
Qed.

Lemma shapes_index0 (details : gmap string (ndarray R)) k v :
  details !! k = Some v →
  ∃ s, index (map (λ kv : string * ndarray R, shape kv.2) (map_to_list details)) 0 = Ok s.
Proof.
  intros Hk. apply elem_of_map_to_list in Hk.
  destruct (map_to_list details) as [|kv l]; [by apply elem_of_nil in Hk|].
  by eexists.
Qed.

(** The level pass on a level whose details mismatch: the error is raised
    right after the pop, before any primitive is invoked. *)
Lemma iswtn_level_mismatch coeffs axes (ws : list Wv) k n acc j loc a (w : world R) :
  coeffs !! j = Some loc →
  dicts w loc !! str_mul "a" k = Some a →
  shape_mismatch (delete (str_mul "a" k) (dicts w loc)) →
  iswtn_level coeffs axes ws k n acc j w
  = (Raise (RuntimeError "Mismatch in shape of intermediate coefficient arrays"),
     popped loc (str_mul "a" k) w).
Proof.
  intros Hc Ha (k1 & k2 & v1 & v2 & H1 & H2 & Hne).
  unfold iswtn_level, index, dict_pop, dict_read, dict_write, dict_get, lift, mbind, M_bind.
  rewrite Hc, Ha. simpl. rewrite Nat.eqb_refl.
  destruct (shapes_index0 _ _ _ H1) as [s Hs]. unfold index in Hs.
  destruct (_ !! 0) as [s'|]; [|discriminate].
  set (shapes := map _ _).
  destruct (length (remove_dups shapes) =? 1) eqn:E; [|done].
  apply Nat.eqb_eq in E. exfalso. apply Hne.
  apply (remove_dups_one shapes E); apply list_elem_of_In, in_map_iff.
  - exists (k1, v1). split; [done|]. apply list_elem_of_In. by apply elem_of_map_to_list.
  - exists (k2, v2). split; [done|]. apply list_elem_of_In. by apply elem_of_map_to_list.
Qed.

(** A level pass that succeeds found details of one shape and leaves every
    dictionary as it was. *)
Lemma iswtn_level_ok coeffs axes (ws : list Wv) k n acc j loc (w w' : world R) acc' :
  coeffs !! j = Some loc →
  iswtn_level coeffs axes ws k n acc j w = (Ok acc', w') →
  same_shapes (delete (str_mul "a" k) (dicts w loc)) ∧
  (∀ l, dicts w' l = dicts w l).
Proof.
  intros Hc Hrun. unfold iswtn_level in Hrun.
  apply bind_ok in Hrun as (loc' & w0 & Hidx & Hrun).
  apply lift_ok in Hidx as [Hidx ->]. unfold index in Hidx. rewrite Hc in Hidx.
  injection Hidx as <-.
  apply bind_ok in Hrun as (a & w1 & Hpop & Hrun).
  rewrite dict_pop_run in Hpop.
  destruct (dicts w loc !! str_mul "a" k) as [a'|] eqn:Ea; [|discriminate].
  injection Hpop as -> <-.
  apply bind_ok in Hrun as (details & w5 & Hread & Hrun).
  injection Hread as <- <-. simpl in Hrun. rewrite Nat.eqb_refl in Hrun.
  set (details := delete (str_mul "a" k) (dicts w loc)) in *.
  apply bind_ok in Hrun as (dshape & w6 & Hds & Hrun).
  apply lift_ok in Hds as [_ ->].
  set (shapes := map _ _) in Hrun.
  destruct (length (remove_dups shapes) =? 1) eqn:E; [|discriminate].
  simpl in Hrun. apply Nat.eqb_eq in E.
  apply bind_ok in Hrun as (acc1 & w7 & Hfold & Hrun).
  apply bind_ok in Hrun as ([] & w8 & Hset & Hrun).
  apply mret_ok in Hrun as [_ ->].
  pose proof (keeps_foldM
                (iswtn_offsets axes ws (str_mul "a" k) k details dshape
                   (2 ^ (n - j - 1)))
                (product (seq 0 (2 ^ (n - j - 1))) k) acc
                (λ s x, keeps_iswtn_offsets _ _ _ _ _ _ _ s x)
                (popped loc (str_mul "a" k) w)) as Hkeep.
  rewrite Hfold in Hkeep. simpl in Hkeep.
  unfold dict_setitem, dict_read, dict_write, mbind, M_bind in Hset.
  injection Hset as <-. split.
  - intros k1 k2 v1 v2 H1 H2.
    apply (remove_dups_one shapes E); apply list_elem_of_In, in_map_iff.
    + exists (k1, v1). split; [done|]. apply list_elem_of_In. by apply elem_of_map_to_list.
    + exists (k2, v2). split; [done|]. apply list_elem_of_In. by apply elem_of_map_to_list.
  - intros l. simpl. rewrite Hkeep. rewrite Nat.eqb_refl.
    destruct (l =? loc) eqn:El.
    + apply Nat.eqb_eq in El as ->. rewrite insert_delete_eq. by apply insert_id.
    + done.
Qed.
End InverseLevels.

(** ** Validation in the inverse engines *)

Section InverseEngine.
Context {R W Wv : Type} {SR : Scalar R} {PR : Primitives R W Wv}.

Lemma swtn_object data wavelet level start_level axes (w : world R) :
  dtype_of data = object_ →
  swtn data wavelet level start_level axes w
  = (Raise (TypeError "Input must be a numeric array-like"), w).
Proof.
  intros Hd. unfold swtn, iscomplexobj. rewrite Hd.
  rewrite bool_decide_eq_false_2 by discriminate. rewrite andb_false_r.
  unfold swtn_direct. by rewrite bool_decide_eq_true_2.
Qed.

Lemma iswtn_axis_count coeffs wavelet axes (w : world R) loc0 k out :
  coeffs !! 0 = Some loc0 →
  max_key_len (dicts w loc0) = Ok k →
  dicts w loc0 !! str_mul "a" k = Some out →
  NoDup (map (normalize_axis (ndim out)) axes) →
  k ≠ length axes →
  iswtn coeffs wavelet (Some axes) w
  = (Raise (ValueError "The number of axes used in iswtn must match the number of dimensions transformed in swtn."), w).
Proof.
  intros Hc Hn Ha Hnd Hk. unfold iswtn, index, dict_get, mbind, M_bind, lift, dict_read.
  rewrite Hc, Hn, Ha. apply len_set_NoDup in Hnd. rewrite <- Hnd, Nat.eqb_refl. simpl.
  rewrite length_map. destruct (k =? length axes) eqn:E; [|done].
  by apply Nat.eqb_eq in E.
Qed.

(** A successful [iswtn] call found, at every level, details of one shape,
    and returns with every dictionary restored. *)
Lemma iswtn_ok_inv coeffs wavelet axes (w w' : world R) out loc0 k :
  coeffs !! 0 = Some loc0 →
  max_key_len (dicts w loc0) = Ok k →
  iswtn coeffs wavelet axes w = (Ok out, w') →
  (∀ j loc, coeffs !! j = Some loc →
            same_shapes (delete (str_mul "a" k) (dicts w loc))) ∧
  (∀ l, dicts w' l = dicts w l).
Proof.
  intros Hc Hk Hrun. unfold iswtn in Hrun.
  apply bind_ok in Hrun as (loc0' & w0 & Hidx & Hrun).
  apply lift_ok in Hidx as [Hidx ->]. unfold index in Hidx. rewrite Hc in Hidx.
  injection Hidx as <-.
  apply bind_ok in Hrun as (d0 & w0 & Hread & Hrun). injection Hread as <- <-.
  apply bind_ok in Hrun as (k' & w0 & Hmax & Hrun).
  apply lift_ok in Hmax as [Hmax ->]. rewrite Hk in Hmax. injection Hmax as <-.
  apply bind_ok in Hrun as (output & w0 & Hout & Hrun).
  apply lift_ok in Hout as [_ ->].
  set (axes' := map _ _) in Hrun.
  destruct (negb (length axes' =? len_set axes')); [discriminate|].
  destruct (negb (k =? length axes')); [discriminate|].
  apply bind_ok in Hrun as (ws & w1 & Hws & Hrun).
  apply lift_ok in Hws as [_ ->].
  apply bind_ok in Hrun as (r & w2 & Hfold & Hrun).
  apply mret_ok in Hrun as [_ ->].
  apply (foldM_each
           (λ wc, ∀ l, dicts wc l = dicts w l)
           (λ j, ∀ loc, coeffs !! j = Some loc →
                        same_shapes (delete (str_mul "a" k) (dicts w loc))))
    in Hfold as [Hdicts Hall]; [| |done].
  - split; [|done]. intros j loc Hj. rewrite Forall_forall in Hall.
    apply (Hall j); [|done]. apply elem_of_seq. apply lookup_lt_Some in Hj. lia.
  - intros s j wc s' wc' Hin HI Hstep.
    apply elem_of_seq in Hin. destruct (lookup_lt_is_Some_2 coeffs j) as [loc Hloc]; [lia|].
    destruct (iswtn_level_ok _ _ _ _ _ _ _ _ _ _ _ Hloc Hstep) as [Hsame Hkeep].
    split.
    + intros l. by rewrite Hkeep.
    + intros loc' Hloc'. rewrite Hloc in Hloc'. injection Hloc' as <-.
      by rewrite <- HI.
Qed.

Lemma iswt2_level_mismatch (ws : list Wv) coeffs n output j cA cH cV cD (w : world R) :
  coeffs !! j = Some (cA, (cH, cV, cD)) →
  shape cH ≠ shape cV ∨ shape cH ≠ shape cD →
  iswt2_level ws coeffs n output j w
  = (Raise (RuntimeError "Mismatch in shape of intermediate coefficient arrays"), w).
Proof.
  intros Hc Hne. unfold iswt2_level, index, mbind, M_bind, lift. rewrite Hc. simpl.
  destruct Hne as [Hne|Hne].
  - by rewrite (bool_decide_eq_false_2 _ Hne).
  - rewrite (bool_decide_eq_false_2 (shape cH = shape cD) Hne). by rewrite orb_true_r.
Qed.

(** C5 (amended): the shape check of the inverse engines covers the detail
    sub-bands only and is made level by level.  A successful [iswtn] call
    found, in every level, one shape for all sub-bands other than the
    all-approximation one; the pass for a level whose details differ in
    shape raises the shape-mismatch error before any primitive is invoked;
    [iswt2] compares [cH], [cV] and [cD] of the level, never [cA]. *)
Theorem inverse_checks_detail_shapes (coeffs : list nat) (wavelet : W)
    (axes : option (list Z)) (w w' : world R) (out : ndarray R) (loc0 k : nat)
    (axes' : list Z) (ws : list Wv) (n j loc : nat) (acc : slices * ndarray R)
    (a : ndarray R)
    (coeffs2 : list (ndarray R * (ndarray R * ndarray R * ndarray R)))
    (output cA cH cV cD : ndarray R) :
  (coeffs !! 0 = Some loc0 →
   max_key_len (dicts w loc0) = Ok k →
   iswtn coeffs wavelet axes w = (Ok out, w') →
   ∀ j loc, coeffs !! j = Some loc →
            same_shapes (delete (str_mul "a" k) (dicts w loc))) ∧
  (coeffs !! j = Some loc →
   dicts w loc !! str_mul "a" k = Some a →
   shape_mismatch (delete (str_mul "a" k) (dicts w loc)) →
   ∃ w1, iswtn_level coeffs axes' ws k n acc j w
         = (Raise (RuntimeError "Mismatch in shape of intermediate coefficient arrays"), w1)
         ∧ work w1 = work w) ∧
  (coeffs2 !! j = Some (cA, (cH, cV, cD)) →
   shape cH ≠ shape cV ∨ shape cH ≠ shape cD →
   iswt2_level ws coeffs2 n output j w
   = (Raise (RuntimeError "Mismatch in shape of intermediate coefficient arrays"), w)).
Proof.
  split; [|split].
  - intros Hc Hk Hrun. by destruct (iswtn_ok_inv _ _ _ _ _ _ _ _ Hc Hk Hrun).
  - intros Hc Ha Hm. eexists. split; [by eapply iswtn_level_mismatch|done].
  - apply iswt2_level_mismatch.
Qed.

(** C3 (amended): the dtype, dimensionality and duplicate-axis errors of
    [swtn], and the duplicate-axis and axis-count errors of [iswtn], are
    raised before any primitive is invoked and before anything is modified:
    the world is returned as it was.  The shape mismatch of [iswtn] is
    detected by the pass for the offending level, before any primitive is
    invoked for that level (earlier levels have been processed by then). *)
Theorem validation_precedes_transform_work (data : ndarray R) (coeffs : list nat)
    (wavelet : W) (level start_level : Z) (axes : list Z) (w : world R)
    (loc0 k : nat) (out a : ndarray R) (ws : list Wv) (n j loc : nat)
    (acc : slices * ndarray R) :
  (dtype_of data = object_ ∨ ndim data = 0 ∨
   ¬ NoDup (map (normalize_axis (ndim data)) axes) →
   ∃ e, swtn data wavelet level start_level (Some axes) w = (Raise e, w) ∧
        swtn_validation_error e) ∧
  (coeffs !! 0 = Some loc0 →
   max_key_len (dicts w loc0) = Ok k →
   dicts w loc0 !! str_mul "a" k = Some out →
   ¬ NoDup (map (normalize_axis (ndim out)) axes) ∨ k ≠ length axes →
   ∃ msg, iswtn coeffs wavelet (Some axes) w = (Raise (ValueError msg), w)) ∧
  (coeffs !! j = Some loc →
   dicts w loc !! str_mul "a" k = Some a →
   shape_mismatch (delete (str_mul "a" k) (dicts w loc)) →
   ∃ w1, iswtn_level coeffs axes ws k n acc j w
         = (Raise (RuntimeError "Mismatch in shape of intermediate coefficient arrays"), w1)
         ∧ work w1 = work w).
Proof.
  split; [|split].
  - intros [Hobj|[Hnd|Hdup]].
    + eexists. split; [by apply swtn_object | by left].
    + destruct (swtn_ndim0 data wavelet level start_level (Some axes) w Hnd)
        as (e & He & [->| ->]); eexists; (split; [exact He|]); [by left | by right; left].
    + by apply swtn_dup.
  - intros Hc Hk Ha Hbad.
    destruct (decide (NoDup (map (normalize_axis (ndim out)) axes))) as [Hnd|Hnd].
    + destruct Hbad as [Hbad|Hbad]; [done|].
      eexists. by eapply iswtn_axis_count.
    + eexists. by eapply iswtn_dup.
  - intros Hc Ha Hm. eexists. split; [by eapply iswtn_level_mismatch|done].
Qed.
End InverseEngine.

(** ** Axis subsets in [iswtn] *)

Section Frame.
Context {R W Wv : Type} {SR : Scalar R} {PR : Primitives R W Wv}.

Lemma update_left_half (a : ndarray R) f idx :
  shape a = [2; 4] → right_half idx →
  get (update_region a [[0; 1]; [0; 1]] f) idx = get a idx.
Proof.
  intros Hs Hidx. destruct a as [dt sh dat]. simpl in Hs. subst sh.
  destruct Hidx as [->|[->|[->| ->]]]; reflexivity.
Qed.

Lemma update_left_half_frame (a0 a : ndarray R) f :
  frame a0 a → frame a0 (update_region a [[0; 1]; [0; 1]] f).
Proof.
  intros [Hs Hg]. split; [exact Hs|].
  intros idx Hidx. rewrite update_left_half by done. by apply Hg.
Qed.

Lemma setitem_zero_frame (a0 a a' : ndarray R) :
  frame a0 a → setitem_zero a left_half = Ok a' → frame a0 a'.
Proof.
  intros Hf. unfold setitem_zero. rewrite (proj1 Hf).
  change (selection [2; 4] left_half) with (Ok [[0; 1]; [0; 1]]). simpl.
  intros [= <-]. by apply update_left_half_frame.
Qed.

Lemma iadd_item_frame (a0 a x a' : ndarray R) :
  frame a0 a → iadd_item a left_half x = Ok a' → frame a0 a'.
Proof.
  intros Hf. unfold iadd_item. rewrite (proj1 Hf).
  change (selection [2; 4] left_half) with (Ok [[0; 1]; [0; 1]]). simpl.
  destruct (broadcast_ok _ _); [|discriminate].
  intros [= <-]. by apply update_left_half_frame.
Qed.

Lemma idiv_item_frame (a0 a a' : ndarray R) n :
  frame a0 a → idiv_item a left_half n = Ok a' → frame a0 a'.
Proof.
  intros Hf. unfold idiv_item. rewrite (proj1 Hf).
  change (selection [2; 4] left_half) with (Ok [[0; 1]; [0; 1]]). simpl.
  intros [= <-]. by apply update_left_half_frame.
Qed.

Lemma choose_slices_indices l : ∀ st st',
  ofoldM choose_slices st l = Ok st' → indices st' = indices st.
Proof.
  induction l as [|[o ax] l IH]; intros st st' Hrun; simpl in Hrun.
  - by injection Hrun as <-.
  - apply obind_ok in Hrun as (st1 & Hstep & Hrun). apply IH in Hrun. rewrite Hrun.
    unfold choose_slices in Hstep.
    apply obind_ok in Hstep as (s & _ & Hstep).
    apply obind_ok in Hstep as (oes & _ & Hstep). by injection Hstep as <-.
Qed.

Lemma iswtn_phase_frame axes (ws : list Wv) key details approx a0 st out nt odds
    (w w' : world R) r :
  indices st = left_half → frame a0 out →
  iswtn_phase axes ws key details approx (st, out, nt) odds w = (Ok r, w') →
  indices r.1.1 = left_half ∧ frame a0 r.1.2.
Proof.
  intros Hi Hf Hrun. unfold iswtn_phase in Hrun.
  apply bind_ok in Hrun as (st1 & w1 & Hst & Hrun). apply lift_ok in Hst as [Hst _].
  apply choose_slices_indices in Hst.
  apply bind_ok in Hrun as (ds & w2 & _ & Hrun).
  apply bind_ok in Hrun as (aps & w3 & _ & Hrun).
  apply bind_ok in Hrun as (x & w4 & _ & Hrun).
  apply bind_ok in Hrun as (x' & w5 & _ & Hrun).
  apply bind_ok in Hrun as (out' & w6 & Hadd & Hrun). apply lift_ok in Hadd as [Hadd _].
  apply mret_ok in Hrun as [<- _]. simpl. rewrite Hst, Hi in *.
  split; [done | by eapply iadd_item_frame].
Qed.

(** The pass for offset 0 at step 1, axes [(1,)] and [dshape = (2, 4)]. *)
Lemma iswtn_offsets_frame (ws : list Wv) key details a0 out (w w' : world R) r :
  frame a0 out →
  iswtn_offsets [1%Z] ws key 1 details [2; 4] 1
    (mk_slices all2 all2 all2 all2, out) [0] w = (Ok r, w') →
  frame a0 r.2.
Proof.
  intros Hf Hrun. unfold iswtn_offsets in Hrun. cbv beta iota zeta in Hrun.
  apply bind_ok in Hrun as (st1 & w1 & Hst & Hrun). apply lift_ok in Hst as [Hst _].
  vm_compute in Hst. injection Hst as <-.
  apply bind_ok in Hrun as (out1 & w2 & Hzero & Hrun). apply lift_ok in Hzero as [Hzero _].
  apply (setitem_zero_frame a0) in Hzero; [|done].
  apply bind_ok in Hrun as ([[st2 out2] nt] & w3 & Hfold & Hrun).
  apply (foldM_invariant
           (λ (s : slices * ndarray R * nat) (_ : world R),
              indices s.1.1 = left_half ∧ frame a0 s.1.2)) in Hfold.
  - destruct Hfold as [Hi2 Hf2]. simpl in Hi2, Hf2.
    apply bind_ok in Hrun as (out3 & w4 & Hdiv & Hrun). apply lift_ok in Hdiv as [Hdiv _].
    apply mret_ok in Hrun as [<- _]. simpl. rewrite Hi2 in Hdiv.
    by eapply idiv_item_frame.
  - intros [[s o] n] odds wc r' wc' _ [Hi' Hf'] Hstep.
    by eapply iswtn_phase_frame.
  - split; [reflexivity | done].
Qed.

Lemma iswtn_level_frame (ws : list Wv) loc (cA cD : ndarray R) (w w' : world R) r :
  dicts w loc = {[ "a" := cA; "d" := cD ]} →
  shape cD = [2; 4] →
  frame cA cA →
  iswtn_level [loc] [1%Z] ws 1 1 (mk_slices all2 all2 all2 all2, cA) 0 w = (Ok r, w') →
  frame cA r.2.
Proof.
  intros Hd HsD Hf Hrun. unfold iswtn_level in Hrun. cbv zeta in Hrun.
  apply bind_ok in Hrun as (loc' & w0 & Hidx & Hrun).
  apply lift_ok in Hidx as [Hidx ->]. injection Hidx as <-.
  apply bind_ok in Hrun as (a & w1 & Hpop & Hrun).
  rewrite dict_pop_run, Hd in Hpop.
  change (({[ "a" := cA; "d" := cD ]} : gmap string (ndarray R)) !! str_mul "a" 1)
    with (Some cA) in Hpop.
  injection Hpop as <- <-.
  apply bind_ok in Hrun as (details & w2 & Hread & Hrun).
  injection Hread as <- <-. simpl dicts in Hrun. rewrite Nat.eqb_refl, Hd in Hrun.
  set (details := delete _ _) in Hrun.
  assert (Hl : map_to_list details = [("d", cD)]) by (vm_compute; reflexivity).
  rewrite Hl in Hrun. simpl map in Hrun. rewrite HsD in Hrun.
  apply bind_ok in Hrun as (dshape & w3 & Hds & Hrun).
  apply lift_ok in Hds as [Hds ->]. injection Hds as <-.
  change (negb (length (remove_dups [[2; 4]]) =? 1)) with false in Hrun.
  cbv iota in Hrun.
  change (product (seq 0 (2 ^ (1 - 0 - 1))) 1) with [[0]] in Hrun.
  change (2 ^ (1 - 0 - 1)) with 1 in Hrun.
  apply bind_ok in Hrun as (acc1 & w4 & Hfold & Hrun).
  simpl foldM in Hfold.
  apply bind_ok in Hfold as (acc2 & w5 & Hoff & Hfold).
  apply mret_ok in Hfold as [<- _].
  apply (iswtn_offsets_frame _ _ _ cA) in Hoff; [|done].
  apply bind_ok in Hrun as ([] & w6 & _ & Hrun).
  by apply mret_ok in Hrun as [<- _].
Qed.

(** The defect behind C1, for any scalar arithmetic and any implementation
    of the collaborators: a one-level coefficient list of 2x4 arrays,
    inverted along axis 1 only.  Whenever [iswtn] returns, columns 2 and 3
    of its result are the approximation coefficients it started from: the
    slices built from [zip(firsts, dshape, axes)] never reach them. *)
Lemma iswtn_axis1_keeps_right_half (wavelet : W) loc (cA cD out : ndarray R)
    (w w' : world R) :
  dicts w loc = {[ "a" := cA; "d" := cD ]} →
  shape cA = [2; 4] → shape cD = [2; 4] →
  iswtn [loc] wavelet (Some [1%Z]) w = (Ok out, w') →
  ∀ idx, right_half idx → get out idx = get cA idx.
Proof.
  intros Hd HsA HsD Hrun. unfold iswtn in Hrun.
  apply bind_ok in Hrun as (loc' & w0 & Hidx & Hrun).
  apply lift_ok in Hidx as [Hidx ->]. injection Hidx as <-.
  apply bind_ok in Hrun as (d0 & w0 & Hread & Hrun). injection Hread as <- <-.
  rewrite Hd in Hrun.
  change (max_key_len ({[ "a" := cA; "d" := cD ]} : gmap string (ndarray R)))
    with (Ok (A := nat) 1) in Hrun.
  apply bind_ok in Hrun as (k & w0 & Hk & Hrun).
  apply lift_ok in Hk as [Hk ->]. injection Hk as <-.
  change (dict_get ({[ "a" := cA; "d" := cD ]} : gmap string (ndarray R)) (str_mul "a" 1))
    with (Ok cA) in Hrun.
  apply bind_ok in Hrun as (output & w0 & Hout & Hrun).
  apply lift_ok in Hout as [Hout ->]. injection Hout as <-.
  unfold ndim in Hrun. rewrite HsA in Hrun.
  change (map (normalize_axis (length [2; 4])) [1%Z]) with [1%Z] in Hrun.
  change (negb (length [1%Z] =? len_set [1%Z])) with false in Hrun.
  change (negb (1 =? length [1%Z])) with false in Hrun.
  cbv iota zeta in Hrun.
  apply bind_ok in Hrun as (ws & w1 & Hws & Hrun). apply lift_ok in Hws as [_ ->].
  apply bind_ok in Hrun as (r & w2 & Hfold & Hrun).
  apply mret_ok in Hrun as [<- _].
  simpl foldM in Hfold.
  apply bind_ok in Hfold as (acc & w3 & Hlevel & Hfold).
  apply mret_ok in Hfold as [<- _].
  apply (iswtn_level_frame _ _ _ cD) in Hlevel; [by destruct Hlevel | done | done | by split].
Qed.
End Frame.

(** ** What the inverse transforms return *)

(** A run is determined by its outcome and the world it ends in. *)
Lemma run_eq {R A} (r : outcome A * world R) a : r.1 = Ok a → r = (Ok a, r.2).
Proof. destruct r as [o w]. simpl. by intros ->. Qed.

Lemma index_ok {A} (l : list A) i x : index l i = Ok x → l !! i = Some x.
Proof. unfold index. by destruct (l !! i); intros [= ->]. Qed.

Lemma ofoldM_invariant {A S} (I : S → Prop) (f : S → A → outcome S) l :
  (∀ s x s', I s → f s x = Ok s' → I s') →
  ∀ s s', I s → ofoldM f s l = Ok s' → I s'.
Proof.
  intros Hstep. induction l as [|x l IH]; intros s s' HI Hrun; simpl in Hrun.
  - by injection Hrun as <-.
  - apply obind_ok in Hrun as (s1 & Hf & Hrun). eauto.
Qed.

Section ResultShape.
Context {R W Wv : Type} {SR : Scalar R} {PR : Primitives R W Wv}.

Lemma like_trans (a b c : ndarray R) : like a b → like b c → like a c.
Proof. intros [? ?] [? ?]. split; congruence. Qed.

Lemma setitem_zero_like (a a' : ndarray R) sl : setitem_zero a sl = Ok a' → like a a'.
Proof.
  unfold setitem_zero. intros Hrun. apply obind_ok in Hrun as (sels & _ & Hrun).
  by injection Hrun as <-.
Qed.

Lemma iadd_item_like (a a' x : ndarray R) sl : iadd_item a sl x = Ok a' → like a a'.
Proof.
  unfold iadd_item. intros Hrun. apply obind_ok in Hrun as (sels & _ & Hrun).
  simpl in Hrun. destruct (broadcast_ok _ _); [|discriminate]. by injection Hrun as <-.
Qed.

Lemma idiv_item_like (a a' : ndarray R) sl n : idiv_item a sl n = Ok a' → like a a'.
Proof.
  unfold idiv_item. intros Hrun. apply obind_ok in Hrun as (sels & _ & Hrun).
  by injection Hrun as <-.
Qed.

Lemma setitem_like (a a' x : ndarray R) sl : setitem a sl x = Ok a' → like a a'.
Proof.
  unfold setitem. intros Hrun. apply obind_ok in Hrun as (sels & _ & Hrun).
  simpl in Hrun. destruct (broadcast_ok _ _); [|discriminate]. by injection Hrun as <-.
Qed.

Lemma put_like (a a' x : ndarray R) ix : put a ix x = Ok a' → like a a'.
Proof.
  unfold put. destruct (shape a) as [|n rest] eqn:Hs; [discriminate|].
  destruct (negb _); [discriminate|]. destruct (negb _); [discriminate|].
  intros [= <-]. generalize (seq 0 (length ix)). intros l.
  assert (Hgen : ∀ b, like a b →
    like a (fold_left
              (λ acc p,
                 tabulate (dtype_of acc) (shape acc)
                   (λ idx, match idx with
                           | i :: idx' =>
                               if i =? nth p ix 0
                               then bget x (length ix :: rest) (p :: idx')
                               else get acc idx
                           | [] => get acc idx
                           end)) l b)).
  { induction l as [|p l IH]; intros b Hb; simpl; [done|]. apply IH.
    destruct Hb. by split. }
  apply Hgen. by split.
Qed.

Lemma iswtn_phase_like axes (ws : list Wv) key details approx a0 acc odds
    (w w' : world R) r :
  like a0 acc.1.2 →
  iswtn_phase axes ws key details approx acc odds w = (Ok r, w') →
  like a0 r.1.2.
Proof.
  destruct acc as [[st out] nt]. intros Hl Hrun. unfold iswtn_phase in Hrun.
  apply bind_ok in Hrun as (st1 & w1 & _ & Hrun).
  apply bind_ok in Hrun as (ds & w2 & _ & Hrun).
  apply bind_ok in Hrun as (aps & w3 & _ & Hrun).
  apply bind_ok in Hrun as (x & w4 & _ & Hrun).
  apply bind_ok in Hrun as (x' & w5 & _ & Hrun).
  apply bind_ok in Hrun as (out' & w6 & Hadd & Hrun). apply lift_ok in Hadd as [Hadd _].
  apply mret_ok in Hrun as [<- _]. simpl in *.
  eapply like_trans; [exact Hl | by eapply iadd_item_like].
Qed.

Lemma iswtn_offsets_like axes (ws : list Wv) key k details dshape step a0 acc firsts
    (w w' : world R) r :
  like a0 acc.2 →
  iswtn_offsets axes ws key k details dshape step acc firsts w = (Ok r, w') →
  like a0 r.2.
Proof.
  destruct acc as [st out]. intros Hl Hrun. unfold iswtn_offsets in Hrun.
  apply bind_ok in Hrun as (st1 & w1 & _ & Hrun).
  apply bind_ok in Hrun as (out1 & w2 & Hzero & Hrun). apply lift_ok in Hzero as [Hzero _].
  apply bind_ok in Hrun as ([[st2 out2] nt] & w3 & Hfold & Hrun).
  apply (foldM_invariant (λ (s : slices * ndarray R * nat) _, like a0 s.1.2))
    in Hfold.
  - apply bind_ok in Hrun as (out3 & w4 & Hdiv & Hrun). apply lift_ok in Hdiv as [Hdiv _].
    apply mret_ok in Hrun as [<- _]. simpl in *.
    eapply like_trans; [exact Hfold | by eapply idiv_item_like].
  - intros s odds wc s' wc' _ Hs Hstep. by eapply iswtn_phase_like.
  - simpl in *. eapply like_trans; [exact Hl | by eapply setitem_zero_like].
Qed.

Lemma iswtn_level_like coeffs axes (ws : list Wv) k n a0 acc j (w w' : world R) r :
  like a0 acc.2 →
  iswtn_level coeffs axes ws k n acc j w = (Ok r, w') →
  like a0 r.2.
Proof.
  intros Hl Hrun. unfold iswtn_level in Hrun.
  apply bind_ok in Hrun as (loc & w0 & _ & Hrun).
  apply bind_ok in Hrun as (a & w1 & _ & Hrun).
  apply bind_ok in Hrun as (details & w2 & _ & Hrun).
  apply bind_ok in Hrun as (dshape & w3 & _ & Hrun).
  destruct (negb _); [discriminate|].
  apply bind_ok in Hrun as (acc1 & w4 & Hfold & Hrun).
  apply bind_ok in Hrun as ([] & w5 & _ & Hrun).
  apply mret_ok in Hrun as [<- _].
  apply (foldM_invariant (λ (s : slices * ndarray R) _, like a0 s.2)) in Hfold; [done| |done].
  intros s firsts wc s' wc' _ Hs Hstep. by eapply iswtn_offsets_like.
Qed.

(** X1: the array [iswtn] returns has the shape and the element type of the
    coarsest approximation [coeffs[0]['a'*k]] it started from, whatever the
    detail arrays and the inverse primitive are. *)
Theorem iswtn_result_like_coarsest_approximation (coeffs : list nat) (wavelet : W)
    (axes : option (list Z)) (w w' : world R) (out : ndarray R) :
  iswtn coeffs wavelet axes w = (Ok out, w') →
  ∃ loc0 k a,
    coeffs !! 0 = Some loc0 ∧
    max_key_len (dicts w loc0) = Ok k ∧
    dicts w loc0 !! str_mul "a" k = Some a ∧
    shape out = shape a ∧ dtype_of out = dtype_of a.
Proof.
  intros Hrun. unfold iswtn in Hrun.
  apply bind_ok in Hrun as (loc0 & w0 & Hidx & Hrun).
  apply lift_ok in Hidx as [Hidx ->]. apply index_ok in Hidx.
  apply bind_ok in Hrun as (d0 & w0 & Hread & Hrun). injection Hread as <- <-.
  apply bind_ok in Hrun as (k & w0 & Hmax & Hrun). apply lift_ok in Hmax as [Hmax ->].
  apply bind_ok in Hrun as (a & w0 & Ha & Hrun). apply lift_ok in Ha as [Ha ->].
  unfold dict_get in Ha.
  destruct (dicts w loc0 !! str_mul "a" k) as [a'|] eqn:Ea; [|discriminate].
  injection Ha as ->.
  destruct (negb _); [discriminate|]. destruct (negb _); [discriminate|].
  apply bind_ok in Hrun as (ws & w1 & _ & Hrun).
  apply bind_ok in Hrun as (r & w2 & Hfold & Hrun).
  apply mret_ok in Hrun as [<- _].
  apply (foldM_invariant (λ (s : slices * ndarray R) _, like a s.2)) in Hfold.
  - exists loc0, k, a. destruct Hfold. by repeat split.
  - intros s j wc s' wc' _ Hs Hstep. by eapply iswtn_level_like.
  - by split.
Qed.

(** X2: a call of [iswtn] that returns leaves every dictionary of the caller
    with the entries it had: each level's all-approximation entry is put back. *)
Theorem iswtn_restores_dictionaries (coeffs : list nat) (wavelet : W)
    (axes : option (list Z)) (w w' : world R) (out : ndarray R) :
  iswtn coeffs wavelet axes w = (Ok out, w') →
  ∀ l, dicts w' l = dicts w l.
Proof.
  intros Hrun. pose proof Hrun as Hrun'. unfold iswtn in Hrun'.
  apply bind_ok in Hrun' as (loc0 & w0 & Hidx & Hrun').
  apply lift_ok in Hidx as [Hidx ->]. apply index_ok in Hidx.
  apply bind_ok in Hrun' as (d0 & w0 & Hread & Hrun'). injection Hread as <- <-.
  apply bind_ok in Hrun' as (k & w0 & Hmax & _). apply lift_ok in Hmax as [Hmax _].
  by destruct (iswtn_ok_inv _ _ _ _ _ _ _ _ Hidx Hmax Hrun).
Qed.
End ResultShape.

Section InverseResults.
Context {R W Wv : Type} {SR : Scalar R} {PR : Primitives R W Wv}.

Lemma iswt_first_like (wavelet : Wv) cD step (a0 output : ndarray R) first
    (w w' : world R) out :
  like a0 output →
  iswt_first wavelet cD step output first w = (Ok out, w') →
  like a0 out.
Proof.
  intros Hl Hrun. unfold iswt_first in Hrun.
  apply bind_ok in Hrun as (n & w0 & _ & Hrun).
  apply bind_ok in Hrun as (oe & w1 & _ & Hrun).
  apply bind_ok in Hrun as (de & w2 & _ & Hrun).
  apply bind_ok in Hrun as (x1 & w3 & _ & Hrun).
  apply bind_ok in Hrun as (oo & w4 & _ & Hrun).
  apply bind_ok in Hrun as (do & w5 & _ & Hrun).
  apply bind_ok in Hrun as (x2 & w6 & _ & Hrun).
  apply bind_ok in Hrun as (s & w7 & _ & Hrun).
  apply lift_ok in Hrun as [Hput _].
  eapply like_trans; [exact Hl | by eapply put_like].
Qed.

Lemma iswt_level_like (wavelet : Wv) coeffs n (a0 output : ndarray R) j
    (w w' : world R) out :
  like a0 output →
  iswt_level wavelet coeffs n output j w = (Ok out, w') →
  like a0 out.
Proof.
  intros Hl Hrun. unfold iswt_level in Hrun.
  apply bind_ok in Hrun as (c & w0 & _ & Hrun).
  apply (foldM_invariant (λ (s : ndarray R) _, like a0 s)) in Hrun; [done| |done].
  intros s first wc s' wc' _ Hs Hstep. by eapply iswt_first_like.
Qed.

Lemma iswt_direct_like (coeffs : list (ndarray R * ndarray R)) (wavelet : W)
    (w w' : world R) out :
  iswt_direct coeffs wavelet w = (Ok out, w') →
  ∃ c0, coeffs !! 0 = Some c0 ∧ like c0.1 out.
Proof.
  intros Hrun. unfold iswt_direct in Hrun.
  apply bind_ok in Hrun as (c0 & w0 & Hidx & Hrun).
  apply lift_ok in Hidx as [Hidx _]. apply index_ok in Hidx.
  apply bind_ok in Hrun as (wv & w1 & _ & Hrun).
  exists c0. split; [done|].
  apply (foldM_invariant (λ (s : ndarray R) _, like c0.1 s)) in Hrun; [done| |by split].
  intros s j wc s' wc' _ Hs Hstep. by eapply iswt_level_like.
Qed.

(** X3: the signal [iswt] returns has the shape of the coarsest approximation
    [coeffs[0][0]]; outside the complex-splitting branch it has its element
    type as well. *)
Theorem iswt_result_shape (coeffs : list (ndarray R * ndarray R)) (wavelet : W)
    (w w' : world R) (out : ndarray R) :
  iswt coeffs wavelet w = (Ok out, w') →
  ∃ c0, coeffs !! 0 = Some c0 ∧
        shape out = shape c0.1 ∧
        (negb _have_c99_complex && iscomplexobj c0.1 = false →
         dtype_of out = dtype_of c0.1).
Proof.
  intros Hrun. unfold iswt in Hrun.
  apply bind_ok in Hrun as (c0 & w0 & Hidx & Hrun).
  apply lift_ok in Hidx as [Hidx ->]. apply index_ok in Hidx.
  exists c0. split; [done|].
  destruct (negb _have_c99_complex && iscomplexobj c0.1) eqn:Hc.
  - apply bind_ok in Hrun as (re & w1 & Hre & Hrun).
    apply bind_ok in Hrun as (im & w2 & Him & Hrun).
    apply lift_ok in Hrun as [Hjoin _].
    apply iswt_direct_like in Hre as (cr & Hcr & Hlr & _).
    apply iswt_direct_like in Him as (ci & Hci & Hli & _).
    rewrite list_lookup_fmap, Hidx in Hcr, Hci.
    injection Hcr as <-. injection Hci as <-. simpl in *.
    rewrite shape_real in Hlr.
    split; [|discriminate].
    rewrite (join_complex_shape re im out); [done | congruence | done].
  - apply iswt_direct_like in Hrun as (c0' & Hc0 & Hs & Hd).
    rewrite Hidx in Hc0. injection Hc0 as <-. by split.
Qed.

Lemma iswt2_offsets_like (ws : list Wv) cH cV cD step (a0 output : ndarray R) first
    (w w' : world R) out :
  like a0 output →
  iswt2_offsets ws cH cV cD step output first w = (Ok out, w') →
  like a0 out.
Proof.
  destruct first as [fh fw]. intros Hl Hrun. unfold iswt2_offsets in Hrun.
  do 13 (apply bind_ok in Hrun as (? & ? & _ & Hrun)).
  apply lift_ok in Hrun as [Hset _].
  eapply like_trans; [exact Hl | by eapply setitem_like].
Qed.

Lemma iswt2_level_inv (ws : list Wv) coeffs n (a0 output : ndarray R) j
    (w w' : world R) out :
  like a0 output →
  iswt2_level ws coeffs n output j w = (Ok out, w') →
  like a0 out ∧
  ∃ cA cH cV cD, coeffs !! j = Some (cA, (cH, cV, cD)) ∧
                 shape cH = shape cV ∧ shape cH = shape cD.
Proof.
  intros Hl Hrun. unfold iswt2_level in Hrun.
  apply bind_ok in Hrun as ([cA [[cH cV] cD]] & w0 & Hidx & Hrun).
  apply lift_ok in Hidx as [Hidx ->]. apply index_ok in Hidx. simpl in Hrun.
  destruct (bool_decide (shape cH = shape cV)) eqn:E1; [|discriminate].
  destruct (bool_decide (shape cH = shape cD)) eqn:E2; [|discriminate].
  simpl in Hrun. apply bool_decide_eq_true in E1, E2. split.
  - apply (foldM_invariant (λ (s : ndarray R) _, like a0 s)) in Hrun; [done| |done].
    intros s first wc s' wc' _ Hs Hstep. by eapply iswt2_offsets_like.
  - by exists cA, cH, cV, cD.
Qed.

(** X4: the image [iswt2] returns is two-dimensional and has the shape and
    the element type of the coarsest approximation [coeffs[0][0]]. *)
Theorem iswt2_result_like_coarsest_approximation
    (coeffs : list (ndarray R * (ndarray R * ndarray R * ndarray R)))
    (wavelet : W) (w w' : world R) (out : ndarray R) :
  iswt2 coeffs wavelet w = (Ok out, w') →
  ∃ c0, coeffs !! 0 = Some c0 ∧
        shape out = shape c0.1 ∧ dtype_of out = dtype_of c0.1 ∧ ndim out = 2.
Proof.
  intros Hrun. unfold iswt2 in Hrun.
  apply bind_ok in Hrun as (c0 & w0 & Hidx & Hrun).
  apply lift_ok in Hidx as [Hidx ->]. apply index_ok in Hidx.
  destruct (ndim c0.1 =? 2) eqn:E; [|discriminate]. simpl in Hrun.
  apply Nat.eqb_eq in E.
  apply bind_ok in Hrun as (ws & w1 & _ & Hrun).
  apply (foldM_invariant (λ (s : ndarray R) _, like c0.1 s)) in Hrun.
  - destruct Hrun as [Hs Hd]. exists c0. repeat split; [done..|].
    unfold ndim in *. by rewrite Hs.
  - intros s j wc s' wc' _ Hs Hstep. by eapply iswt2_level_inv.
  - by split.
Qed.

(** X5: a call of [iswt2] that returns found, at every level of the
    coefficient list, detail arrays [cH], [cV] and [cD] of one shape. *)
Theorem iswt2_success_details_share_shape
    (coeffs : list (ndarray R * (ndarray R * ndarray R * ndarray R)))
    (wavelet : W) (w w' : world R) (out : ndarray R) :
  iswt2 coeffs wavelet w = (Ok out, w') →
  ∀ j cA cH cV cD, coeffs !! j = Some (cA, (cH, cV, cD)) →
                   shape cH = shape cV ∧ shape cH = shape cD.
Proof.
  intros Hrun. unfold iswt2 in Hrun.
  apply bind_ok in Hrun as (c0 & w0 & Hidx & Hrun).
  destruct (negb _); [discriminate|].
  apply bind_ok in Hrun as (ws & w1 & _ & Hrun).
  apply (foldM_each (λ _, True)
           (λ j, ∀ cA cH cV cD, coeffs !! j = Some (cA, (cH, cV, cD)) →
                                shape cH = shape cV ∧ shape cH = shape cD))
    in Hrun as [_ Hall]; [| |done].
  - intros j cA cH cV cD Hj. rewrite Forall_forall in Hall.
    apply (Hall j) with cA; [|done]. apply elem_of_seq. apply lookup_lt_Some in Hj. lia.
  - intros s j wc s' wc' _ _ Hstep. split; [done|].
    apply (iswt2_level_inv _ _ _ s s) in Hstep as [_ (cA & cH & cV & cD & Hj & H1 & H2)];
      [|by split].
    intros cA' cH' cV' cD' Hj'. rewrite Hj in Hj'. by injection Hj' as _ <- <- <-.
Qed.

Lemma iswt2_level_details (ws : list Wv)
    (c1 c2 : list (ndarray R * (ndarray R * ndarray R * ndarray R)))
    n output j (w : world R) :
  map snd c1 = map snd c2 →
  iswt2_level ws c1 n output j w = iswt2_level ws c2 n output j w.
Proof.
  intros Hd. unfold iswt2_level, index, mbind, M_bind, lift.
  assert (Hl : snd <$> c1 !! j = snd <$> c2 !! j).
  { rewrite <- !list_lookup_fmap. change (snd <$> c1) with (map snd c1).
    change (snd <$> c2) with (map snd c2). by rewrite Hd. }
  destruct (c1 !! j) as [[a1 d1]|], (c2 !! j) as [[a2 d2]|];
    simpl in Hl; try discriminate; [|done].
  injection Hl as ->. done.
Qed.

(** X6: [iswt2] depends on its coefficient list only through the coarsest
    approximation [coeffs[0][0]] and the detail triples: two lists that
    agree on those give the same outcome in the same world, whatever the
    approximation arrays of the other levels are. *)
Theorem iswt2_ignores_finer_approximations
    (c1 c2 : list (ndarray R * (ndarray R * ndarray R * ndarray R)))
    (wavelet : W) (w : world R) :
  fst <$> c1 !! 0 = fst <$> c2 !! 0 →
  map snd c1 = map snd c2 →
  iswt2 c1 wavelet w = iswt2 c2 wavelet w.
Proof.
  intros Ha Hd. unfold iswt2, index, mbind, M_bind, lift.
  assert (Hlen : length c1 = length c2).
  { rewrite <- (length_map snd c1), Hd. apply length_map. }
  destruct (c1 !! 0) as [[a1 d1]|], (c2 !! 0) as [[a2 d2]|];
    simpl in Ha; try discriminate; [|done].
  injection Ha as ->. simpl.
  destruct (negb (ndim a2 =? 2)); [done|].
  destruct (_wavelets_per_axis wavelet [0%Z; 1%Z]) as [ws|e]; [|done].
  rewrite Hlen. apply foldM_ext. intros. by apply iswt2_level_details.
Qed.

End InverseResults.

(** ** The approximations [iswtn] reads *)

Lemma blind_lift {R A} (o : outcome A) : world_blind (lift o : M R A).
Proof. done. Qed.

Lemma blind_call {R A} (o : outcome A) : world_blind (call o : M R A).
Proof. done. Qed.

Lemma blind_mret {R A} (a : A) : world_blind (mret a : M R A).
Proof. done. Qed.

Lemma blind_bind {R A B} (m : M R A) (k : A → M R B) :
  world_blind m → (∀ a, world_blind (k a)) → world_blind (x ← m; k x).
Proof.
  intros Hm Hk w1 w2. unfold mbind, M_bind. specialize (Hm w1 w2).
  destruct (m w1) as [[a1|e1] w1'], (m w2) as [[a2|e2] w2']; simpl in Hm;
    try discriminate; [|simpl; congruence].
  injection Hm as ->. apply Hk.
Qed.

Lemma blind_foldM {R A S} (f : S → A → M R S) l s :
  (∀ s x, world_blind (f s x)) → world_blind (foldM f s l).
Proof.
  intros Hf. revert s. induction l as [|x l IH]; intros s; simpl.
  - apply blind_mret.
  - apply blind_bind; [apply Hf | apply IH].
Qed.

(** Two runs of a loop from related worlds have the same outcome when each
    pass has, and a pass that returns in both keeps the worlds related. *)
Lemma foldM_related {R A S} (I : world R → world R → Prop) (f : S → A → M R S) l :
  (∀ s x w1 w2, x ∈ l → I w1 w2 →
     (f s x w1).1 = (f s x w2).1 ∧
     ∀ s1 w1' s2 w2', f s x w1 = (Ok s1, w1') → f s x w2 = (Ok s2, w2') → I w1' w2') →
  ∀ s w1 w2, I w1 w2 → (foldM f s l w1).1 = (foldM f s l w2).1.
Proof.
  induction l as [|x l IH]; intros Hstep s w1 w2 HI; simpl; [done|].
  unfold mbind, M_bind.
  destruct (Hstep s x w1 w2 ltac:(by left) HI) as [Heq Hnext].
  destruct (f s x w1) as [[s1|e1] w1'] eqn:E1, (f s x w2) as [[s2|e2] w2'] eqn:E2;
    simpl in Heq; try discriminate; [|simpl; congruence].
  injection Heq as ->. apply IH.
  - intros ? ? ? ? Hin. apply Hstep. by right.
  - by eapply Hnext.
Qed.

Section InverseApproximations.
Context {R W Wv : Type} {SR : Scalar R} {PR : Primitives R W Wv}.

Lemma blind_iswtn_phase axes (ws : list Wv) key_a details approx acc odds :
  world_blind (iswtn_phase axes ws key_a details approx acc odds : M R _).
Proof.
  destruct acc as [[st output] nt]. unfold iswtn_phase.
  repeat (first [apply blind_bind; [|intros ?] | apply blind_lift | apply blind_call
                | apply blind_mret]).
Qed.

Lemma blind_iswtn_offsets axes (ws : list Wv) key_a k details dshape step acc firsts :
  world_blind (iswtn_offsets axes ws key_a k details dshape step acc firsts : M R _).
Proof.
  destruct acc as [st output]. unfold iswtn_offsets.
  apply blind_bind; [apply blind_lift | intros st1].
  apply blind_bind; [apply blind_lift | intros out1].
  apply blind_bind; [apply blind_foldM; intros; apply blind_iswtn_phase | intros [[st2 out2] nt]].
  apply blind_bind; [apply blind_lift | intros out3]. apply blind_mret.
Qed.

(** The level pass reads the dictionary of its level only through the
    entries other than the all-approximation one. *)
Lemma iswtn_level_same_but coeffs axes (ws : list Wv) k n acc j loc (w1 w2 : world R) :
  coeffs !! j = Some loc →
  same_but (str_mul "a" k) loc w1 w2 →
  (iswtn_level coeffs axes ws k n acc j w1).1
  = (iswtn_level coeffs axes ws k n acc j w2).1.
Proof.
  intros Hc [Hs Hd]. unfold iswtn_level, index. rewrite Hc.
  unfold mbind, M_bind, lift, dict_read, dict_setitem, dict_write.
  rewrite !dict_pop_run.
  destruct (dicts w1 loc !! str_mul "a" k) as [a1|] eqn:E1,
           (dicts w2 loc !! str_mul "a" k) as [a2|] eqn:E2.
  2:{ destruct Hs as [Hs _]. destruct (Hs ltac:(by eexists)) as [? ?]. discriminate. }
  2:{ destruct Hs as [_ Hs]. destruct (Hs ltac:(by eexists)) as [? ?]. discriminate. }
  2:{ done. }
  simpl. rewrite !Nat.eqb_refl, Hd.
  set (details := delete (str_mul "a" k) (dicts w2 loc)).
  destruct (map _ (map_to_list details) !! 0) as [dshape|]; [|done].
  destruct (negb _); [done|].
  pose proof (blind_foldM
                (iswtn_offsets axes ws (str_mul "a" k) k details dshape
                   (2 ^ (n - j - 1)))
                (product (seq 0 (2 ^ (n - j - 1))) k) acc
                (λ s x, blind_iswtn_offsets _ _ _ _ _ _ _ s x)
                (popped loc (str_mul "a" k) w1) (popped loc (str_mul "a" k) w2))
    as Hblind.
  destruct (foldM _ acc _ (popped loc (str_mul "a" k) w1)) as [[r1|e1] w1'],
           (foldM _ acc _ (popped loc (str_mul "a" k) w2)) as [[r2|e2] w2'];
    simpl in Hblind; try discriminate; [|simpl; congruence].
  by injection Hblind as ->.
Qed.

(** X7: [iswtn] reads the approximation of the first dictionary only.  Two
    stores whose dictionaries agree at the first level, and at every other
    level on all entries but the all-approximation one, give the same
    outcome: the same array or the same error. *)
Theorem iswtn_ignores_finer_approximations (coeffs : list nat) (wavelet : W)
    (axes : option (list Z)) (w1 w2 : world R) (loc0 k : nat) :
  coeffs !! 0 = Some loc0 →
  dicts w1 loc0 = dicts w2 loc0 →
  max_key_len (dicts w1 loc0) = Ok k →
  (∀ loc, loc ∈ coeffs → same_but (str_mul "a" k) loc w1 w2) →
  (iswtn coeffs wavelet axes w1).1 = (iswtn coeffs wavelet axes w2).1.
Proof.
  intros Hc H0 Hk Hsame. unfold iswtn, index. rewrite Hc.
  unfold mbind, M_bind, lift, dict_read. cbv beta iota.
  rewrite <- H0, Hk.
  destruct (dict_get (dicts w1 loc0) (str_mul "a" k)) as [output|e]; [|done].
  set (axes' := map _ _).
  destruct (negb (length axes' =? len_set axes')); [done|].
  destruct (negb (k =? length axes')); [done|].
  destruct (_wavelets_per_axis wavelet axes') as [ws|e]; [|done].
  set (body := iswtn_level coeffs axes' ws k (length coeffs)).
  set (s0 := (_, output)).
  pose proof (foldM_related
                (λ c1 c2 : world R, (∀ l, dicts c1 l = dicts w1 l) ∧
                                    (∀ l, dicts c2 l = dicts w2 l))
                body (seq 0 (length coeffs))) as Hfold.
  specialize (Hfold) with (s := s0) (w1 := w1) (w2 := w2).
  lapply Hfold; clear Hfold.
  - intros Hfold. specialize (Hfold ltac:(by split)).
    destruct (foldM body s0 _ w1) as [[r1|e1] w1'],
             (foldM body s0 _ w2) as [[r2|e2] w2'];
      simpl in Hfold; try discriminate; simpl; congruence.
  - intros s j c1 c2 Hin [Hc1 Hc2].
    apply elem_of_seq in Hin.
    destruct (lookup_lt_is_Some_2 coeffs j) as [loc Hloc]; [lia|].
    split.
    + apply (iswtn_level_same_but _ _ _ _ _ _ _ loc); [done|].
      unfold same_but. rewrite Hc1, Hc2. apply Hsame.
      by eapply list_elem_of_lookup_2.
    + intros s1 c1' s2 c2' Hr1 Hr2.
      destruct (iswtn_level_ok _ _ _ _ _ _ _ _ _ _ _ Hloc Hr1) as [_ Hk1].
      destruct (iswtn_level_ok _ _ _ _ _ _ _ _ _ _ _ Hloc Hr2) as [_ Hk2].
      split; intros l; [by rewrite Hk1 | by rewrite Hk2].
Qed.

End InverseApproximations.

(** ** Axis arguments, depth and the entry checks *)

Lemma normalize_axis_idemp nd a :
  (- Z.of_nat nd ≤ a)%Z →
  normalize_axis nd (normalize_axis nd a) = normalize_axis nd a.
Proof.
  intros Ha. unfold normalize_axis.
  destruct (a <? 0)%Z eqn:E; [|by rewrite E].
  destruct (a + Z.of_nat nd <? 0)%Z eqn:E'; [|done].
  apply Z.ltb_lt in E'. lia.
Qed.

Lemma normalize_axes_idemp nd (axes : list Z) :
  Forall (λ a, (- Z.of_nat nd ≤ a)%Z) axes →
  map (normalize_axis nd) (map (normalize_axis nd) axes) = map (normalize_axis nd) axes.
Proof.
  induction 1 as [|a axes Ha _ IH]; simpl; [done|].
  by rewrite IH, normalize_axis_idemp.
Qed.

Lemma normalize_py_range nd :
  map (normalize_axis nd) (py_range 0 (Z.of_nat nd)) = py_range 0 (Z.of_nat nd).
Proof.
  unfold py_range. rewrite map_map. apply map_ext. intros k. unfold normalize_axis.
  destruct (0 + Z.of_nat k <? 0)%Z eqn:E; [|done]. apply Z.ltb_lt in E. lia.
Qed.

Lemma NoDup_py_range a b : NoDup (py_range a b).
Proof.
  unfold py_range.
  assert (Hinj : Inj eq eq (λ k : nat, (a + Z.of_nat k)%Z)) by (intros x y Hxy; lia).
  apply (NoDup_fmap_2 (λ k, (a + Z.of_nat k)%Z)), NoDup_seq.
Qed.

Lemma py_range_empty a b : (b ≤ a)%Z → py_range a b = [].
Proof. intros Hb. unfold py_range. by replace (Z.to_nat (b - a)) with 0 by lia. Qed.

Section Axes.
Context {R W Wv : Type} {SR : Scalar R} {PR : Primitives R W Wv}.

Lemma ndim_real (a : ndarray R) : ndim (real a) = ndim a.
Proof. unfold ndim. by rewrite shape_real. Qed.

(** X8: outside the complex-splitting branch, [swt] rejects an axis that is
    out of range after one wrap of a negative index, once the wavelet is
    resolved and before the transform primitive is invoked: the world is
    returned as it was. *)
Theorem swt_axis_out_of_range (data : ndarray R) (wavelet : W) (wv : Wv)
    (level : option Z) (start_level axis : Z) (w : world R) :
  negb _have_c99_complex && iscomplexobj data = false →
  _as_wavelet wavelet = Ok wv →
  (axis < - Z.of_nat (ndim data) ∨ Z.of_nat (ndim data) ≤ axis)%Z →
  swt data wavelet level start_level axis w
  = (Raise (ValueError "Axis greater than data dimensions"), w).
Proof.
  intros Hc Hw Hax. unfold swt. rewrite Hc. unfold swt_direct.
  unfold mbind, M_bind, lift. rewrite Hw.
  change (ndim (astype (_check_dtype data) data)) with (ndim data).
  set (nd := ndim data) in *.
  assert (Hbad : (0 <=? normalize_axis nd axis)%Z
                 && (normalize_axis nd axis <? Z.of_nat nd)%Z = false).
  { unfold normalize_axis. apply andb_false_iff.
    destruct (axis <? 0)%Z eqn:E.
    - apply Z.ltb_lt in E. destruct Hax as [Hax|Hax]; [|lia].
      left. apply Z.leb_gt. lia.
    - apply Z.ltb_ge in E. destruct Hax as [Hax|Hax]; [lia|].
      right. apply Z.ltb_ge. lia. }
  by rewrite Hbad.
Qed.

(** X9: a negative [axis] counts from the last axis: for
    [-ndim <= axis < 0], [swt] with [axis] is [swt] with [axis + ndim], in
    both branches. *)
Theorem swt_negative_axis (data : ndarray R) (wavelet : W)
    (level : option Z) (start_level axis : Z) (w : world R) :
  (- Z.of_nat (ndim data) ≤ axis < 0)%Z →
  swt data wavelet level start_level axis w
  = swt data wavelet level start_level (axis + Z.of_nat (ndim data)) w.
Proof.
  intros Hax. unfold swt.
  destruct (negb _have_c99_complex && iscomplexobj data); [done|].
  unfold swt_direct.
  change (ndim (astype (_check_dtype data) data)) with (ndim data).
  replace (normalize_axis (ndim data) (axis + Z.of_nat (ndim data)))
    with (normalize_axis (ndim data) axis); [done|].
  unfold normalize_axis.
  destruct (axis <? 0)%Z eqn:E1; [|apply Z.ltb_ge in E1; lia].
  destruct (axis + Z.of_nat (ndim data) <? 0)%Z eqn:E2; [|done].
  apply Z.ltb_lt in E2. lia.
Qed.

Lemma swtn_direct_negative_axes (data : ndarray R) wavelet level start_level axes
    (w : world R) :
  Forall (λ a, (- Z.of_nat (ndim data) ≤ a)%Z) axes →
  swtn_direct data wavelet level start_level (Some axes) w
  = swtn_direct data wavelet level start_level
      (Some (map (normalize_axis (ndim data)) axes)) w.
Proof. intros Hax. unfold swtn_direct. by rewrite (normalize_axes_idemp _ _ Hax). Qed.

(** X10: negative entries of [axes] count from the last axis: when every
    entry is at least [-ndim], [swtn] with [axes] is [swtn] with the
    normalised axes, in both branches. *)
Theorem swtn_negative_axes (data : ndarray R) (wavelet : W)
    (level start_level : Z) (axes : list Z) (w : world R) :
  Forall (λ a, (- Z.of_nat (ndim data) ≤ a)%Z) axes →
  swtn data wavelet level start_level (Some axes) w
  = swtn data wavelet level start_level
      (Some (map (normalize_axis (ndim data)) axes)) w.
Proof.
  intros Hax. unfold swtn.
  destruct (negb _have_c99_complex && iscomplexobj data).
  - unfold mbind, M_bind.
    rewrite (swtn_direct_negative_axes (real data)) by (by rewrite ndim_real).
    rewrite ndim_real.
    destruct (swtn_direct (real data) _ _ _ _ w) as [[re|e] w1]; [|done].
    rewrite (swtn_direct_negative_axes (imag data)) by done.
    done.
  - by apply swtn_direct_negative_axes.
Qed.

Lemma swtn_direct_no_levels (data : ndarray R) wavelet level start_level axes
    (ws : list Wv) (w : world R) :
  let axes' := map (normalize_axis (ndim data))
                   (match axes with
                    | None => py_range 0 (Z.of_nat (ndim data))
                    | Some l => l
                    end) in
  (level ≤ 0)%Z →
  dtype_of data ≠ object_ →
  1 ≤ ndim data →
  NoDup axes' →
  _wavelets_per_axis wavelet axes' = Ok ws →
  swtn_direct data wavelet level start_level axes w = (Ok [], w).
Proof.
  intros axes' Hl Hd Hn Hnd Hws. unfold swtn_direct.
  rewrite bool_decide_eq_false_2 by done.
  destruct (ndim data <? 1) eqn:E; [apply Nat.ltb_lt in E; lia|].
  fold axes'. apply len_set_NoDup in Hnd. rewrite <- Hnd, Nat.eqb_refl. simpl.
  unfold mbind, M_bind, lift. rewrite Hws.
  by rewrite py_range_empty by lia.
Qed.

(** X11: a depth [level <= 0] is no error: on an input that passes the
    checks, with a wavelet that resolves, [swtn] returns the empty list
    without invoking the transform primitive. *)
Theorem swtn_nonpositive_level_returns_nothing (data : ndarray R) (wavelet : W)
    (level start_level : Z) (axes : option (list Z)) (ws : list Wv) (w : world R) :
  (level ≤ 0)%Z →
  dtype_of data ≠ object_ →
  1 ≤ ndim data →
  NoDup (map (normalize_axis (ndim data))
           (match axes with
            | None => py_range 0 (Z.of_nat (ndim data))
            | Some l => l
            end)) →
  _wavelets_per_axis wavelet
    (map (normalize_axis (ndim data))
       (match axes with
        | None => py_range 0 (Z.of_nat (ndim data))
        | Some l => l
        end)) = Ok ws →
  swtn data wavelet level start_level axes w = (Ok [], w).
Proof.
  intros Hl Hd Hn Hnd Hws. unfold swtn.
  destruct (negb _have_c99_complex && iscomplexobj data) eqn:Hc.
  - apply andb_true_iff in Hc as [_ Hc].
    unfold mbind, M_bind.
    rewrite (swtn_direct_no_levels (real data) wavelet level start_level axes ws);
      [|done| | | |]; rewrite ?ndim_real; try done.
    2:{ unfold real. rewrite Hc. simpl. discriminate. }
    rewrite (swtn_direct_no_levels (imag data) wavelet level start_level axes ws);
      try done.
    unfold imag. rewrite Hc. simpl. discriminate.
  - by eapply swtn_direct_no_levels.
Qed.

(** X12: the checks [swt2] makes on [axes], in their order: the count, the
    uniqueness of the entries as written, the dimensionality of the input.
    Two different entries that name one axis pass them and are rejected by
    [swtn], with its message.  In all four cases the world is returned as
    it was. *)
Theorem swt2_axes_checks (data : ndarray R) (wavelet : W)
    (level start_level : Z) (axes : list Z) (w : world R) :
  (length axes ≠ 2 →
   swt2 data wavelet level start_level axes w
   = (Raise (ValueError "Expected 2 axes"), w)) ∧
  (length axes = 2 → ¬ NoDup axes →
   swt2 data wavelet level start_level axes w
   = (Raise (ValueError "The axes passed to swt2 must be unique."), w)) ∧
  (length axes = 2 → NoDup axes → ndim data < 2 →
   swt2 data wavelet level start_level axes w
   = (Raise (ValueError "Input array has fewer dimensions than the specified axes"), w)) ∧
  (length axes = 2 → NoDup axes → 2 ≤ ndim data → dtype_of data ≠ object_ →
   ¬ NoDup (map (normalize_axis (ndim data)) axes) →
   swt2 data wavelet level start_level axes w
   = (Raise (ValueError "The axes passed to swtn must be unique."), w)).
Proof.
  unfold swt2. split; [|split; [|split]].
  - intros Hl. destruct (length axes =? 2) eqn:E; [|done].
    by apply Nat.eqb_eq in E.
  - intros Hl Hd. apply Nat.eqb_eq in Hl. rewrite Hl. simpl.
    by rewrite (unique_check_dup _ Hd).
  - intros Hl Hnd Hn. apply len_set_NoDup in Hnd. rewrite <- Hnd, Nat.eqb_refl.
    rewrite Hl. simpl.
    destruct (ndim data <? 2) eqn:E; [done|]. apply Nat.ltb_ge in E. lia.
  - intros Hl Hnd Hn Hd Hdup. apply len_set_NoDup in Hnd. rewrite <- Hnd, Nat.eqb_refl.
    rewrite Hl. simpl.
    destruct (ndim data <? 2) eqn:E; [apply Nat.ltb_lt in E; lia|].
    unfold mbind, M_bind.
    assert (Hdirect : ∀ x : ndarray R, ndim x = ndim data → dtype_of x ≠ object_ →
              swtn_direct x wavelet level start_level (Some axes) w
              = (Raise (ValueError "The axes passed to swtn must be unique."), w)).
    { intros x Hx Hdx. unfold swtn_direct. rewrite bool_decide_eq_false_2 by done.
      rewrite Hx. destruct (ndim data <? 1) eqn:E1; [apply Nat.ltb_lt in E1; lia|].
      by rewrite (unique_check_dup _ Hdup). }
    unfold swtn. destruct (negb _have_c99_complex && iscomplexobj data) eqn:Hc.
    + apply andb_true_iff in Hc as [_ Hc]. unfold mbind, M_bind.
      rewrite Hdirect; [done | apply ndim_real |].
      unfold real. rewrite Hc. simpl. discriminate.
    + by rewrite Hdirect.
Qed.

(** X13: what [iswtn] checks on the first dictionary before it touches the
    store: an empty dictionary has no longest key; the all-approximation
    key of that length must be present; with [axes=None] the key length
    must equal the number of dimensions of that array. *)
Theorem iswtn_first_dictionary_checks (coeffs : list nat) (wavelet : W)
    (w : world R) (loc0 k : nat) (out : ndarray R) :
  coeffs !! 0 = Some loc0 →
  (dicts w loc0 = ∅ →
   ∀ axes, iswtn coeffs wavelet axes w
           = (Raise (ValueError "max() arg is an empty sequence"), w)) ∧
  (max_key_len (dicts w loc0) = Ok k →
   dicts w loc0 !! str_mul "a" k = None →
   ∀ axes, iswtn coeffs wavelet axes w = (Raise (KeyError (str_mul "a" k)), w)) ∧
  (max_key_len (dicts w loc0) = Ok k →
   dicts w loc0 !! str_mul "a" k = Some out →
   k ≠ ndim out →
   iswtn coeffs wavelet None w
   = (Raise (ValueError "The number of axes used in iswtn must match the number of dimensions transformed in swtn."), w)).
Proof.
  intros Hc. unfold iswtn, index, dict_get, mbind, M_bind, lift, dict_read.
  rewrite Hc. split; [|split].
  - intros He axes. rewrite He. unfold max_key_len. by rewrite map_to_list_empty.
  - intros Hk Ha axes. by rewrite Hk, Ha.
  - intros Hk Ha Hne. rewrite Hk, Ha. rewrite normalize_py_range.
    pose proof (NoDup_py_range 0 (Z.of_nat (ndim out))) as Hnd.
    apply len_set_NoDup in Hnd. rewrite <- Hnd, Nat.eqb_refl. simpl.
    rewrite py_range_length.
    destruct (k =? Z.to_nat (Z.of_nat (ndim out) - 0)) eqn:E; [|done].
    apply Nat.eqb_eq in E. lia.
Qed.

End Axes.

(** ** [swt2] over [swtn] *)

Section Repack.
Context {R W Wv : Type} {SR : Scalar R} {PR : Primitives R W Wv}.

Lemma swtn_direct_ok_NoDup (data : ndarray R) wavelet level start_level axes
    (w w' : world R) ret :
  swtn_direct data wavelet level start_level (Some axes) w = (Ok ret, w') →
  NoDup axes.
Proof.
  intros Hrun. unfold swtn_direct in Hrun.
  case_bool_decide; [discriminate|].
  destruct (ndim data <? 1); [discriminate|].
  destruct (length _ =? len_set _) eqn:E; [|discriminate].
  apply Nat.eqb_eq, len_set_NoDup in E. by apply NoDup_fmap_1 in E.
Qed.

Lemma swtn_ok_NoDup (data : ndarray R) wavelet level start_level axes
    (w w' : world R) ret :
  swtn data wavelet level start_level (Some axes) w = (Ok ret, w') →
  NoDup axes.
Proof.
  intros Hrun. unfold swtn in Hrun.
  destruct (negb _have_c99_complex && iscomplexobj data).
  - apply bind_ok in Hrun as (re & w1 & Hre & _). by eapply swtn_direct_ok_NoDup.
  - by eapply swtn_direct_ok_NoDup.
Qed.

Lemma swtn_ok_level_sets (Hshape : swt_axis_keeps_shape)
    (Hwav : wavelets_per_axis_length)
    (data : ndarray R) wavelet level start_level axes (w w' : world R) ret :
  swtn data wavelet level start_level axes w = (Ok ret, w') →
  Forall (level_set_ok (match axes with Some l => length l | None => ndim data end)
            (shape data)) ret.
Proof.
  intros Hrun. unfold swtn in Hrun.
  destruct (negb _have_c99_complex && iscomplexobj data).
  - apply bind_ok in Hrun as (re & w1 & Hre & Hrun).
    apply bind_ok in Hrun as (im & w2 & Him & Hrun).
    apply lift_ok in Hrun as [Hjoin _].
    apply (swtn_direct_ok Hshape Hwav) in Hre, Him.
    rewrite shape_real in Hre. rewrite ndim_real in Hre.
    exact (join_all_ok _ _ _ _ _ Hre Him Hjoin).
  - by apply (swtn_direct_ok Hshape Hwav) in Hrun.
Qed.

Lemma subband_key_2 a b :
  (a = "a"%char ∨ a = "d"%char) → (b = "a"%char ∨ b = "d"%char) →
  is_subband_key 2 (String a (String b "")).
Proof.
  intros Ha Hb. split; [done|]. simpl.
  apply Forall_cons_2; [done|]. apply Forall_cons_2; [done|]. apply Forall_nil_2.
Qed.

(** X14: [swt2] is [swtn] over two axes with each Level Coefficient Set
    repacked: when the input has at least two dimensions and [swtn] returns
    for the two axes, [swt2] returns in the same world, one tuple
    [(c['aa'], (c['da'], c['ad'], c['dd']))] per set [c], in the same order;
    no lookup fails.  The one-axis step and the per-axis wavelet
    normalisation are assumed to meet their contracts. *)
Theorem swt2_repacks_swtn (Hshape : swt_axis_keeps_shape)
    (Hwav : wavelets_per_axis_length)
    (data : ndarray R) (wavelet : W) (level start_level : Z) (axes : list Z)
    (w w' : world R) (coefs : list (gmap string (ndarray R))) :
  length axes = 2 →
  2 ≤ ndim data →
  swtn data wavelet level start_level (Some axes) w = (Ok coefs, w') →
  ∃ ret, swt2 data wavelet level start_level axes w = (Ok ret, w') ∧
         Forall2 (λ (c : gmap string (ndarray R)) r,
                    c !! "aa" = Some r.1 ∧ c !! "da" = Some r.2.1.1 ∧
                    c !! "ad" = Some r.2.1.2 ∧ c !! "dd" = Some r.2.2)
                 coefs ret.
Proof.
  intros Hl Hn Hrun.
  pose proof (swtn_ok_NoDup _ _ _ _ _ _ _ _ Hrun) as Hnd.
  pose proof (swtn_ok_level_sets Hshape Hwav _ _ _ _ _ _ _ _ Hrun) as Hsets.
  simpl in Hsets. rewrite Hl in Hsets.
  unfold swt2. apply len_set_NoDup in Hnd. rewrite <- Hnd, Nat.eqb_refl.
  rewrite Hl. simpl.
  destruct (ndim data <? 2) eqn:E; [apply Nat.ltb_lt in E; lia|].
  unfold mbind at 1, M_bind. rewrite Hrun. unfold lift.
  clear Hrun. induction Hsets as [|c coefs Hc _ IH].
  - exists []. split; [done | constructor].
  - destruct IH as (ret & Hret & Hall).
    destruct Hc as (Hkeys & _ & _).
    destruct (proj2 (Hkeys "aa")) as [aa Haa]; [apply subband_key_2; auto|].
    destruct (proj2 (Hkeys "da")) as [da Hda]; [apply subband_key_2; auto|].
    destruct (proj2 (Hkeys "ad")) as [ad Had]; [apply subband_key_2; auto|].
    destruct (proj2 (Hkeys "dd")) as [dd Hdd]; [apply subband_key_2; auto|].
    exists ((aa, (da, ad, dd)) :: ret). split.
    + injection Hret as Hret. cbn [omapM]. unfold dict_get at 1 2 3 4.
      rewrite Haa, Hda, Had, Hdd. simpl. by rewrite Hret.
    + by constructor.
Qed.

End Repack.

(** ** Counting the invocations of the primitives *)

(** The invocations a loop makes are those of its passes. *)
Lemma foldM_work {R A S} (c : A → nat) (f : S → A → M R S) l :
  (∀ s x w s' w', x ∈ l → f s x w = (Ok s', w') → work w' = work w + c x) →
  ∀ s w s' w', foldM f s l w = (Ok s', w') →
               work w' = work w + sum_list_with c l.
Proof.
  induction l as [|x l IH]; intros Hstep s w s' w' Hrun; simpl in Hrun.
  - apply mret_ok in Hrun as [_ ->]. simpl. lia.
  - apply bind_ok in Hrun as (s1 & w1 & Hf & Hrest).
    apply IH in Hrest; [|intros ? ? ? ? ? Hin; apply Hstep; by right].
    apply Hstep in Hf; [|by left]. simpl. lia.
Qed.

Lemma sum_list_with_const {A} (c : A → nat) n (l : list A) :
  (∀ x, x ∈ l → c x = n) → sum_list_with c l = length l * n.
Proof.
  induction l as [|x l IH]; intros Hc; simpl; [done|].
  rewrite IH by (intros; apply Hc; by right). rewrite (Hc x) by left. lia.
Qed.

Lemma sum_list_with_rev {A} (c : A → nat) (l : list A) :
  sum_list_with c (rev l) = sum_list_with c l.
Proof.
  induction l as [|x l IH]; simpl; [done|].
  rewrite sum_list_with_app, IH. simpl. lia.
Qed.

Lemma sum_pow_up b n :
  sum_list_with (λ j, b ^ j) (seq 1 n) * (b - 1) + b = b ^ S n.
Proof.
  induction n as [|n IH].
  - simpl. lia.
  - rewrite seq_S, sum_list_with_app. simpl sum_list_with.
    change (1 + n) with (S n). change (b ^ S (S n)) with (b * b ^ S n).
    set (p := b ^ S n) in *. set (t := sum_list_with _ _) in *.
    destruct b as [|b]; [lia|]. simpl in *. nia.
Qed.

Lemma sum_list_with_map {A B} (g : A → B) (c : B → nat) (l : list A) :
  sum_list_with c (map g l) = sum_list_with (λ x, c (g x)) l.
Proof. induction l as [|x l IH]; simpl; [done|]. by rewrite IH. Qed.

Lemma sum_pow_down b n :
  sum_list_with (λ j, b ^ (n - j)) (seq 0 n) = sum_list_with (λ j, b ^ j) (seq 1 n).
Proof.
  induction n as [|n IH]; [done|].
  rewrite (seq_S n 1), sum_list_with_app, <- IH.
  change (seq 0 (S n)) with (0 :: seq 1 n). rewrite <- seq_shift.
  cbn [sum_list_with]. rewrite sum_list_with_map.
  change (1 + n) with (S n). rewrite Nat.sub_0_r.
  assert (Heq : sum_list_with (λ x, b ^ (S n - S x)) (seq 0 n)
                = sum_list_with (λ j, b ^ (n - j)) (seq 0 n)) by done.
  rewrite Heq. lia.
Qed.

Lemma length_flat_map_const {A B} (f : A → list B) n (l : list A) :
  (∀ x, length (f x) = n) → length (flat_map f l) = length l * n.
Proof.
  intros Hf. induction l as [|x l IH]; simpl; [done|].
  by rewrite length_app, Hf, IH.
Qed.

Lemma length_product {A} (l : list A) k : length (product l k) = length l ^ k.
Proof.
  induction k as [|k IH]; simpl; [done|].
  rewrite (length_flat_map_const _ (length l ^ k)); [done|].
  intros x. by rewrite length_map.
Qed.

Section Counting.
Context {R W Wv : Type} {SR : Scalar R} {PR : Primitives R W Wv}.

Lemma swtn_axis_work i (aw : Z * Wv) coeffs :
  ∀ acc (w : world R) out w',
    foldM (λ new_coeffs sx,
             r ← call (_swt_axis sx.2 aw.2 1 i aw.1);
             c ← lift (index r 0);
             mret (new_coeffs ++ [(String.append sx.1 "a", c.1);
                                  (String.append sx.1 "d", c.2)]))
          acc coeffs w = (Ok out, w') →
    length out = length acc + 2 * length coeffs ∧
    work w' = work w + length coeffs.
Proof.
  induction coeffs as [|[s x] coeffs IH]; intros acc w out w' Hrun; simpl in Hrun.
  - apply mret_ok in Hrun as [<- ->]. simpl. lia.
  - apply bind_ok in Hrun as (acc1 & w1 & Hstep & Hrest).
    apply bind_ok in Hstep as (r & w2 & Hcall & Hstep).
    apply call_ok in Hcall as [_ ->].
    apply bind_ok in Hstep as (c & w3 & Hidx & Hstep).
    apply lift_ok in Hidx as [_ ->]. apply mret_ok in Hstep as [<- ->].
    apply IH in Hrest as [Hlen Hwork]. rewrite length_app in Hlen. simpl in *. lia.
Qed.

Lemma swtn_axes_work i aws :
  ∀ coeffs (w : world R) out w',
    foldM (swtn_axis i) coeffs aws w = (Ok out, w') →
    length out = length coeffs * 2 ^ length aws ∧
    work w' + length coeffs = work w + length coeffs * 2 ^ length aws.
Proof.
  induction aws as [|aw aws IH]; intros coeffs w out w' Hrun; simpl in Hrun.
  - apply mret_ok in Hrun as [<- ->]. simpl. lia.
  - apply bind_ok in Hrun as (c1 & w1 & Hstep & Hrest).
    apply swtn_axis_work in Hstep as [Hl1 Hw1].
    apply IH in Hrest as [Hl Hw]. simpl in Hl1. rewrite Hl1 in Hl, Hw.
    cbn [length Nat.pow]. set (p := 2 ^ length aws) in *. nia.
Qed.

Lemma swtn_levels_work axes (ws : list Wv) num_axes levels :
  length ws = length axes →
  ∀ data ret (w : world R) out w',
    swtn_levels axes ws num_axes levels data ret w = (Ok out, w') →
    work w' + length levels = work w + length levels * 2 ^ length axes.
Proof.
  intros Hlen. induction levels as [|i levels IH]; intros data ret w out w' Hrun;
    simpl in Hrun.
  - apply mret_ok in Hrun as [_ ->]. simpl. lia.
  - apply bind_ok in Hrun as (d & w1 & Hlevel & Hrun).
    apply bind_ok in Hrun as (a & w2 & Hget & Hrun).
    apply lift_ok in Hget as [_ ->].
    apply IH in Hrun. unfold swtn_level in Hlevel.
    apply bind_ok in Hlevel as (coeffs & w3 & Hfold & Hret).
    apply mret_ok in Hret as [_ ->].
    apply swtn_axes_work in Hfold as [_ Hw].
    rewrite length_combine, Hlen, Nat.min_id in Hw. simpl in *. lia.
Qed.

Lemma swtn_direct_work (Hwav : wavelets_per_axis_length)
    (data : ndarray R) wavelet level start_level axes (w w' : world R) ret :
  swtn_direct data wavelet level start_level axes w = (Ok ret, w') →
  work w'
  = work w + Z.to_nat level
             * (2 ^ match axes with Some l => length l | None => ndim data end - 1).
Proof.
  intros Hrun. unfold swtn_direct in Hrun.
  case_bool_decide; [discriminate|].
  destruct (ndim data <? 1); [discriminate|].
  set (axes' := map (normalize_axis (ndim data)) _) in Hrun.
  destruct (negb (length axes' =? len_set axes')); [discriminate|].
  apply bind_ok in Hrun as (ws & w1 & Hws & Hrun).
  apply lift_ok in Hws as [Hws ->]. apply Hwav in Hws.
  apply bind_ok in Hrun as (out & w2 & Hlevels & Hrun).
  apply mret_ok in Hrun as [_ ->].
  apply (swtn_levels_work _ _ _ _ Hws) in Hlevels.
  rewrite py_range_length in Hlevels.
  replace (start_level + level - start_level)%Z with level in Hlevels by lia.
  assert (Hk : length axes'
               = match axes with Some l => length l | None => ndim data end).
  { unfold axes'. rewrite length_map. destruct axes; [done|].
    rewrite py_range_length. unfold ndim. lia. }
  rewrite Hk in Hlevels.
  set (p := 2 ^ _) in *. assert (1 ≤ p) by (apply Nat.neq_0_lt_0, Nat.pow_nonzero; lia).
  nia.
Qed.

(** X15: the cost of [swtn]: a call that returns has invoked the one-axis
    step [2^k - 1] times per level, [k] being the number of axes, that is
    [level * (2^k - 1)] times, and twice as often in the complex-splitting
    branch.  The per-axis wavelet normalisation is assumed to return one
    wavelet per axis. *)
Theorem swtn_transform_count (Hwav : wavelets_per_axis_length)
    (data : ndarray R) (wavelet : W) (level start_level : Z)
    (axes : option (list Z)) (w w' : world R) (ret : list (gmap string (ndarray R))) :
  swtn data wavelet level start_level axes w = (Ok ret, w') →
  work w'
  = work w
    + (if negb _have_c99_complex && iscomplexobj data then 2 else 1)
      * (Z.to_nat level
         * (2 ^ match axes with Some l => length l | None => ndim data end - 1)).
Proof.
  intros Hrun. unfold swtn in Hrun.
  destruct (negb _have_c99_complex && iscomplexobj data).
  - apply bind_ok in Hrun as (re & w1 & Hre & Hrun).
    apply bind_ok in Hrun as (im & w2 & Him & Hrun).
    apply lift_ok in Hrun as [_ ->].
    apply (swtn_direct_work Hwav) in Hre, Him. rewrite ndim_real in Hre.
    change (ndim (imag data)) with (ndim data) in Him. lia.
  - apply (swtn_direct_work Hwav) in Hrun. lia.
Qed.

Lemma iswt_first_work (wavelet : Wv) cD step (output : ndarray R) first
    (w w' : world R) out :
  iswt_first wavelet cD step output first w = (Ok out, w') →
  work w' = work w + 2.
Proof.
  intros Hrun. unfold iswt_first in Hrun.
  apply bind_ok in Hrun as (n & w0 & H0 & Hrun). apply lift_ok in H0 as [_ ->].
  apply bind_ok in Hrun as (oe & w1 & H1 & Hrun). apply lift_ok in H1 as [_ ->].
  apply bind_ok in Hrun as (de & w2 & H2 & Hrun). apply lift_ok in H2 as [_ ->].
  apply bind_ok in Hrun as (x1 & w3 & H3 & Hrun). apply call_ok in H3 as [_ ->].
  apply bind_ok in Hrun as (oo & w4 & H4 & Hrun). apply lift_ok in H4 as [_ ->].
  apply bind_ok in Hrun as (do & w5 & H5 & Hrun). apply lift_ok in H5 as [_ ->].
  apply bind_ok in Hrun as (x2 & w6 & H6 & Hrun). apply call_ok in H6 as [_ ->].
  apply bind_ok in Hrun as (s & w7 & H7 & Hrun). apply lift_ok in H7 as [_ ->].
  apply lift_ok in Hrun as [_ ->]. simpl. lia.
Qed.

Lemma iswt_level_work (wavelet : Wv) coeffs n (output : ndarray R) j
    (w w' : world R) out :
  1 ≤ j →
  iswt_level wavelet coeffs n output j w = (Ok out, w') →
  work w' = work w + 2 ^ j.
Proof.
  intros Hj Hrun. unfold iswt_level in Hrun.
  apply bind_ok in Hrun as (c & w0 & Hidx & Hrun). apply lift_ok in Hidx as [_ ->].
  apply (foldM_work (λ _, 2)) in Hrun.
  - rewrite (sum_list_with_const _ 2) in Hrun by done.
    rewrite length_seq in Hrun. rewrite Hrun.
    replace j with (S (j - 1)) at 2 by lia. simpl. lia.
  - intros s x wc s' wc' _ Hstep. by eapply iswt_first_work.
Qed.

Lemma iswt_direct_work (coeffs : list (ndarray R * ndarray R)) (wavelet : W)
    (w w' : world R) out :
  iswt_direct coeffs wavelet w = (Ok out, w') →
  work w' + 2 = work w + 2 ^ S (length coeffs).
Proof.
  intros Hrun. unfold iswt_direct in Hrun.
  apply bind_ok in Hrun as (c0 & w0 & Hidx & Hrun). apply lift_ok in Hidx as [_ ->].
  apply bind_ok in Hrun as (wv & w1 & Hwv & Hrun). apply lift_ok in Hwv as [_ ->].
  apply (foldM_work (λ j, 2 ^ j)) in Hrun.
  - rewrite sum_list_with_rev in Hrun.
    pose proof (sum_pow_up 2 (length coeffs)) as Hsum. simpl in Hsum. simpl. lia.
  - intros s j wc s' wc' Hin Hstep. eapply iswt_level_work; [|exact Hstep].
    apply list_elem_of_In, in_rev, in_seq in Hin. lia.
Qed.

(** X16: the cost of [iswt]: a call that returns on a list of [n] levels has
    invoked the single-level inverse [2^(n+1) - 2] times, two for every
    offset of every level, and twice as often in the complex-splitting
    branch. *)
Theorem iswt_transform_count (coeffs : list (ndarray R * ndarray R)) (wavelet : W)
    (w w' : world R) (out : ndarray R) (c0 : ndarray R * ndarray R) :
  coeffs !! 0 = Some c0 →
  iswt coeffs wavelet w = (Ok out, w') →
  work w'
  = work w
    + (if negb _have_c99_complex && iscomplexobj c0.1 then 2 else 1)
      * (2 ^ S (length coeffs) - 2).
Proof.
  intros Hc Hrun. unfold iswt, index in Hrun. rewrite Hc in Hrun.
  apply bind_ok in Hrun as (c0' & w0 & Hidx & Hrun).
  apply lift_ok in Hidx as [[= <-] ->].
  assert (2 ≤ 2 ^ S (length coeffs)).
  { simpl. pose proof (Nat.pow_nonzero 2 (length coeffs)). lia. }
  destruct (negb _have_c99_complex && iscomplexobj c0.1).
  - apply bind_ok in Hrun as (re & w1 & Hre & Hrun).
    apply bind_ok in Hrun as (im & w2 & Him & Hrun).
    apply lift_ok in Hrun as [_ ->].
    apply iswt_direct_work in Hre, Him. rewrite length_map in Hre, Him. lia.
  - apply iswt_direct_work in Hrun. lia.
Qed.

Lemma iswt2_idwt2_work (ws : list Wv) (output cH cV cD : ndarray R) sh sw
    (w w' : world R) x :
  iswt2_idwt2 ws output cH cV cD sh sw w = (Ok x, w') →
  work w' = S (work w) ∧ dicts w' = dicts w.
Proof.
  intros Hrun. unfold iswt2_idwt2 in Hrun.
  apply bind_ok in Hrun as (o & w0 & H0 & Hrun). apply lift_ok in H0 as [_ ->].
  apply bind_ok in Hrun as (h & w1 & H1 & Hrun). apply lift_ok in H1 as [_ ->].
  apply bind_ok in Hrun as (v & w2 & H2 & Hrun). apply lift_ok in H2 as [_ ->].
  apply bind_ok in Hrun as (d & w3 & H3 & Hrun). apply lift_ok in H3 as [_ ->].
  apply call_ok in Hrun as [_ ->]. done.
Qed.

Lemma iswt2_offsets_work (ws : list Wv) cH cV cD step (output : ndarray R) first
    (w w' : world R) out :
  iswt2_offsets ws cH cV cD step output first w = (Ok out, w') →
  work w' = work w + 4.
Proof.
  destruct first as [fh fw]. intros Hrun. unfold iswt2_offsets in Hrun.
  apply bind_ok in Hrun as (h0 & w0 & H0 & Hrun). apply lift_ok in H0 as [_ ->].
  apply bind_ok in Hrun as (h1 & w1 & H1 & Hrun). apply lift_ok in H1 as [_ ->].
  apply bind_ok in Hrun as (x1 & w2 & H2 & Hrun). apply iswt2_idwt2_work in H2 as [H2 _].
  apply bind_ok in Hrun as (x2 & w3 & H3 & Hrun). apply iswt2_idwt2_work in H3 as [H3 _].
  apply bind_ok in Hrun as (x3 & w4 & H4 & Hrun). apply iswt2_idwt2_work in H4 as [H4 _].
  apply bind_ok in Hrun as (x4 & w5 & H5 & Hrun). apply iswt2_idwt2_work in H5 as [H5 _].
  do 7 (apply bind_ok in Hrun as (? & ? & Hl & Hrun); apply lift_ok in Hl as [_ ->]).
  apply lift_ok in Hrun as [_ ->]. lia.
Qed.

Lemma iswt2_level_work (ws : list Wv) coeffs n (output : ndarray R) j
    (w w' : world R) out :
  j < n →
  iswt2_level ws coeffs n output j w = (Ok out, w') →
  work w' = work w + 4 ^ (n - j).
Proof.
  intros Hj Hrun. unfold iswt2_level in Hrun.
  apply bind_ok in Hrun as ([cA [[cH cV] cD]] & w0 & Hidx & Hrun).
  apply lift_ok in Hidx as [_ ->]. simpl in Hrun.
  destruct (_ || _); [discriminate|].
  apply (foldM_work (λ _, 4)) in Hrun.
  - rewrite (sum_list_with_const _ 4) in Hrun by done.
    rewrite (length_flat_map_const _ (2 ^ (n - j - 1))) in Hrun
      by (intros; by rewrite length_map, length_seq).
    rewrite length_seq in Hrun. rewrite Hrun.
    set (m := n - j - 1). replace (n - j) with (S m) by lia.
    rewrite Nat.pow_succ_r'.
    change (4 ^ m) with ((2 * 2) ^ m). rewrite Nat.pow_mul_l. lia.
  - intros s x wc s' wc' _ Hstep. by eapply iswt2_offsets_work.
Qed.

(** X17: the cost of [iswt2]: a call that returns on a list of [n] levels has
    invoked the two-dimensional inverse step [4 + 4^2 + ... + 4^n] times,
    four for every pair of offsets of every level; three times that count
    is [4^(n+1) - 4]. *)
Theorem iswt2_transform_count
    (coeffs : list (ndarray R * (ndarray R * ndarray R * ndarray R)))
    (wavelet : W) (w w' : world R) (out : ndarray R) :
  iswt2 coeffs wavelet w = (Ok out, w') →
  work w' = work w + sum_list_with (λ i, 4 ^ i) (seq 1 (length coeffs)) ∧
  3 * (work w' - work w) = 4 ^ S (length coeffs) - 4.
Proof.
  intros Hrun. unfold iswt2 in Hrun.
  apply bind_ok in Hrun as (c0 & w0 & Hidx & Hrun). apply lift_ok in Hidx as [_ ->].
  destruct (negb _); [discriminate|].
  apply bind_ok in Hrun as (ws & w1 & Hws & Hrun). apply lift_ok in Hws as [_ ->].
  apply (foldM_work (λ j, 4 ^ (length coeffs - j))) in Hrun.
  - rewrite sum_pow_down in Hrun. split; [done|].
    pose proof (sum_pow_up 4 (length coeffs)) as Hsum. rewrite Hrun. lia.
  - intros s j wc s' wc' Hin Hstep. eapply iswt2_level_work; [|exact Hstep].
    apply elem_of_seq in Hin. lia.
Qed.

Lemma iswtn_phase_work axes (ws : list Wv) key details approx acc odds
    (w w' : world R) r :
  iswtn_phase axes ws key details approx acc odds w = (Ok r, w') →
  work w' = S (work w).
Proof.
  destruct acc as [[st out] nt]. intros Hrun. unfold iswtn_phase in Hrun.
  apply bind_ok in Hrun as (st1 & w1 & H1 & Hrun). apply lift_ok in H1 as [_ ->].
  apply bind_ok in Hrun as (ds & w2 & H2 & Hrun). apply lift_ok in H2 as [_ ->].
  apply bind_ok in Hrun as (aps & w3 & H3 & Hrun). apply lift_ok in H3 as [_ ->].
  apply bind_ok in Hrun as (x & w4 & H4 & Hrun). apply call_ok in H4 as [_ ->].
  apply bind_ok in Hrun as (x' & w5 & H5 & Hrun). apply lift_ok in H5 as [_ ->].
  apply bind_ok in Hrun as (out' & w6 & H6 & Hrun). apply lift_ok in H6 as [_ ->].
  apply mret_ok in Hrun as [_ ->]. done.
Qed.

Lemma iswtn_offsets_work axes (ws : list Wv) key k details dshape step acc firsts
    (w w' : world R) r :
  iswtn_offsets axes ws key k details dshape step acc firsts w = (Ok r, w') →
  work w' = work w + 2 ^ k.
Proof.
  destruct acc as [st out]. intros Hrun. unfold iswtn_offsets in Hrun.
  apply bind_ok in Hrun as (st1 & w1 & H1 & Hrun). apply lift_ok in H1 as [_ ->].
  apply bind_ok in Hrun as (out1 & w2 & H2 & Hrun). apply lift_ok in H2 as [_ ->].
  apply bind_ok in Hrun as ([[st2 out2] nt] & w3 & Hfold & Hrun).
  apply bind_ok in Hrun as (out3 & w4 & H4 & Hrun). apply lift_ok in H4 as [_ ->].
  apply mret_ok in Hrun as [_ ->].
  apply (foldM_work (λ _, 1)) in Hfold.
  - rewrite (sum_list_with_const _ 1) in Hfold by done.
    rewrite length_product in Hfold. simpl in Hfold. lia.
  - intros s x wc s' wc' _ Hstep. apply iswtn_phase_work in Hstep. lia.
Qed.

Lemma iswtn_level_work coeffs axes (ws : list Wv) k n acc j (w w' : world R) r :
  j < n →
  iswtn_level coeffs axes ws k n acc j w = (Ok r, w') →
  work w' = work w + (2 ^ k) ^ (n - j).
Proof.
  intros Hj Hrun. unfold iswtn_level in Hrun.
  apply bind_ok in Hrun as (loc & w0 & Hidx & Hrun). apply lift_ok in Hidx as [_ ->].
  apply bind_ok in Hrun as (a & w1 & Hpop & Hrun).
  rewrite dict_pop_run in Hpop.
  destruct (dicts w loc !! str_mul "a" k) as [a'|]; [|discriminate].
  injection Hpop as -> <-.
  apply bind_ok in Hrun as (details & w2 & Hread & Hrun). injection Hread as <- <-.
  apply bind_ok in Hrun as (dshape & w3 & Hds & Hrun). apply lift_ok in Hds as [_ ->].
  destruct (negb _); [discriminate|].
  apply bind_ok in Hrun as (acc1 & w4 & Hfold & Hrun).
  apply bind_ok in Hrun as ([] & w5 & Hset & Hrun).
  apply mret_ok in Hrun as [_ ->].
  unfold dict_setitem, dict_read, dict_write, mbind, M_bind in Hset.
  injection Hset as <-. simpl.
  apply (foldM_work (λ _, 2 ^ k)) in Hfold.
  - rewrite (sum_list_with_const _ (2 ^ k)) in Hfold by done.
    rewrite length_product, length_seq in Hfold. simpl in Hfold. rewrite Hfold.
    set (m := n - j - 1). replace (n - j) with (S m) by lia.
    rewrite Nat.pow_succ_r'.
    rewrite <- Nat.pow_mul_r, (Nat.mul_comm m k), Nat.pow_mul_r. lia.
  - intros s x wc s' wc' _ Hstep. by eapply iswtn_offsets_work.
Qed.

(** X18: the cost of [iswtn]: a call that returns on [n] levels of keys of
    length [k] has invoked the inverse step [b + b^2 + ... + b^n] times
    with [b = 2^k]: at the level at position [j], [2^k] times for each of
    the [(2^(n-j-1))^k] offset tuples. *)
Theorem iswtn_transform_count (coeffs : list nat) (wavelet : W)
    (axes : option (list Z)) (w w' : world R) (out : ndarray R) (loc0 k : nat) :
  coeffs !! 0 = Some loc0 →
  max_key_len (dicts w loc0) = Ok k →
  iswtn coeffs wavelet axes w = (Ok out, w') →
  work w' = work w + sum_list_with (λ i, (2 ^ k) ^ i) (seq 1 (length coeffs)) ∧
  (work w' - work w) * (2 ^ k - 1) = (2 ^ k) ^ S (length coeffs) - 2 ^ k.
Proof.
  intros Hc Hk Hrun. unfold iswtn, index in Hrun. rewrite Hc in Hrun.
  apply bind_ok in Hrun as (loc0' & w0 & Hidx & Hrun).
  apply lift_ok in Hidx as [[= <-] ->].
  apply bind_ok in Hrun as (d0 & w0 & Hread & Hrun). injection Hread as <- <-.
  apply bind_ok in Hrun as (k' & w0 & Hmax & Hrun).
  apply lift_ok in Hmax as [Hmax ->]. rewrite Hk in Hmax. injection Hmax as <-.
  apply bind_ok in Hrun as (output & w0 & Hout & Hrun). apply lift_ok in Hout as [_ ->].
  destruct (negb _); [discriminate|]. destruct (negb _); [discriminate|].
  apply bind_ok in Hrun as (ws & w1 & Hws & Hrun). apply lift_ok in Hws as [_ ->].
  apply bind_ok in Hrun as (r & w2 & Hfold & Hrun).
  apply mret_ok in Hrun as [_ ->].
  apply (foldM_work (λ j, (2 ^ k) ^ (length coeffs - j))) in Hfold.
  - rewrite sum_pow_down in Hfold. split; [done|].
    pose proof (sum_pow_up (2 ^ k) (length coeffs)) as Hsum.
    rewrite Hfold. set (t := sum_list_with _ _) in *.
    replace (work w + t - work w) with t by lia.
    set (b := 2 ^ k) in *. set (p := b ^ S (length coeffs)) in *.
    set (c := t * (b - 1)) in *. lia.
  - intros s j wc s' wc' Hin Hstep. eapply iswtn_level_work; [|exact Hstep].
    apply elem_of_seq in Hin. lia.
Qed.

End Counting.

(** ** The reference instance: contracts, fixtures and concrete runs *)

Import Haar.

Lemma iswt_ignores_finer_approximations_witness :
  iswt (PR := prims false) x8_coeffs "db1" (world_of [])
  = iswt (PR := prims false) x8_coeffs' "db1" (world_of []).
Proof.
  apply (@iswt_ignores_finer_approximations _ _ _ _ (prims false));
    reflexivity.
Defined.

Example swt_x8 :
  (swt (PR := prims false) x8 "db1" (Some 2%Z) 0%Z (-1)%Z (world_of [])).1
  = Ok x8_coeffs.
Proof. vm_compute. reflexivity. Qed.

Example iswt_x8 :
  (iswt (PR := prims false) x8_coeffs "db1" (world_of [])).1 = Ok x8.
Proof. vm_compute. reflexivity. Qed.

(** C2 at a failing input: without C99 complex support, [swt] of a complex
    2x2 array along [axis=0] returns the transform along the last axis,
    which differs from joining the transforms of the real and imaginary
    parts along axis 0. *)
Theorem swt_complex_drops_axis :
  (swt (PR := prims false) cx22 "haar" (Some 1%Z) 0%Z 0%Z (world_of [])).1
  = (swt (PR := prims false) cx22 "haar" (Some 1%Z) 0%Z (-1)%Z (world_of [])).1 ∧
  (swt (PR := prims false) cx22 "haar" (Some 1%Z) 0%Z 0%Z (world_of [])).1
  = Ok [(cmat 2 2 [(3, 1); (3, 1); (8, 0); (8, 0)]%Z,
         cmat 2 2 [(-1, 1); (1, -1); (-2, 0); (2, 0)]%Z)] ∧
  (swt_by_parts (PR := prims false) cx22 "haar" (Some 1%Z) 0%Z 0%Z (world_of [])).1
  = Ok [(cmat 2 2 [(4, 1); (7, 0); (4, 1); (7, 0)]%Z,
         cmat 2 2 [(-2, 1); (-3, 0); (2, -1); (3, 0)]%Z)] ∧
  (swt (PR := prims false) cx2 "haar" (Some 1%Z) 0%Z 5%Z
      (world_of [])).1
  = Ok [(cvec [(3, 1); (3, 1)]%Z, cvec [(-1, 1); (1, -1)]%Z)] ∧
  (swt_by_parts (PR := prims false) cx2 "haar" (Some 1%Z)
      0%Z 5%Z (world_of [])).1
  = Raise (ValueError "Axis greater than data dimensions").
Proof. vm_compute. repeat split. Qed.

Lemma duplicate_axes_rejected_witness :
  (∃ e, swtn (PR := prims false) m44 "haar" 2%Z 0%Z (Some [0; -2]%Z) (world_of [])
        = (Raise e, world_of []) ∧ swtn_validation_error e) ∧
  iswtn (PR := prims false) [0] "haar" (Some [0; -2]%Z) (world_of [{[ "aa" := m44 ]}])
  = (Raise (ValueError "The axes passed to swtn must be unique."), world_of [{[ "aa" := m44 ]}]).
Proof.
  pose proof (@duplicate_axes_rejected _ _ _ _ (prims false) m44 [0] "haar" 2%Z 0%Z
                [0; -2]%Z (world_of [])) as Hf.
  pose proof (@duplicate_axes_rejected _ _ _ _ (prims false) m44 [0] "haar" 2%Z 0%Z
                [0; -2]%Z (world_of [{[ "aa" := m44 ]}]) 0 2 m44) as Hi.
  split.
  - apply (Hf 0 0 m44). vm_compute. intros Hn. inversion Hn as [|? ? Hx _]. apply Hx. left.
  - apply Hi; [reflexivity | vm_compute; reflexivity | vm_compute; reflexivity |].
    vm_compute. intros Hn. inversion Hn as [|? ? Hx _]. apply Hx. left.
Defined.

Lemma swtn_ndim0_rejected_empty_axes_accepted_witness :
  (∃ e, swtn (PR := prims false) (mk_array float64 [] [(5, 0)%Z]) "haar" 1%Z 0%Z None
          (world_of []) = (Raise e, world_of []) ∧
        (e = TypeError "Input must be a numeric array-like" ∨
         e = ValueError "Input data must be at least 1D")) ∧
  swtn (PR := prims false) (vec [1; 2]%Z) "haar" 2%Z 0%Z (Some []) (world_of [])
  = (Ok [{[ "" := vec [1; 2]%Z ]}; {[ "" := vec [1; 2]%Z ]}], world_of []).
Proof.
  split.
  - apply (@swtn_ndim0_rejected_empty_axes_accepted _ _ _ _ (prims false)
             (mk_array float64 [] [(5, 0)%Z]) "haar" 1%Z 0%Z None (world_of [])).
    reflexivity.
  - apply (@swtn_ndim0_rejected_empty_axes_accepted _ _ _ _ (prims false)
             (vec [1; 2]%Z) "haar" 2%Z 0%Z None (world_of [])).
    + vm_compute. lia.
    + discriminate.
    + reflexivity.
Defined.

(** C6, as stated, fails: [swtn] with an empty axis set returns a result. *)
Lemma swtn_empty_axes_returns :
  swtn (PR := prims false) (vec [1; 2]%Z) "haar" 1%Z 0%Z (Some []) (world_of [])
  = (Ok [{[ "" := vec [1; 2]%Z ]}], world_of []).
Proof. vm_compute. reflexivity. Qed.

Lemma haar_keeps_shape : swt_axis_keeps_shape (PR := prims false).
Proof.
  intros x wv i ax l. simpl. unfold swt_axis.
  destruct (py_index (shape x) ax) as [p|e]; [|discriminate].
  destruct ((1 <? 1)%Z || (i <? 0)%Z); [discriminate|].
  destruct (negb _); [discriminate|].
  intros [= <-]. simpl. repeat constructor.
Qed.

Lemma haar_wavelets_length : wavelets_per_axis_length (PR := prims false).
Proof.
  intros wavelet axes ws. simpl. unfold wavelets_per_axis.
  destruct (as_wavelet wavelet) as [wv|e]; simpl; [|discriminate].
  intros [= <-]. apply length_replicate.
Qed.

Example swtn_m44 :
  (swtn (PR := prims false) m44 "haar" 2%Z 0%Z None (world_of [])).1 = Ok m44_coeffs.
Proof. vm_compute. reflexivity. Qed.

Example iswtn_m44 :
  (iswtn (PR := prims false) [0; 1] "haar" None (world_of m44_coeffs)).1 = Ok m44.
Proof. vm_compute. reflexivity. Qed.

Lemma swtn_level_sets_complete_witness :
  (∀ key, is_Some (m44_level2 !! key) ↔ is_subband_key 2 key) ∧
  size m44_level2 = 2 ^ 2 ∧
  (∀ key v, m44_level2 !! key = Some v → shape v = [4; 4]).
Proof.
  refine (@swtn_level_sets_complete _ _ _ _ (prims false) haar_keeps_shape
            haar_wavelets_length m44 "haar" 2%Z 0%Z None (world_of [])
            (swtn (PR := prims false) m44 "haar" 2%Z 0%Z None (world_of [])).2
            m44_coeffs _ m44_level2 _).
  - vm_compute. reflexivity.
  - left.
Defined.

Lemma swtn_coarsest_level_first_witness :
  Z.of_nat (length m44_coeffs) = 2%Z ∧
  ∃ ws, wavelets_per_axis "haar" [0; 1]%Z = Ok ws ∧
    ∀ m, m < 2 →
      ∃ c, m44_coeffs !! (2 - 1 - m) = Some c ∧
           level_at (PR := prims false) [0; 1]%Z ws m44 0%Z m c.
Proof.
  refine (@swtn_coarsest_level_first _ _ _ _ (prims false) m44 "haar" 2%Z 0%Z None
            (world_of [])
            (swtn (PR := prims false) m44 "haar" 2%Z 0%Z None (world_of [])).2
            m44_coeffs _ _).
  - lia.
  - vm_compute. reflexivity.
Defined.

(** ** Concrete runs *)

Example iswt2_m44 :
  (iswt2 (PR := prims false)
     [(mat 4 4 [136; 136; 136; 136; 136; 136; 136; 136;
                136; 136; 136; 136; 136; 136; 136; 136]%Z,
       (mat 4 4 [-64; -64; -64; -64; 0; 0; 0; 0; 64; 64; 64; 64; 0; 0; 0; 0]%Z,
        mat 4 4 [-16; 0; 16; 0; -16; 0; 16; 0; -16; 0; 16; 0; -16; 0; 16; 0]%Z,
        mat 4 4 [0; 0; 0; 0; 0; 0; 0; 0; 0; 0; 0; 0; 0; 0; 0; 0]%Z));
      (mat 4 4 [14; 18; 22; 18; 30; 34; 38; 34; 46; 50; 54; 50; 30; 34; 38; 34]%Z,
       (mat 4 4 [-8; -8; -8; -8; -8; -8; -8; -8; -8; -8; -8; -8; 24; 24; 24; 24]%Z,
        mat 4 4 [-2; -2; -2; 6; -2; -2; -2; 6; -2; -2; -2; 6; -2; -2; -2; 6]%Z,
        mat 4 4 [0; 0; 0; 0; 0; 0; 0; 0; 0; 0; 0; 0; 0; 0; 0; 0]%Z))]
     "db1" (world_of [])).1 = Ok m44.
Proof. vm_compute. reflexivity. Qed.

Example roundtrip_all_axes : roundtrip false m24 1 None = Ok m24.
Proof. vm_compute. reflexivity. Qed.

Example roundtrip_first_axis : roundtrip false m24 1 (Some [0%Z]) = Ok m24.
Proof. vm_compute. reflexivity. Qed.

(** C1 at a failing input: a 2x4 array transformed along its second axis
    only.  [iswtn] pairs the offsets with [dshape] by position, so the
    slices along axis 1 stop at [dshape[0] = 2]: columns 2 and 3 of the
    result are the approximation coefficients, not the signal. *)
Theorem iswtn_axis_subset_roundtrip_fails :
  (swtn (PR := prims false) m24 "haar" 1%Z 0%Z (Some [1%Z]) (world_of [])).1
  = Ok [ {[ "a" := mat 2 4 [0; 0; 1; 1; 0; 0; 0; 0]%Z;
            "d" := mat 2 4 [0; 0; -1; 1; 0; 0; 0; 0]%Z ]} ] ∧
  roundtrip false m24 1 (Some [1%Z]) = Ok (mat 2 4 [0; 0; 1; 1; 0; 0; 0; 0]%Z) ∧
  roundtrip false m24 1 (Some [1%Z]) ≠ Ok m24.
Proof. vm_compute. repeat split. discriminate. Qed.

(** C3, as stated, fails: the shape mismatch of the second level is raised
    after the sixteen inverse steps of the first level have run. *)
Lemma iswtn_mismatch_after_work :
  (iswtn (PR := prims false) [0; 1] "haar" None (world_of bad_detail_level1)).1
  = Raise (RuntimeError "Mismatch in shape of intermediate coefficient arrays") ∧
  work (iswtn (PR := prims false) [0; 1] "haar" None
          (world_of bad_detail_level1)).2 = 16 ∧
  work (world_of bad_detail_level1) = 0.
Proof. vm_compute. repeat split. Qed.

(** C4 at a failing input: the details of the only level differ in shape;
    [iswtn] raises after the pop and before the restore, and the caller's
    dictionary has lost its all-approximation entry. *)
Theorem iswtn_mismatch_leaves_dictionary_popped :
  (iswtn (PR := prims false) [0] "haar" None (world_of bad_detail_level0)).1
  = Raise (RuntimeError "Mismatch in shape of intermediate coefficient arrays") ∧
  is_Some (dicts (world_of bad_detail_level0) 0 !! "aa") ∧
  dicts (iswtn (PR := prims false) [0] "haar" None
           (world_of bad_detail_level0)).2 0 !! "aa" = None.
Proof. vm_compute. repeat split. by eexists. Qed.

(** C5, as stated, fails: the approximation of the second level has another
    shape than its details, and [iswtn] returns the reconstruction. *)
Lemma iswtn_accepts_mismatched_approximation :
  shape_mismatch (nth 1 bad_approx_level1 ∅) ∧
  (iswtn (PR := prims false) [0; 1] "haar" None (world_of bad_approx_level1)).1
  = Ok m44.
Proof.
  split; [|vm_compute; reflexivity].
  exists "aa", "ad", small, (mat 4 4 [-2; -2; -2; 6; -2; -2; -2; 6; -2; -2; -2; 6; -2; -2; -2; 6]%Z).
  split; [|split]; [vm_compute; reflexivity | vm_compute; reflexivity | discriminate].
Qed.

Lemma bad_detail_level1_mismatch :
  shape_mismatch (delete (str_mul "a" 2) (dicts (world_of bad_detail_level1) 1)).
Proof.
  exists "ad", "dd", (mat 4 4 [-2; -2; -2; 6; -2; -2; -2; 6; -2; -2; -2; 6; -2; -2; -2; 6]%Z), small.
  split; [|split]; [vm_compute; reflexivity | vm_compute; reflexivity | discriminate].
Qed.

Lemma inverse_checks_detail_shapes_witness :
  (∀ j loc, [0; 1] !! j = Some loc →
            same_shapes (delete (str_mul "a" 2) (dicts (world_of m44_coeffs) loc))) ∧
  (∃ w1, iswtn_level (PR := prims false) [0; 1] [0; 1]%Z ["haar"; "haar"] 2 2
           (mk_slices [] [] [] [], m44) 1 (world_of bad_detail_level1)
         = (Raise (RuntimeError "Mismatch in shape of intermediate coefficient arrays"), w1)
         ∧ work w1 = work (world_of bad_detail_level1)) ∧
  @iswt2_level _ _ _ _ (prims false) ["haar"; "haar"] [(m44, (m44, small, m44))] 1 m44 0
    (world_of [])
  = (Raise (RuntimeError "Mismatch in shape of intermediate coefficient arrays"),
     world_of []).
Proof.
  pose proof (@inverse_checks_detail_shapes _ _ _ _ (prims false) [0; 1] "haar" None
                (world_of m44_coeffs)
                (iswtn (PR := prims false) [0; 1] "haar" None (world_of m44_coeffs)).2
                m44 0 2 [0; 1]%Z ["haar"; "haar"] 2 1 1 (mk_slices [] [] [] [], m44)
                m44 [] m44 m44 m44 m44 m44) as [Hok _].
  pose proof (@inverse_checks_detail_shapes _ _ _ _ (prims false) [0; 1] "haar" None
                (world_of bad_detail_level1) (world_of []) m44 0 2 [0; 1]%Z
                ["haar"; "haar"] 2 1 1 (mk_slices [] [] [] [], m44)
                (mat 4 4 [14; 18; 22; 18; 30; 34; 38; 34; 46; 50; 54; 50; 30; 34; 38; 34]%Z)
                [] m44 m44 m44 m44 m44) as [_ [Hbad _]].
  pose proof (@inverse_checks_detail_shapes _ _ _ _ (prims false) [0; 1] "haar" None
                (world_of []) (world_of []) m44 0 2 [0; 1]%Z
                ["haar"; "haar"] 1 0 1 (mk_slices [] [] [] [], m44)
                m44 [(m44, (m44, small, m44))] m44 m44 m44 small m44) as [_ [_ H2]].
  split; [|split].
  - apply Hok; [reflexivity | vm_compute; reflexivity | vm_compute; reflexivity].
  - apply Hbad; [reflexivity | vm_compute; reflexivity | apply bad_detail_level1_mismatch].
  - apply H2; [reflexivity | left; discriminate].
Defined.

Lemma validation_precedes_transform_work_witness :
  (∃ e, swtn (PR := prims false) m44 "haar" 2%Z 0%Z (Some [0; -2]%Z) (world_of [])
        = (Raise e, world_of []) ∧ swtn_validation_error e) ∧
  (∃ msg, iswtn (PR := prims false) [0; 1] "haar" (Some [1%Z]) (world_of m44_coeffs)
          = (Raise (ValueError msg), world_of m44_coeffs)) ∧
  (∃ w1, iswtn_level (PR := prims false) [0; 1] [0; 1]%Z ["haar"; "haar"] 2 2
           (mk_slices [] [] [] [], m44) 1 (world_of bad_detail_level1)
         = (Raise (RuntimeError "Mismatch in shape of intermediate coefficient arrays"), w1)
         ∧ work w1 = work (world_of bad_detail_level1)).
Proof.
  pose proof (@validation_precedes_transform_work _ _ _ _ (prims false) m44 [0; 1] "haar"
                2%Z 0%Z [0; -2]%Z (world_of []) 0 2 m44 m44 ["haar"; "haar"] 2 1 1
                (mk_slices [] [] [] [], m44)) as [Hswtn _].
  pose proof (@validation_precedes_transform_work _ _ _ _ (prims false) m44 [0; 1] "haar"
                2%Z 0%Z [1%Z] (world_of m44_coeffs) 0 2
                (mat 4 4 [136; 136; 136; 136; 136; 136; 136; 136;
                          136; 136; 136; 136; 136; 136; 136; 136]%Z)
                m44 ["haar"; "haar"] 2 1 1
                (mk_slices [] [] [] [], m44)) as [_ [Hiswtn _]].
  pose proof (@validation_precedes_transform_work _ _ _ _ (prims false) m44 [0; 1] "haar"
                2%Z 0%Z [0; 1]%Z (world_of bad_detail_level1) 0 2 m44
                (mat 4 4 [14; 18; 22; 18; 30; 34; 38; 34; 46; 50; 54; 50; 30; 34; 38; 34]%Z)
                ["haar"; "haar"] 2 1 1
                (mk_slices [] [] [] [], m44)) as [_ [_ Hlevel]].
  split; [|split].
  - apply Hswtn. right. right. vm_compute. intros Hn.
    inversion Hn as [|? ? Hx _]. apply Hx. left.
  - apply Hiswtn; [reflexivity | vm_compute; reflexivity | vm_compute; reflexivity |].
    right. simpl. lia.
  - apply Hlevel; [reflexivity | vm_compute; reflexivity | apply bad_detail_level1_mismatch].
Defined.

(** ** Instances of the further properties *)

Lemma iswtn_result_like_coarsest_approximation_witness :
  ∃ loc0 k a,
    [0; 1] !! 0 = Some loc0 ∧
    max_key_len (dicts (world_of m44_coeffs) loc0) = Ok k ∧
    dicts (world_of m44_coeffs) loc0 !! str_mul "a" k = Some a ∧
    shape m44 = shape a ∧ dtype_of m44 = dtype_of a.
Proof.
  apply (@iswtn_result_like_coarsest_approximation _ _ _ _ (prims false)
           [0; 1] "haar" None (world_of m44_coeffs)
           (iswtn (PR := prims false) [0; 1] "haar" None (world_of m44_coeffs)).2 m44).
  apply run_eq. vm_compute. reflexivity.
Defined.

Lemma iswtn_restores_dictionaries_witness :
  dicts (iswtn (PR := prims false) [0; 1] "haar" None (world_of m44_coeffs)).2 0
  = m44_level2 ∧
  dicts (iswtn (PR := prims false) [0; 1] "haar" None (world_of m44_coeffs)).2 1
  = m44_level1.
Proof.
  pose proof (@iswtn_restores_dictionaries _ _ _ _ (prims false)
                [0; 1] "haar" None (world_of m44_coeffs)
                (iswtn (PR := prims false) [0; 1] "haar" None
                   (world_of m44_coeffs)).2 m44) as Hkeep.
  assert (Hrun : (iswtn (PR := prims false) [0; 1] "haar" None
                    (world_of m44_coeffs)).1 = Ok m44) by (vm_compute; reflexivity).
  split; [apply (Hkeep (run_eq _ _ Hrun) 0) | apply (Hkeep (run_eq _ _ Hrun) 1)].
Defined.

Lemma iswt_result_shape_witness :
  ∃ c0, x8_coeffs !! 0 = Some c0 ∧
        shape x8 = shape c0.1 ∧ dtype_of x8 = dtype_of c0.1.
Proof.
  assert (Hrun : (iswt (PR := prims false) x8_coeffs "db1" (world_of [])).1 = Ok x8)
    by (vm_compute; reflexivity).
  destruct (@iswt_result_shape _ _ _ _ (prims false) x8_coeffs "db1" (world_of [])
              _ x8 (run_eq _ _ Hrun)) as (c0 & Hc & Hs & Hd).
  exists c0. split; [exact Hc|]. split; [exact Hs|]. apply Hd.
  injection Hc as <-. reflexivity.
Defined.

Lemma iswt2_result_like_coarsest_approximation_witness :
  ∃ c0, m44_tuples !! 0 = Some c0 ∧
        shape m44 = shape c0.1 ∧ dtype_of m44 = dtype_of c0.1 ∧ ndim m44 = 2.
Proof.
  apply (@iswt2_result_like_coarsest_approximation _ _ _ _ (prims false)
           m44_tuples "db1" (world_of [])
           (iswt2 (PR := prims false) m44_tuples "db1" (world_of [])).2 m44).
  apply run_eq. vm_compute. reflexivity.
Defined.

Lemma iswt2_success_details_share_shape_witness :
  shape (nth 1 m44_tuples (small, (small, small, small))).2.1.1
  = shape (nth 1 m44_tuples (small, (small, small, small))).2.1.2 ∧
  shape (nth 1 m44_tuples (small, (small, small, small))).2.1.1
  = shape (nth 1 m44_tuples (small, (small, small, small))).2.2.
Proof.
  assert (Hrun : (iswt2 (PR := prims false) m44_tuples "db1" (world_of [])).1
                 = Ok m44) by (vm_compute; reflexivity).
  apply (@iswt2_success_details_share_shape _ _ _ _ (prims false)
           m44_tuples "db1" (world_of []) _ m44 (run_eq _ _ Hrun) 1
           (nth 1 m44_tuples (small, (small, small, small))).1).
  reflexivity.
Defined.

Lemma iswt2_ignores_finer_approximations_witness :
  iswt2 (PR := prims false) m44_tuples "db1" (world_of [])
  = iswt2 (PR := prims false) m44_tuples' "db1" (world_of []).
Proof.
  apply (@iswt2_ignores_finer_approximations _ _ _ _ (prims false)); reflexivity.
Defined.

Lemma iswtn_ignores_finer_approximations_witness :
  (iswtn (PR := prims false) [0; 1] "haar" None (world_of m44_coeffs)).1
  = (iswtn (PR := prims false) [0; 1] "haar" None (world_of bad_approx_level1)).1.
Proof.
  apply (@iswtn_ignores_finer_approximations _ _ _ _ (prims false)
           [0; 1] "haar" None (world_of m44_coeffs) (world_of bad_approx_level1) 0 2).
  - reflexivity.
  - reflexivity.
  - vm_compute. reflexivity.
  - intros loc Hin.
    apply elem_of_cons in Hin as [->|Hin];
      [|apply elem_of_cons in Hin as [->|Hin]; [|by apply elem_of_nil in Hin]].
    + split; [split; intros _; vm_compute; eexists; reflexivity
             | vm_compute; reflexivity].
    + split; [split; intros _; vm_compute; eexists; reflexivity
             | vm_compute; reflexivity].
Defined.

Lemma swt_axis_out_of_range_witness :
  swt (PR := prims false) m44 "haar" (Some 1%Z) 0%Z 2%Z (world_of [])
  = (Raise (ValueError "Axis greater than data dimensions"), world_of []).
Proof.
  apply (@swt_axis_out_of_range _ _ _ _ (prims false) m44 "haar" "haar").
  - reflexivity.
  - reflexivity.
  - right. vm_compute. discriminate.
Defined.

Lemma swt_negative_axis_witness :
  swt (PR := prims false) m44 "haar" (Some 1%Z) 0%Z (-2)%Z (world_of [])
  = swt (PR := prims false) m44 "haar" (Some 1%Z) 0%Z 0%Z (world_of []).
Proof.
  apply (@swt_negative_axis _ _ _ _ (prims false) m44 "haar" (Some 1%Z) 0%Z (-2)%Z).
  split; [vm_compute; discriminate | reflexivity].
Defined.

Lemma swtn_negative_axes_witness :
  swtn (PR := prims false) m44 "haar" 1%Z 0%Z (Some [-1; 0]%Z) (world_of [])
  = swtn (PR := prims false) m44 "haar" 1%Z 0%Z (Some [1; 0]%Z) (world_of []).
Proof.
  apply (@swtn_negative_axes _ _ _ _ (prims false) m44 "haar" 1%Z 0%Z [-1; 0]%Z).
  apply Forall_cons_2; [vm_compute; discriminate|].
  apply Forall_cons_2; [vm_compute; discriminate|]. apply Forall_nil_2.
Defined.

Lemma swtn_nonpositive_level_returns_nothing_witness :
  swtn (PR := prims false) m44 "haar" 0%Z 0%Z None (world_of [])
  = (Ok [], world_of []).
Proof.
  apply (@swtn_nonpositive_level_returns_nothing _ _ _ _ (prims false)
           m44 "haar" 0%Z 0%Z None ["haar"; "haar"]).
  - lia.
  - discriminate.
  - vm_compute. lia.
  - apply len_set_NoDup. vm_compute. reflexivity.
  - reflexivity.
Defined.

Lemma swt2_axes_checks_witness :
  swt2 (PR := prims false) m44 "haar" 1%Z 0%Z [0%Z] (world_of [])
  = (Raise (ValueError "Expected 2 axes"), world_of []) ∧
  swt2 (PR := prims false) m44 "haar" 1%Z 0%Z [0; 0]%Z (world_of [])
  = (Raise (ValueError "The axes passed to swt2 must be unique."), world_of []) ∧
  swt2 (PR := prims false) (vec [1; 2]%Z) "haar" 1%Z 0%Z [0; 1]%Z (world_of [])
  = (Raise (ValueError "Input array has fewer dimensions than the specified axes"),
     world_of []) ∧
  swt2 (PR := prims false) m44 "haar" 1%Z 0%Z [0; -2]%Z (world_of [])
  = (Raise (ValueError "The axes passed to swtn must be unique."), world_of []).
Proof.
  split; [|split; [|split]].
  - apply (@swt2_axes_checks _ _ _ _ (prims false) m44 "haar" 1%Z 0%Z [0%Z]).
    discriminate.
  - apply (@swt2_axes_checks _ _ _ _ (prims false) m44 "haar" 1%Z 0%Z [0; 0]%Z).
    + reflexivity.
    + intros Hn. inversion Hn as [|? ? Hx _]. apply Hx. left.
  - apply (@swt2_axes_checks _ _ _ _ (prims false) (vec [1; 2]%Z) "haar" 1%Z 0%Z
             [0; 1]%Z).
    + reflexivity.
    + apply len_set_NoDup. vm_compute. reflexivity.
    + vm_compute. lia.
  - apply (@swt2_axes_checks _ _ _ _ (prims false) m44 "haar" 1%Z 0%Z [0; -2]%Z).
    + reflexivity.
    + apply len_set_NoDup. vm_compute. reflexivity.
    + vm_compute. lia.
    + discriminate.
    + vm_compute. intros Hn. inversion Hn as [|? ? Hx _]. apply Hx. left.
Defined.

Lemma iswtn_first_dictionary_checks_witness :
  iswtn (PR := prims false) [0] "haar" None (world_of [∅])
  = (Raise (ValueError "max() arg is an empty sequence"), world_of [∅]) ∧
  iswtn (PR := prims false) [0] "haar" None (world_of [{[ "ad" := m44 ]}])
  = (Raise (KeyError "aa"), world_of [{[ "ad" := m44 ]}]) ∧
  iswtn (PR := prims false) [0] "haar" None (world_of [{[ "a" := m44 ]}])
  = (Raise (ValueError "The number of axes used in iswtn must match the number of dimensions transformed in swtn."),
     world_of [{[ "a" := m44 ]}]).
Proof.
  split; [|split].
  - apply (@iswtn_first_dictionary_checks _ _ _ _ (prims false) [0] "haar"
             (world_of [∅]) 0 0 m44); reflexivity.
  - apply (@iswtn_first_dictionary_checks _ _ _ _ (prims false) [0] "haar"
             (world_of [{[ "ad" := m44 ]}]) 0 2 m44);
      [reflexivity | vm_compute; reflexivity | vm_compute; reflexivity].
  - apply (@iswtn_first_dictionary_checks _ _ _ _ (prims false) [0] "haar"
             (world_of [{[ "a" := m44 ]}]) 0 1 m44);
      [reflexivity | vm_compute; reflexivity | vm_compute; reflexivity
      | vm_compute; lia].
Defined.

Lemma swt2_repacks_swtn_witness :
  ∃ ret,
    swt2 (PR := prims false) m44 "haar" 2%Z 0%Z [0; 1]%Z (world_of [])
    = (Ok ret,
       (swtn (PR := prims false) m44 "haar" 2%Z 0%Z (Some [0; 1]%Z) (world_of [])).2) ∧
    Forall2 (λ (c : gmap string (ndarray C)) r,
               c !! "aa" = Some r.1 ∧ c !! "da" = Some r.2.1.1 ∧
               c !! "ad" = Some r.2.1.2 ∧ c !! "dd" = Some r.2.2)
            m44_coeffs ret.
Proof.
  assert (Hrun : (swtn (PR := prims false) m44 "haar" 2%Z 0%Z (Some [0; 1]%Z)
                    (world_of [])).1 = Ok m44_coeffs) by (vm_compute; reflexivity).
  apply (@swt2_repacks_swtn _ _ _ _ (prims false) haar_keeps_shape haar_wavelets_length
           m44 "haar" 2%Z 0%Z [0; 1]%Z (world_of []) _ m44_coeffs).
  - reflexivity.
  - vm_compute. lia.
  - exact (run_eq _ _ Hrun).
Defined.

Lemma swtn_transform_count_witness :
  work (swtn (PR := prims false) m44 "haar" 2%Z 0%Z None (world_of [])).2 = 6.
Proof.
  assert (Hrun : (swtn (PR := prims false) m44 "haar" 2%Z 0%Z None
                    (world_of [])).1 = Ok m44_coeffs) by (vm_compute; reflexivity).
  rewrite (@swtn_transform_count _ _ _ _ (prims false) haar_wavelets_length
             m44 "haar" 2%Z 0%Z None (world_of []) _ m44_coeffs (run_eq _ _ Hrun)).
  reflexivity.
Defined.

Lemma iswt_transform_count_witness :
  work (iswt (PR := prims false) x8_coeffs "db1" (world_of [])).2 = 6.
Proof.
  assert (Hrun : (iswt (PR := prims false) x8_coeffs "db1" (world_of [])).1 = Ok x8)
    by (vm_compute; reflexivity).
  rewrite (@iswt_transform_count _ _ _ _ (prims false) x8_coeffs "db1" (world_of [])
             _ x8 (nth 0 x8_coeffs (x8, x8)) eq_refl (run_eq _ _ Hrun)).
  reflexivity.
Defined.

Lemma iswt2_transform_count_witness :
  work (iswt2 (PR := prims false) m44_tuples "db1" (world_of [])).2 = 20.
Proof.
  assert (Hrun : (iswt2 (PR := prims false) m44_tuples "db1" (world_of [])).1
                 = Ok m44) by (vm_compute; reflexivity).
  destruct (@iswt2_transform_count _ _ _ _ (prims false) m44_tuples "db1"
              (world_of []) _ m44 (run_eq _ _ Hrun)) as [Hwork _].
  rewrite Hwork. reflexivity.
Defined.

Lemma iswtn_transform_count_witness :
  work (iswtn (PR := prims false) [0; 1] "haar" None (world_of m44_coeffs)).2 = 20.
Proof.
  assert (Hrun : (iswtn (PR := prims false) [0; 1] "haar" None
                    (world_of m44_coeffs)).1 = Ok m44) by (vm_compute; reflexivity).
  assert (Hk : max_key_len (dicts (world_of m44_coeffs) 0) = Ok 2)
    by (vm_compute; reflexivity).
  destruct (@iswtn_transform_count _ _ _ _ (prims false) [0; 1] "haar" None
              (world_of m44_coeffs) _ m44 0 2 eq_refl Hk (run_eq _ _ Hrun))
    as [Hwork _].
  rewrite Hwork. reflexivity.
Defined.
